(** * WMS front-end: the purchase-order / delivery-order console

    A shallow embedding of the TypeScript sources
    ([src/api/index.ts], the PO and task management pages, [TaskTable],
    [DOForm] and [DeliveryOrderForm]) and the properties of the
    specification proved, or refuted, against it.

    JavaScript values are modelled as the code uses them: strings as
    [string], numbers as binary64 floats ([PrimFloat], the very type of a
    JS number), [localStorage] and the per-order task grouping as [gmap]s
    keyed by strings, React state as explicit records threaded through the
    handlers, and a rejected promise as the left injection of a sum. *)

From Stdlib Require Import ZArith NArith Ascii PrimFloat.
From stdpp Require Import base option list gmap strings.

(** ** JavaScript strings *)

Module JSString.

(** [s.startsWith(p)] *)
Definition startsWith (s p : string) : bool := String.prefix p s.

(** [s.includes(p)] *)
Fixpoint includes (s p : string) : bool :=
  if String.prefix p s then true
  else match s with
       | EmptyString => false
       | String _ s' => includes s' p
       end.

Fixpoint drop (n : nat) (s : string) : string :=
  match n, s with
  | O, _ => s
  | S n', String _ s' => drop n' s'
  | S _, EmptyString => EmptyString
  end.

(** [s.replace(pat, rep)] with a string pattern: only the first
    occurrence is replaced (none of the replacements used below holds a
    [$] pattern). *)
Fixpoint replace (s pat rep : string) : string :=
  if String.prefix pat s then rep +:+ drop (String.length pat) s
  else match s with
       | EmptyString => EmptyString
       | String c s' => String c (replace s' pat rep)
       end.

(** [s.slice(-k)]: the last [k] characters, or all of [s] when it is
    shorter. *)
Definition slice_last (k : nat) (s : string) : string :=
  drop (String.length s - k) s.

(** [s.padStart(2, '0')] *)
Definition padStart2 (s : string) : string :=
  match String.length s with
  | O => "00"
  | S O => "0" +:+ s
  | _ => s
  end.

Definition digit_char (d : N) : ascii :=
  Ascii.ascii_of_N (48 + d).

(** Decimal digits of a natural number, most significant first; the
    fuel is cut by one at every division by ten. *)
Fixpoint digits (fuel : nat) (n : N) : string :=
  match fuel with
  | O => EmptyString
  | S f =>
      if (n <? 10)%N then String (digit_char n) EmptyString
      else digits f (n / 10)%N +:+ String (digit_char (n mod 10)%N) EmptyString
  end.

(** [n.toString()] / [String(n)] of a non-negative integer. *)
Definition toString (n : N) : string :=
  digits (S (N.to_nat (N.log2 n))) n.

(** A string is truthy when it is not empty. *)
Definition truthy (s : string) : bool :=
  negb (String.eqb s "").

End JSString.

(** ** JavaScript values that cross the wire *)

#[warnings="-register-all"]
Inductive json : Type :=
| JNull
| JBool (b : bool)
| JNum (x : float)
| JStr (s : string)
| JArr (l : list json)
| JObj (fields : list (string * json)).

(** A JavaScript value: [None] stands for [undefined]. *)
Abbreviation jsval := (option json).

Module JS.

Definition nan : float := PrimFloat.nan.

(** Truthiness of a number: [0], [-0] and [NaN] are falsy. *)
Definition truthy_num (x : float) : bool :=
  negb (PrimFloat.eqb x PrimFloat.zero) && PrimFloat.eqb x x.

Definition truthy (v : jsval) : bool :=
  match v with
  | None | Some JNull => false
  | Some (JBool b) => b
  | Some (JNum x) => truthy_num x
  | Some (JStr s) => JSString.truthy s
  | Some (JArr _) | Some (JObj _) => true
  end.

(** [a || b] *)
Definition or {A} (t : A -> bool) (a b : A) : A := if t a then a else b.

Fixpoint assoc (k : string) (fields : list (string * json)) : jsval :=
  match fields with
  | [] => None
  | (k', v) :: rest => if String.eqb k k' then Some v else assoc k rest
  end.

(** [v?.k]: [undefined] on [null] and [undefined]; the keys read by the
    code ([status], [message], [error], [data], [token], [user]) exist on
    no primitive or array, so only objects answer. *)
Definition opt_get (v : jsval) (k : string) : jsval :=
  match v with
  | Some (JObj fields) => assoc k fields
  | _ => None
  end.

(** [v.k]: a [TypeError] ([None]) on [null] and [undefined]. *)
Definition get (v : jsval) (k : string) : option jsval :=
  match v with
  | None | Some JNull => None
  | _ => Some (opt_get v k)
  end.

(** [v === 'lit'] *)
Definition is_str (v : jsval) (lit : string) : bool :=
  match v with
  | Some (JStr s) => String.eqb s lit
  | _ => false
  end.

End JS.

(** ** Promises that may reject, over the browser's ambient state *)

Inductive error : Type :=
| ApiError (status : nat) (message : jsval) (data : jsval)
| Error (message : string)
| TypeError
| SyntaxError
| NetworkError.

(** [error instanceof ApiError] *)
Definition is_ApiError (e : error) : bool :=
  match e with ApiError _ _ _ => true | _ => false end.

(** A computation over a state [S] that either throws or returns. *)
Definition M (S A : Type) : Type := S -> (error + A) * S.

Definition ret {S A} (a : A) : M S A := fun s => (inr a, s).
Definition throw {S A} (e : error) : M S A := fun s => (inl e, s).
Definition bind {S A B} (m : M S A) (k : A -> M S B) : M S B :=
  fun s => match m s with
           | (inr a, s') => k a s'
           | (inl e, s') => (inl e, s')
           end.
(** [try { m } catch (e) { h e }] *)
Definition try_catch {S A} (m : M S A) (h : error -> M S A) : M S A :=
  fun s => match m s with
           | (inr a, s') => (inr a, s')
           | (inl e, s') => h e s'
           end.
Definition modify {S} (f : S -> S) : M S unit := fun s => (inr tt, f s).
Definition gets {S A} (f : S -> A) : M S A := fun s => (inr (f s), s).
(** A property read that throws a [TypeError] on [null]/[undefined]. *)
Definition of_get {S} (r : option jsval) : M S jsval :=
  match r with Some v => ret v | None => throw TypeError end.

Notation "'do' x <- m ; k" := (bind m (fun x => k))
  (at level 10, x name, m at level 100, k at level 200).
Notation "'run' m ; k" := (bind m (fun _ => k))
  (at level 10, m at level 100, k at level 200).

(** ** [src/api/index.ts]: the HTTP helper *)

Module Api.

(** What [fetch] is called with. *)
Record request : Type := {
  req_url : string;
  req_method : option string;
  req_headers : gmap string string;
  req_body : option string;
  req_credentials : string
}.

(** What [fetch] resolves to: the status line, the body text
    ([res.text()]) and what [JSON.parse] makes of that text
    ([None] when it throws). *)
Record response : Type := {
  status : nat;
  body : string;
  body_json : option json
}.

(** [res.ok]: the status is in the range 200-299. *)
Definition ok (res : response) : bool :=
  (200 <=? status res) && (status res <=? 299).

(** The browser state the helper reads and writes, with the log of the
    requests it has dispatched. *)
Record world : Type := {
  localStorage : gmap string string;
  location_href : option string;
  dispatched : list request
}.

Definition setItem (k v : string) (w : world) : world :=
  {| localStorage := <[k := v]> (localStorage w);
     location_href := location_href w;
     dispatched := dispatched w |}.

Definition removeItem (k : string) (w : world) : world :=
  {| localStorage := delete k (localStorage w);
     location_href := location_href w;
     dispatched := dispatched w |}.

Definition set_href (u : string) (w : world) : world :=
  {| localStorage := localStorage w;
     location_href := Some u;
     dispatched := dispatched w |}.

Definition log_request (r : request) (w : world) : world :=
  {| localStorage := localStorage w;
     location_href := location_href w;
     dispatched := dispatched w ++ [r] |}.

(** [RequestInit], as far as the callers fill it. *)
Record RequestInit : Type := {
  method : option string;
  headers : gmap string string;
  init_body : option string
}.

Definition no_options : RequestInit :=
  {| method := None; headers := ∅; init_body := None |}.

(** Map of singular to plural endpoints, in [Object.entries] order. *)
Definition ENDPOINT_MAP : list (string * string) :=
  [ ("/api/order", "/api/orders");
    ("/api/user", "/api/users");
    ("/api/product", "/api/products");
    ("/api/customer", "/api/customers");
    ("/api/task", "/api/tasks") ].

Record LoginResponse : Type := {
  token : json;
  user : jsval
}.

Section WithEnvironment.

(** [import.meta.env.VITE_API_URL] ([None] when the build does not
    define it). *)
Variable VITE_API_URL : option string.
(** The network: the answer to a request, [None] when [fetch] rejects. *)
Variable server : request -> option response.
(** Built-ins of the host: [JSON.stringify], [String(v)] on a value
    that is not a string, [s.trim()]. *)
Variable JSON_stringify : json -> string.
Variable String_of : json -> string.
Variable trim : string -> string.

Definition BASE_URL : string :=
  match VITE_API_URL with
  | Some u => if JSString.truthy u then u else "http://localhost:8080"
  | None => "http://localhost:8080"
  end.

(** Ensure no double slash and correct endpoint. *)
Definition joinBase (url : string) : string :=
  if JSString.startsWith url "http" then url
  else BASE_URL +:+ (if JSString.startsWith url "/" then "" else "/") +:+ url.

(** One round of the [forEach] over [ENDPOINT_MAP]. *)
Definition rewriteEndpoint (fullUrl : string) (entry : string * string) : string :=
  let '(singular, plural) := entry in
  if String.eqb fullUrl (BASE_URL +:+ singular)
     || JSString.startsWith fullUrl (BASE_URL +:+ singular +:+ "/")
  then JSString.replace fullUrl singular plural
  else fullUrl.

(** The URL handed to [fetch]. *)
Definition finalUrl (url : string) : string :=
  fold_left rewriteEndpoint ENDPOINT_MAP (joinBase url).

Definition fetch (r : request) : M world response :=
  fun w => match server r with
           | Some res => (inr res, log_request r w)
           | None => (inl NetworkError, log_request r w)
           end.

Definition isAuthEndpoint (url : string) : bool :=
  JSString.includes url "/auth/login"
  || String.eqb url "/api/auth/login"
  || JSString.includes url "/auth/logout".

Definition requestHeaders (token : option string) (url : string)
    (options : RequestInit) : gmap string string :=
  let headers0 :=
    headers options ∪
    <["Content-Type" := "application/json"]>
      (<["Accept" := "application/json"]> ∅) in
  match token with
  | Some t =>
      if JSString.truthy t && negb (isAuthEndpoint url)
      then <["Authorization" := "Bearer " +:+ t]> headers0
      else headers0
  | None => headers0
  end.

(** [text ? JSON.parse(text) : {}], with the [catch] that forgives a
    successful DELETE. *)
Definition parseBody (options : RequestInit) (res : response) : M world json :=
  let isDeleteRequest :=
    match method options with
    | Some m => String.eqb m "DELETE"
    | None => false
    end in
  try_catch
    (if JSString.truthy (body res)
     then match body_json res with
          | Some d => ret d
          | None => throw SyntaxError
          end
     else ret (JObj []))
    (fun _ =>
       if isDeleteRequest && ok res then ret (JObj [])
       else throw (ApiError (status res)
                     (Some (JStr "Invalid JSON response from server")) None)).

Definition apiRequest (url : string) (options : RequestInit) : M world jsval :=
  do tok <- gets (fun w => localStorage w !! "token");
  let hdrs := requestHeaders tok url options in
  let fullUrl := finalUrl url in
  try_catch
    (let credentials := if isAuthEndpoint url then "same-origin" else "include" in
     do res <- fetch {| req_url := fullUrl;
                        req_method := method options;
                        req_headers := hdrs;
                        req_body := init_body options;
                        req_credentials := credentials |};
     do data <- parseBody options res;
     let d := Some data in
     if negb (ok res) then
       if (status res =? 401) || (status res =? 403) then
         run modify (removeItem "token");
         if JSString.includes url "/auth/login" then
           let errorMessage :=
             JS.or JS.truthy (JS.opt_get d "message")
               (Some (JStr (if status res =? 401
                            then "Invalid email or password"
                            else "You do not have permission to access this resource"))) in
           throw (ApiError (status res) errorMessage d)
         else
           run modify (set_href "/login");
           throw (ApiError (status res)
                    (Some (JStr "Session expired. Please login again.")) d)
       else
         throw (ApiError (status res)
                  (JS.or JS.truthy (JS.opt_get d "message")
                     (JS.or JS.truthy (JS.opt_get d "error")
                        (Some (JStr "API request failed")))) d)
     else
       do st <- of_get (JS.get d "status");
       if JS.is_str st "error" then
         do msg <- of_get (JS.get d "message");
         throw (ApiError (status res)
                  (JS.or JS.truthy msg (Some (JStr "API request failed"))) d)
       else if String.eqb url "/login" then ret d
       else
         do dd <- of_get (JS.get d "data");
         ret (JS.or JS.truthy dd d))
    (fun e => throw e).

(** Store user info in localStorage for logging. *)
Definition setUserForLogging (u : jsval) : M world unit :=
  modify (setItem "user"
            (match u with Some j => JSON_stringify j | None => "undefined" end)).

Definition String_ (v : json) : string :=
  match v with JStr s => s | _ => String_of v end.

Definition login (email password : string) : M world LoginResponse :=
  try_catch
    (do res <- fetch
         {| req_url := BASE_URL +:+ "/login";
            req_method := Some "POST";
            req_headers := <["Content-Type" := "application/json"]>
                             (<["Accept" := "application/json"]> ∅);
            req_body := Some (JSON_stringify
                                (JObj [("email", JStr (trim email));
                                       ("password", JStr password)]));
            req_credentials := "include" |};
     do data <- try_catch
                  (match body_json res with
                   | Some d => ret d
                   | None => throw SyntaxError
                   end)
                  (fun _ => throw (Error "Invalid response from server"));
     let d := Some data in
     if negb (ok res) then
       throw (ApiError (status res)
                (JS.or JS.truthy (JS.opt_get d "message")
                   (Some (JStr ("Login failed with status "
                                +:+ JSString.toString (N.of_nat (status res))))))
                d)
     else
       do dd <- of_get (JS.get d "data");
       if negb (JS.truthy (JS.opt_get dd "token")) then
         throw (Error "Authentication failed: No token received")
       else
         do tok <- of_get (JS.get dd "token");
         do usr <- of_get (JS.get dd "user");
         match tok with
         | None => throw (Error "No token received from server")
         | Some t =>
             if negb (JS.truthy tok) then
               throw (Error "No token received from server")
             else
               run modify (setItem "token" (String_ t));
               if JS.truthy usr then
                 run setUserForLogging usr;
                 ret {| token := t; user := usr |}
               else
                 try_catch
                   (do userResponse <- apiRequest "/api/users/me" no_options;
                    run setUserForLogging userResponse;
                    ret {| token := t; user := userResponse |})
                   (fun _ =>
                      ret {| token := t;
                             user := Some (JObj [("email", JStr email)]) |})
         end)
    (fun e =>
       if is_ApiError e then throw e
       else throw (Error "Failed to login. Please try again.")).

Definition logout : M world unit :=
  run try_catch
        (run apiRequest "/logout"
               {| method := Some "POST"; headers := ∅; init_body := None |};
         ret tt)
        (fun _ => ret tt);
  (* finally *)
  modify (removeItem "token").

(** Generic CRUD operations. *)
Definition getItems (endpoint : string) : M world jsval :=
  apiRequest endpoint no_options.

Definition getItem (endpoint id : string) : M world jsval :=
  apiRequest (endpoint +:+ "/" +:+ id) no_options.

Definition createItem (endpoint : string) (data : json) : M world jsval :=
  apiRequest endpoint
    {| method := Some "POST"; headers := ∅;
       init_body := Some (JSON_stringify data) |}.

Definition updateItem (endpoint id : string) (data : json) : M world jsval :=
  apiRequest (endpoint +:+ "/" +:+ id)
    {| method := Some "PUT"; headers := ∅;
       init_body := Some (JSON_stringify data) |}.

Definition deleteItem (endpoint id : string) : M world unit :=
  run apiRequest (endpoint +:+ "/" +:+ id)
        {| method := Some "DELETE"; headers := ∅; init_body := None |};
  ret tt.

End WithEnvironment.

End Api.

(** ** Shared view state *)

(** [react-hot-toast] notifications, oldest first. *)
Inductive toast : Type :=
| toast_success (msg : string)
| toast_error (msg : string).

(** [a || b] on optional strings ([undefined], [null] and [''] are falsy). *)
Definition truthy_str (v : option string) : bool :=
  match v with
  | Some s => JSString.truthy s
  | None => false
  end.

Definition truthy_flag (v : option bool) : bool :=
  match v with
  | Some b => b
  | None => false
  end.

Definition or_str (a b : option string) : option string :=
  JS.or truthy_str a b.

(** The [Task] interface of [TaskTable.tsx]. *)
Inductive assignee : Type :=
| AssigneeId (uid : string)
| AssigneeObj (name email uid : option string).

Record Task : Type := {
  _id : string;
  orderId : string;
  purchaseOrderId : option string;
  poId : option string;
  purchaseOrder_id : option string;
  type : string;
  assignedTo : assignee;
  details : string;
  task_status : string;
  deadline : string
}.

(** The fields of a delivery-order response that [DOForm.handleSubmit]
    and [POManagementPage.handleDOSuccess] read ([DOResponseData]). *)
Record DOResponseOrder : Type := {
  order__id : option string;
  order_id : option string;
  order_doId : option string
}.

Record DOResponseData : Type := {
  resp_order : option DOResponseOrder;
  resp__id : option string;
  resp_id : option string;
  resp_doId : option string;
  resp_data_id : option string;
  resp_redirectUrl : option string
}.



(** The names every object inherits from [Object.prototype] in the
    browsers the pages run in. Read on a plain [{}] that has no such key
    of its own, each yields a function, or the prototype itself for
    [__proto__]: a truthy value that has no [push]. *)
Definition objectPrototypeMembers : list string :=
  [ "constructor"; "__defineGetter__"; "__defineSetter__"; "hasOwnProperty";
    "__lookupGetter__"; "__lookupSetter__"; "isPrototypeOf";
    "propertyIsEnumerable"; "toString"; "valueOf"; "__proto__";
    "toLocaleString" ].

Definition inherited (k : string) : bool :=
  existsb (String.eqb k) objectPrototypeMembers.

(** A loop over an array whose body may throw: the first throw ends
    it. *)
Fixpoint fold_throwing {A B} (f : B -> A -> error + B) (l : list A) (b : B)
    : error + B :=
  match l with
  | [] => inr b
  | x :: rest =>
      match f b x with
      | inr b' => fold_throwing f rest b'
      | inl e => inl e
      end
  end.

(** ** The authentication context *)

Module AuthContext.

Record AuthState : Type := {
  user : jsval;
  loading : bool;
  world : Api.world
}.

Definition setUser (u : jsval) (s : AuthState) : AuthState :=
  {| user := u; loading := loading s; world := world s |}.

Definition setLoading (b : bool) (s : AuthState) : AuthState :=
  {| user := user s; loading := b; world := world s |}.

Definition onWorld (f : Api.world -> Api.world) (s : AuthState) : AuthState :=
  {| user := user s; loading := loading s; world := f (world s) |}.

(** Run a call of the API module on the browser state of the provider. *)
Definition liftWorld {A} (m : M Api.world A) : M AuthState A :=
  fun s => let '(r, w) := m (world s) in
           (r, {| user := user s; loading := loading s; world := w |}).

(** [try { m } finally { f }] *)
Definition finally {S A} (m : M S A) (f : S -> S) : M S A :=
  fun s => let '(r, s') := m s in (r, f s').

Section WithEnvironment.

Variable VITE_API_URL : option string.
Variable server : Api.request -> option Api.response.
Variable JSON_stringify : json -> string.
Variable String_of : json -> string.
Variable trim : string -> string.

(** The effect run once when the provider mounts. *)
Definition checkAuth : M AuthState unit :=
  do tok <- gets (fun s => Api.localStorage (world s) !! "token");
  if negb (truthy_str tok) then
    modify (setLoading false)
  else
    finally
      (try_catch
         (do userData <- liftWorld
                           (Api.apiRequest VITE_API_URL server "/api/users/me"
                              Api.no_options);
          modify (setUser userData))
         (fun _ => modify (onWorld (Api.removeItem "token"))))
      (setLoading false).

Definition login (email password : string) : M AuthState Api.LoginResponse :=
  finally
    (try_catch
       (run modify (setLoading true);
        do r <- liftWorld
                  (Api.login VITE_API_URL server JSON_stringify String_of trim
                     email password);
        if negb (JS.truthy (Some (Api.token r))) then
          throw (Error "No token received from server")
        else
          run modify (onWorld (Api.setItem "token"
                                 (Api.String_ String_of (Api.token r))));
          (* Ensure we have valid user data *)
          if negb (JS.truthy (Api.user r)) then
            throw (Error "No user data received")
          else
            run modify (setUser (Api.user r));
            run liftWorld (Api.setUserForLogging JSON_stringify (Api.user r));
            ret r)
       (fun e =>
          (* Clear any partial state on error *)
          run modify (onWorld (Api.removeItem "token"));
          run modify (setUser None);
          throw e))
    (setLoading false).

Definition logout : M AuthState unit :=
  finally
    (try_catch
       (run liftWorld
              (Api.apiRequest VITE_API_URL server "/api/auth/logout"
                 {| Api.method := Some "POST"; Api.headers := ∅;
                    Api.init_body := None |});
        ret tt)
       (fun _ => ret tt))
    (fun s => setUser None (onWorld (Api.removeItem "token") s)).

End WithEnvironment.

End AuthContext.

(** ** The PO management page (the version hosting the DO modal) *)

Module POManagementPage.

Record PurchaseOrder : Type := {
  id : string;
  date : string;
  deliveryDate : string;
  notes : option string;
  status : string;
  doCreated : option bool;
  doId : option string;
  invoiceUrl : option string
}.

Record PageState : Type := {
  orders : list PurchaseOrder;
  orderTasks : gmap string (list Task);
  selectedOrder : option PurchaseOrder;
  showDOForm : bool;
  currentPOId : option string;
  currentDOData : option DOResponseData;
  isLoadingDO : bool;
  toasts : list toast;
  navigated : list string
}.

(** The controls a row of the table can hold, in rendering order. *)
Inductive control : Type :=
| Approve
| CreateTask
| ViewDO
| SwitchToDO
| CreateDO
| ActionsDropdown (entries : list string)
| MarkAsShipping
| MarkAsDelivered
| Complete
| DOHint (text : string)
| GenerateInvoice
| Cancel
| CancelledLabel.

Definition areAllTasksCompleted (orderTasks : gmap string (list Task))
    (orderId : string) : bool :=
  let tasks := default [] (orderTasks !! orderId) in
  if length tasks =? 0 then false
  else forallb (fun task => String.eqb (task_status task) "Completed") tasks.

(** Helper to check if PO is cancelled or delivered. *)
Definition isInactive (order : PurchaseOrder) : bool :=
  String.eqb (status order) "cancelled" || String.eqb (status order) "delivered".

(** [currentUser?.role === r] *)
Definition role_is (role : option string) (r : string) : bool :=
  match role with
  | Some s => String.eqb s r
  | None => false
  end.

(** [{cond && (...)}] *)
Definition when (cond : bool) (cs : list control) : list control :=
  if cond then cs else [].

(** The Actions cell of one row. *)
Definition rowActions (role : option string) (orderTasks : gmap string (list Task))
    (order : PurchaseOrder) : list control :=
  let privileged := role_is role "manager" || role_is role "superadmin" in
  let user := role_is role "user" in
  let st := status order in
  when (privileged && String.eqb st "pending" && negb (isInactive order))
    [Approve]
  ++ when (privileged && String.eqb st "processing" && negb (isInactive order))
    [CreateTask]
  ++ when (user && String.eqb st "processing" && negb (isInactive order))
    (if truthy_flag (doCreated order) then [ViewDO; SwitchToDO]
     else if areAllTasksCompleted orderTasks (id order) then [CreateDO]
     else [ActionsDropdown ["Create DO"]])
  ++ when (user && String.eqb st "processing" && truthy_flag (doCreated order)
           && negb (isInactive order))
    [MarkAsShipping]
  ++ when (user && String.eqb st "shipping" && negb (isInactive order))
    [MarkAsDelivered]
  ++ when (user && String.eqb st "delivered" && negb (isInactive order))
    ([Complete]
     ++ (if truthy_flag (doCreated order) && truthy_str (doId order)
         then [ViewDO]
         else [DOHint (if negb (truthy_flag (doCreated order))
                       then "DO not created" else "DO ID missing")])
     ++ when (truthy_flag (doCreated order)) [SwitchToDO])
  ++ when (privileged && String.eqb st "delivered"
           && negb (truthy_str (invoiceUrl order)))
    [GenerateInvoice]
  ++ when (privileged && (String.eqb st "pending" || String.eqb st "processing")
           && negb (isInactive order))
    [Cancel]
  ++ when (String.eqb st "cancelled") [CancelledLabel].

(** [{ ...order, doCreated: true, doId: resolvedDoId }] *)
Definition withDO (resolvedDoId : string) (order : PurchaseOrder) : PurchaseOrder :=
  {| id := id order; date := date order; deliveryDate := deliveryDate order;
     notes := notes order; status := status order;
     doCreated := Some true; doId := Some resolvedDoId;
     invoiceUrl := invoiceUrl order |}.







Definition addToast (t : toast) (s : PageState) : PageState :=
  {| orders := orders s; orderTasks := orderTasks s;
     selectedOrder := selectedOrder s; showDOForm := showDOForm s;
     currentPOId := currentPOId s; currentDOData := currentDOData s;
     isLoadingDO := isLoadingDO s; toasts := toasts s ++ [t];
     navigated := navigated s |}.

Definition navigate (u : string) (s : PageState) : PageState :=
  {| orders := orders s; orderTasks := orderTasks s;
     selectedOrder := selectedOrder s; showDOForm := showDOForm s;
     currentPOId := currentPOId s; currentDOData := currentDOData s;
     isLoadingDO := isLoadingDO s; toasts := toasts s;
     navigated := navigated s ++ [u] |}.

Section HandleDOSuccess.

(** [JSON.parse] on a string payload: [None] when it throws,
    [Some None] when it yields [null], [Some (Some d)] for any other
    value, read through the fields of [DOResponseData]. *)
Variable JSON_parse : string -> option (option DOResponseData).





Definition patchOrder (poId resolvedDoId : string) (order : PurchaseOrder)
    : PurchaseOrder :=
  if String.eqb (id order) poId then withDO resolvedDoId order else order.




End HandleDOSuccess.

End POManagementPage.

(** ** The PO management page, [src/pages/POManagementPage.tsx]

    The variant whose [handleCreateDO] PATCHes the order directly; only
    its Actions cell differs in what it renders. *)

Module POManagementPagePatch.

Import POManagementPage.

Definition rowActions (role : option string) (orderTasks : gmap string (list Task))
    (order : PurchaseOrder) : list control :=
  let privileged := role_is role "manager" || role_is role "superadmin" in
  let user := role_is role "user" in
  let st := status order in
  when (privileged && String.eqb st "pending" && negb (isInactive order))
    [Approve]
  ++ when (privileged && String.eqb st "processing" && negb (isInactive order))
    [CreateTask]
  ++ when (user && String.eqb st "processing" && negb (isInactive order))
    (if truthy_flag (doCreated order) then [SwitchToDO]
     else if areAllTasksCompleted orderTasks (id order) then [SwitchToDO]
     else [ActionsDropdown ["Create DO"]])
  ++ when (user && String.eqb st "processing" && truthy_flag (doCreated order)
           && negb (isInactive order))
    [MarkAsShipping]
  ++ when (user && String.eqb st "shipping" && negb (isInactive order))
    [MarkAsDelivered]
  ++ when (user && String.eqb st "delivered" && negb (isInactive order))
    ([Complete;
      DOHint (if truthy_flag (doCreated order)
              then "DO Created: Yes" else "DO Created: No")]
     ++ when (truthy_flag (doCreated order)) [SwitchToDO])
  ++ when (privileged && String.eqb st "delivered"
           && negb (truthy_str (invoiceUrl order)))
    [GenerateInvoice]
  ++ when (privileged && (String.eqb st "pending" || String.eqb st "processing")
           && negb (isInactive order))
    [Cancel]
  ++ when (String.eqb st "cancelled") [CancelledLabel].

End POManagementPagePatch.

(** ** The task management page *)

Module TaskManagementPage.

Record PageState : Type := {
  tasks : list Task;
  orderTasks : gmap string (list Task);
  toasts : list toast;
  world : Api.world
}.

Definition setTasks (f : list Task -> list Task) (s : PageState) : PageState :=
  {| tasks := f (tasks s); orderTasks := orderTasks s;
     toasts := toasts s; world := world s |}.

Definition setOrderTasks
    (f : gmap string (list Task) -> gmap string (list Task))
    (s : PageState) : PageState :=
  {| tasks := tasks s; orderTasks := f (orderTasks s);
     toasts := toasts s; world := world s |}.

Definition addToast (t : toast) (s : PageState) : PageState :=
  {| tasks := tasks s; orderTasks := orderTasks s;
     toasts := toasts s ++ [t]; world := world s |}.

(** Run a call of the HTTP helper on the browser state of the page. *)
Definition liftWorld {A} (m : M Api.world A) : M PageState A :=
  fun s => let '(r, w) := m (world s) in
           (r, {| tasks := tasks s; orderTasks := orderTasks s;
                  toasts := toasts s; world := w |}).

(** [t._id !== taskId], the predicate of both filters. *)
Definition otherThan (taskId : string) (t : Task) : Prop := _id t ≠ taskId.

#[global] Instance otherThan_dec taskId t : Decision (otherThan taskId t).
Proof. unfold otherThan. apply _. Defined.

(** The tasks of one order. *)
Definition ofOrder (k : string) (t : Task) : Prop := orderId t = k.

#[global] Instance ofOrder_dec k t : Decision (ofOrder k t).
Proof. unfold ofOrder. apply _. Defined.

(** Group all tasks by orderId: one step of the [reduce] of
    [fetchTasks] and [fetchAllTasks]. [acc[task.orderId]] is the group
    the accumulator holds under the id, or else what it inherits under
    that name: then no array is made and [push] is not a function. *)
Definition reduceStep (acc : gmap string (list Task)) (task : Task)
    : error + gmap string (list Task) :=
  match acc !! orderId task with
  | Some group => inr (<[orderId task := group ++ [task]]> acc)
  | None =>
      if inherited (orderId task) then inl TypeError
      else inr (<[orderId task := [task]]> acc)
  end.

Definition tasksByOrder (allTasks : list Task) : error + gmap string (list Task) :=
  fold_throwing reduceStep allTasks ∅.


Section WithEnvironment.

Variable VITE_API_URL : option string.
Variable server : Api.request -> option Api.response.
Variable JSON_stringify : json -> string.


Definition handleDeleteTask (taskId : string) : M PageState unit :=
  try_catch
    (run liftWorld
           (Api.apiRequest VITE_API_URL server ("/api/tasks/" +:+ taskId)
              {| Api.method := Some "DELETE";
                 Api.headers := ∅;
                 Api.init_body := None |});
     (* Remove the deleted task from the tasks list *)
     run modify (setTasks (filter (otherThan taskId)));
     (* Also update the orderTasks state *)
     run modify (setOrderTasks (fmap (filter (otherThan taskId))));
     modify (addToast (toast_success "Task deleted successfully")))
    (fun e =>
       run modify (addToast (toast_error "Failed to delete task"));
       (* Re-throw to show error in the TaskRow component *)
       throw e).

End WithEnvironment.

End TaskManagementPage.

(** ** [TaskTable] and its rows *)

Module TaskTable.

Inductive rowControl : Type :=
| StatusSelect
| DetailsButton
| SwitchToDOButton
| DeleteButton.

Definition role_is (role : option string) (r : string) : bool :=
  match role with
  | Some s => String.eqb s r
  | None => false
  end.

(** Temporarily force show for debugging. *)
Definition buttonShouldShow : bool := true.

(** What a [TaskRow] renders in its Actions cell. *)
Definition TaskRow (task : Task) (hasOnDelete hasOnSwitchToDO : bool)
    (currentUserRole : option string) (showSwitchButton : bool) : list rowControl :=
  [StatusSelect; DetailsButton]
  ++ (if buttonShouldShow && hasOnSwitchToDO then [SwitchToDOButton] else [])
  ++ (if hasOnDelete
         && (role_is currentUserRole "superadmin" || role_is currentUserRole "manager")
      then [DeleteButton] else []).

(** Use purchaseOrderId, poId, or purchaseOrder._id, whichever is
    available. *)
Definition switchTarget (task : Task) : option string :=
  or_str (or_str (purchaseOrderId task) (poId task)) (purchaseOrder_id task).

(** The visibility filter of the table. *)
Definition visible (currentUserId currentUserRole : option string) (task : Task) : bool :=
  if role_is currentUserRole "superadmin" || role_is currentUserRole "manager"
  then true
  else match currentUserId with
       | Some uid =>
           if negb (JSString.truthy uid) then false
           else match assignedTo task with
                | AssigneeId a => String.eqb a uid
                | AssigneeObj _ _ (Some a) => String.eqb a uid
                | AssigneeObj _ _ None => false
                end
       | None => false
       end.

(** The [showSwitchButton] prop computed for a row. *)
Definition showSwitchButton (recentlyCompleted : gset string) (task : Task) : bool :=
  bool_decide (_id task ∈ recentlyCompleted)
  || String.eqb (task_status task) "Completed".

(** Update recently completed tasks when status changes; the table's
    own state is the set, next to the parent's state [S]. *)
Definition handleStatusChangeWithTracking {S}
    (onStatusChange : string -> string -> M S unit)
    (taskId newStatus : string) : M (S * gset string) unit :=
  fun '(s, recentlyCompleted) =>
    match onStatusChange taskId newStatus s with
    | (inr _, s') =>
        if String.eqb newStatus "Completed"
        then (inr tt, (s', {[taskId]} ∪ recentlyCompleted))
        else (inr tt, (s', recentlyCompleted))
    | (inl e, s') => (inl e, (s', recentlyCompleted))
    end.

(** The Delete button of a row: [confirmDelete] is the answer to the
    [confirm] dialog, the [bool] next to the parent's state [S] is the
    row's [isDeleting]. *)
Definition handleDelete {S} (addToast : toast -> S -> S)
    (onDelete : option (string -> M S unit)) (confirmDelete : bool) (task : Task)
    : M (S * bool) unit :=
  match onDelete with
  | None => ret tt
  | Some onDelete_ =>
      if negb confirmDelete then ret tt
      else
        AuthContext.finally
          (try_catch
             (run modify (fun st => (st.1, true));
              run (fun st => let '(r, s') := onDelete_ (_id task) st.1 in
                             (r, (s', st.2)));
              modify (fun st =>
                        (addToast (toast_success "Task deleted successfully") st.1,
                         st.2)))
             (fun _ =>
                modify (fun st =>
                          (addToast (toast_error "Failed to delete task") st.1,
                           st.2))))
          (fun st => (st.1, false))
  end.

(** The click on Switch to DO. *)
Definition handleSwitchClick {S} (addToast : toast -> S -> S)
    (onSwitchToDO : string -> M S unit) (task : Task) : M S unit :=
  match switchTarget task with
  | Some poId_ =>
      if negb (JSString.truthy poId_)
      then modify (addToast (toast_error
                     "Cannot create DO: No purchase order ID found"))
      else onSwitchToDO poId_
  | None =>
      modify (addToast (toast_error "Cannot create DO: No purchase order ID found"))
  end.

(** The rows of the table: the parent's [onSwitchToDO] or the table's
    own [handleSwitchToDO], so the callback is always there. *)
Definition rows (tasks : list Task) (hasOnDelete : bool)
    (currentUserId currentUserRole : option string)
    (recentlyCompleted : gset string) : list (Task * list rowControl) :=
  map (fun task =>
         (task, TaskRow task hasOnDelete true currentUserRole
                  (showSwitchButton recentlyCompleted task)))
      (List.filter (visible currentUserId currentUserRole) tasks).

End TaskTable.

(** ** Delivery-order forms *)

(** What the forms read off the clock and [Math.random] when they run:
    [Date.now()], the local calendar fields of [new Date()], the ISO date
    of today and of today plus seven days, and the base-36 fragment drawn
    for the [k]-th generated item id. *)
Record Clock : Type := {
  now_ms : N;
  fullYear : N;
  month : N;
  day : N;
  isoDate : string;
  isoDatePlus7 : string;
  random36 : nat -> string
}.

(** [items.filter((_, i) => keep(i))], counting from [i]. *)
Fixpoint filter_index {A} (keep : nat -> bool) (i : nat) (l : list A) : list A :=
  match l with
  | [] => []
  | x :: rest =>
      if keep i then x :: filter_index keep (S i) rest
      else filter_index keep (S i) rest
  end.

Module DOForm.

Record Item : Type := {
  productName : string;
  quantity : float;
  unit_ : string;
  unitPrice : float;
  total : float
}.

Record FormData : Type := {
  doNumber : string;
  doDate : string;
  supplierName : string;
  supplierNumber : string;
  supplierAddress : string;
  deliveryAddress : string;
  deliveryDate : string;
  notes : string;
  terms : string;
  paymentTerms : string;
  shippingMethod : string;
  items : list Item;
  totalAmount : float
}.

Definition defaultItem : Item :=
  {| productName := ""; quantity := 1%float; unit_ := "pcs";
     unitPrice := 0%float; total := 0%float |}.

(** The initial [useState] value, also restored in create mode. *)
Definition initialForm (clock : Clock) : FormData :=
  {| doNumber := ""; doDate := isoDate clock;
     supplierName := ""; supplierNumber := ""; supplierAddress := "";
     deliveryAddress := ""; deliveryDate := isoDatePlus7 clock;
     notes := ""; terms := ""; paymentTerms := "Net 30";
     shippingMethod := "Standard"; items := [defaultItem];
     totalAmount := 0%float |}.

Definition setDoNumber (v : string) (prev : FormData) : FormData :=
  {| doNumber := v; doDate := doDate prev;
     supplierName := supplierName prev; supplierNumber := supplierNumber prev;
     supplierAddress := supplierAddress prev;
     deliveryAddress := deliveryAddress prev; deliveryDate := deliveryDate prev;
     notes := notes prev; terms := terms prev; paymentTerms := paymentTerms prev;
     shippingMethod := shippingMethod prev; items := items prev;
     totalAmount := totalAmount prev |}.

Definition setItems (v : list Item) (prev : FormData) : FormData :=
  {| doNumber := doNumber prev; doDate := doDate prev;
     supplierName := supplierName prev; supplierNumber := supplierNumber prev;
     supplierAddress := supplierAddress prev;
     deliveryAddress := deliveryAddress prev; deliveryDate := deliveryDate prev;
     notes := notes prev; terms := terms prev; paymentTerms := paymentTerms prev;
     shippingMethod := shippingMethod prev; items := v;
     totalAmount := totalAmount prev |}.

(** Generate DO number based on timestamp: the mount effect's update. *)
Definition generateDONumber (clock : Clock) (prev : FormData) : FormData :=
  let timestamp := JSString.slice_last 6 (JSString.toString (now_ms clock)) in
  let year := JSString.toString (fullYear clock) in
  let month_ := JSString.padStart2 (JSString.toString (month clock + 1)) in
  let day_ := JSString.padStart2 (JSString.toString (day clock)) in
  setDoNumber ("DO-" +:+ year +:+ month_ +:+ day_ +:+ "-" +:+ timestamp) prev.

(** Handle adding a new item to the form. *)
Definition addItem (prev : FormData) : FormData :=
  setItems (items prev ++ [defaultItem]) prev.

(** Handle removing an item from the form. *)
Definition removeItem (index : nat) (formData : FormData) : FormData :=
  if length (items formData) <=? 1 then formData (* Keep at least one item *)
  else setItems (filter_index (fun i => negb (i =? index)) 0 (items formData))
         formData.

(** The four ways the inputs of a row call [handleItemChange]: the field
    name with the value the input hands over. *)
Inductive itemEdit : Type :=
| SetProductName (value : string)
| SetQuantity (value : float)
| SetUnit (value : string)
| SetUnitPrice (value : float).

(** [{ ...item, [field]: value }] *)
Definition assignField (edit : itemEdit) (item : Item) : Item :=
  match edit with
  | SetProductName v =>
      {| productName := v; quantity := quantity item; unit_ := unit_ item;
         unitPrice := unitPrice item; total := total item |}
  | SetQuantity v =>
      {| productName := productName item; quantity := v; unit_ := unit_ item;
         unitPrice := unitPrice item; total := total item |}
  | SetUnit v =>
      {| productName := productName item; quantity := quantity item; unit_ := v;
         unitPrice := unitPrice item; total := total item |}
  | SetUnitPrice v =>
      {| productName := productName item; quantity := quantity item;
         unit_ := unit_ item; unitPrice := v; total := total item |}
  end.

Definition setTotal (v : float) (item : Item) : Item :=
  {| productName := productName item; quantity := quantity item;
     unit_ := unit_ item; unitPrice := unitPrice item; total := v |}.

(** Handle changes to item fields. [None] when [index] is past the end of
    the list: the array would grow a partial item there, which the inputs
    of the form, rendered from the list itself, never ask for. *)
Definition handleItemChange (index : nat) (edit : itemEdit) (formData : FormData)
    : option FormData :=
  match items formData !! index with
  | None => None
  | Some old =>
      let item := assignField edit old in
      (* Recalculate total if quantity or unitPrice changes *)
      let item :=
        match edit with
        | SetQuantity value =>
            let quantity_ := value in
            let unitPrice_ := JS.or JS.truthy_num (unitPrice old) 0%float in
            setTotal (quantity_ * unitPrice_)%float item
        | SetUnitPrice value =>
            let quantity_ := JS.or JS.truthy_num (quantity old) 1%float in
            let unitPrice_ := value in
            setTotal (quantity_ * unitPrice_)%float item
        | _ => item
        end in
      Some (setItems (<[index := item]> (items formData)) formData)
  end.

(** The Total cell of a row, before [toFixed(2)]. *)
Definition renderedItemTotal (item : Item) : float :=
  (quantity item * unitPrice item)%float.

(** The Subtotal and Total lines, before [toFixed(2)]. *)
Definition renderedSubtotal (formData : FormData) : float :=
  fold_left (fun sum item => (sum + quantity item * unitPrice item)%float)
    (items formData) 0%float.

Definition renderedGrandTotal (formData : FormData) : float :=
  fold_left (fun sum item => (sum + quantity item * unitPrice item)%float)
    (items formData) 0%float.

(** An item of externally supplied DO data, as [formatItems] reads it. *)
Record RawItem : Type := {
  raw_productName : option string;
  raw_quantity : jsval;
  raw_unit : option string;
  raw_unitPrice : jsval
}.

Section Coercions.

(** [Number(s)] on a string and on an object or array: the host's
    numeric-literal grammar and [ToPrimitive]. *)
Variable StringToNumber : string -> float.
Variable ObjectToNumber : json -> float.

(** [Number(v)] *)
Definition Number (v : jsval) : float :=
  match v with
  | None => JS.nan
  | Some JNull => 0%float
  | Some (JBool b) => if b then 1%float else 0%float
  | Some (JNum x) => x
  | Some (JStr s) => StringToNumber s
  | Some j => ObjectToNumber j
  end.

Definition formatItem (item : RawItem) : Item :=
  {| productName := default "" (or_str (raw_productName item) (Some ""));
     quantity := JS.or JS.truthy_num (Number (raw_quantity item)) 1%float;
     unit_ := default "" (or_str (raw_unit item) (Some "pcs"));
     unitPrice := JS.or JS.truthy_num (Number (raw_unitPrice item)) 0%float;
     total := (JS.or JS.truthy_num (Number (raw_quantity item)) 1%float
               * JS.or JS.truthy_num (Number (raw_unitPrice item)) 0%float)%float |}.

(** Ensure items array is properly formatted ([None]: a missing value or
    one that is not an array). *)
Definition formatItems (items_ : option (list RawItem)) : list Item :=
  match items_ with
  | None => [defaultItem]
  | Some l => map formatItem l
  end.

End Coercions.



End DOForm.

Module DeliveryOrderForm.

Record DOItem : Type := {
  item_id : string;
  productId : string;
  productName : string;
  description : string;
  quantity : float;
  unit_ : string;
  unitPrice : float;
  price : option float
}.

Record Supplier : Type := {
  supplier_name : string;
  supplier_address : string;
  supplier_contact : string;
  supplier_phone : string;
  supplier_email : string
}.

Record DOFormData : Type := {
  doNumber : string;
  poNumber : string;
  orderDate : string;
  deliveryDate : string;
  deliveryAddress : string;
  deliveryContact : string;
  deliveryPhone : string;
  paymentTerms : string;
  shippingMethod : string;
  notes : string;
  supplier : Supplier;
  items : list DOItem
}.

(** An item of [initialData.items], every field possibly missing. *)
Record InitialItem : Type := {
  init_id : option string;
  init_productId : option string;
  init_productName : option string;
  init_name : option string;
  init_description : option string;
  init_quantity : option float;
  init_unit : option string;
  init_unitPrice : option float;
  init_price : option float
}.

Record InitialData : Type := {
  init_supplier : option Supplier;
  init_items : option (list InitialItem);
  init_deliveryAddress : option string
}.

Definition truthy_opt_num (v : option float) : bool :=
  match v with
  | Some x => JS.truthy_num x
  | None => false
  end.

Definition or_num (a b : option float) : option float :=
  JS.or truthy_opt_num a b.

(** [c.toUpperCase()] on the ASCII letters an id is made of. *)
Definition upper (c : ascii) : ascii :=
  let n := Ascii.N_of_ascii c in
  if ((97 <=? n) && (n <=? 122))%N then Ascii.ascii_of_N (n - 32) else c.

Fixpoint toUpperCase (s : string) : string :=
  match s with
  | EmptyString => EmptyString
  | String c rest => String (upper c) (toUpperCase rest)
  end.

(** [`DO-${new Date().getTime().toString().slice(-6)}`] *)
Definition newDONumber (clock : Clock) : string :=
  "DO-" +:+ JSString.slice_last 6 (JSString.toString (now_ms clock)).

Definition newPONumber (poId : string) : string :=
  if JSString.truthy poId
  then "PO-" +:+ toUpperCase (JSString.slice_last 6 poId)
  else "".

Definition newItemId (clock : Clock) (k : nat) : string :=
  "item-" +:+ JSString.toString (now_ms clock) +:+ "-" +:+ random36 clock k.

Definition supplierField (s : option Supplier) (f : Supplier -> string) : string :=
  match s with
  | Some sup => if JSString.truthy (f sup) then f sup else ""
  | None => ""
  end.

Definition prefillItem (clock : Clock) (k : nat) (item : InitialItem) : DOItem :=
  {| item_id := default "" (or_str (init_id item) (Some (newItemId clock k)));
     productId := default "" (or_str (init_productId item) (Some ""));
     productName := default ""
       (or_str (or_str (init_productName item) (init_name item)) (Some ""));
     description := default "" (or_str (init_description item) (Some ""));
     quantity := default 1%float (or_num (init_quantity item) (Some 1%float));
     unit_ := default "" (or_str (init_unit item) (Some "pcs"));
     unitPrice := default 0%float
       (or_num (or_num (init_unitPrice item) (init_price item)) (Some 0%float));
     price := or_num (or_num (init_unitPrice item) (init_price item))
                (Some 0%float) |}.

(** The lazy initial state of the form: items pre-filled from the PO, or
    the error state when the PO brought none. *)
Definition initialForm (clock : Clock) (poId : string) (initialData : InitialData)
    : DOFormData :=
  match init_items initialData with
  | Some (i :: rest) =>
      {| doNumber := newDONumber clock;
         poNumber := newPONumber poId;
         orderDate := isoDate clock;
         deliveryDate := isoDatePlus7 clock;
         deliveryAddress :=
           default "" (or_str (init_deliveryAddress initialData) (Some ""));
         deliveryContact := "";
         deliveryPhone := "";
         paymentTerms := "Net 30";
         shippingMethod := "Standard";
         notes := "";
         supplier :=
           {| supplier_name := supplierField (init_supplier initialData) supplier_name;
              supplier_address := supplierField (init_supplier initialData) supplier_address;
              supplier_contact := supplierField (init_supplier initialData) supplier_contact;
              supplier_phone := supplierField (init_supplier initialData) supplier_phone;
              supplier_email := supplierField (init_supplier initialData) supplier_email |};
         items := imap (prefillItem clock) (i :: rest) |}
  | _ =>
      {| doNumber := newDONumber clock;
         poNumber := newPONumber poId;
         orderDate := isoDate clock;
         deliveryDate := isoDatePlus7 clock;
         deliveryAddress := "";
         deliveryContact := "";
         deliveryPhone := "";
         paymentTerms := "Net 30";
         shippingMethod := "Standard";
         notes := "No items found in the purchase order";
         supplier :=
           {| supplier_name := ""; supplier_address := ""; supplier_contact := "";
              supplier_phone := ""; supplier_email := "" |};
         items := [] |}
  end.

Definition setItems (v : list DOItem) (prev : DOFormData) : DOFormData :=
  {| doNumber := doNumber prev; poNumber := poNumber prev;
     orderDate := orderDate prev; deliveryDate := deliveryDate prev;
     deliveryAddress := deliveryAddress prev;
     deliveryContact := deliveryContact prev;
     deliveryPhone := deliveryPhone prev; paymentTerms := paymentTerms prev;
     shippingMethod := shippingMethod prev; notes := notes prev;
     supplier := supplier prev; items := v |}.

Definition addItem (clock : Clock) (prev : DOFormData) : DOFormData :=
  setItems (items prev ++
            [{| item_id := newItemId clock (length (items prev));
                productId := ""; productName := ""; description := "";
                quantity := 1%float; unit_ := "pcs"; unitPrice := 0%float;
                price := None |}]) prev.

Definition removeItem (index : nat) (formData : DOFormData) : DOFormData :=
  if length (items formData) <=? 1 then formData
  else
    let newItems := filter_index (fun i => negb (i =? index)) 0 (items formData) in
    setItems newItems formData.

End DeliveryOrderForm.

(** ** Fixtures *)

(** A browser that has stored nothing and sent nothing yet. *)
Definition freshWorld : Api.world :=
  {| Api.localStorage := ∅; Api.location_href := None; Api.dispatched := [] |}.

(** A network that is down. *)
Definition offline : Api.request -> option Api.response := fun _ => None.

(** ** Predicates of the statements *)

(** [clean pat u]: no occurrence of [pat] starts in a text put before
    [u] unless the text itself begins with one. *)
Definition clean (pat u : string) : Prop :=
  forall B, B <> EmptyString -> String.prefix pat B = false ->
            String.prefix pat (B +:+ u) = false.

(** The computation sends nothing over the network. *)
Definition silent {A} (m : M Api.world A) : Prop :=
  forall w, Api.dispatched (m w).2 = Api.dispatched w.

(** The computation sends exactly the request [rq]. *)
Definition sends {A} (rq : Api.request) (m : M Api.world A) : Prop :=
  forall w, Api.dispatched (m w).2 = Api.dispatched w ++ [rq].

(** A purchase order in a given state, for the examples. *)
Definition sampleOrder (st : string) (created : option bool) (doId_ : option string)
    : POManagementPage.PurchaseOrder :=
  {| POManagementPage.id := "po-0001";
     POManagementPage.date := "2024-01-10";
     POManagementPage.deliveryDate := "2024-01-17";
     POManagementPage.notes := None;
     POManagementPage.status := st;
     POManagementPage.doCreated := created;
     POManagementPage.doId := doId_;
     POManagementPage.invoiceUrl := None |}.



(** The first value of the chain that is truthy: neither missing nor the
    empty string. *)
Fixpoint first_truthy (chain : list (option string)) : option string :=
  match chain with
  | [] => None
  | v :: rest => if truthy_str v then v else first_truthy rest
  end.





(** A server that answers every request with [res]. *)
Definition always (res : Api.response) : Api.request -> option Api.response :=
  fun _ => Some res.

(** A 200 whose JSON body is [{ data: {} }]: no token in it. *)
Definition tokenlessLogin : Api.response :=
  {| Api.status := 200;
     Api.body := "{ data: {} }";
     Api.body_json := Some (JObj [("data", JObj [])]) |}.

(** Host built-ins that the examples never reach for. *)
Definition plainStringify : json -> string := fun _ => "[json]".
Definition plainString : json -> string := fun _ => "[value]".
Definition noTrim : string -> string := fun s => s.

(** [{ method: 'DELETE' }] *)
Definition deleteOptions : Api.RequestInit :=
  {| Api.method := Some "DELETE"; Api.headers := ∅; Api.init_body := None |}.

(** A 204 with nothing in its body. *)
Definition noContent : Api.response :=
  {| Api.status := 204; Api.body := ""; Api.body_json := None |}.

Definition sampleTask (tid oid st : string) : Task :=
  {| _id := tid; orderId := oid; purchaseOrderId := Some oid; poId := None;
     purchaseOrder_id := None; type := "Picking";
     assignedTo := AssigneeId "u-1"; details := "pick the items";
     task_status := st; deadline := "2024-02-01" |}.

(** The task page showing two tasks of one order. *)
Definition sampleTaskPage : TaskManagementPage.PageState :=
  {| TaskManagementPage.tasks :=
       [sampleTask "t-1" "po-0001" "Pending"; sampleTask "t-2" "po-0001" "Completed"];
     TaskManagementPage.orderTasks :=
       {[ "po-0001" := [sampleTask "t-1" "po-0001" "Pending";
                         sampleTask "t-2" "po-0001" "Completed"] ]};
     TaskManagementPage.toasts := [];
     TaskManagementPage.world := freshWorld |}.

(** 14 November 2023, 22:15:23.456 UTC. *)
Definition sampleClock : Clock :=
  {| now_ms := 1700000123456; fullYear := 2023; month := 10; day := 14;
     isoDate := "2023-11-14"; isoDatePlus7 := "2023-11-21";
     random36 := fun _ => "k3x9q2m1z" |}.

(** [m >>= f] on the optional form state. *)
Definition andThen {A B} (m : option A) (f : A -> option B) : option B :=
  match m with
  | Some a => f a
  | None => None
  end.

(** A fresh form whose only row gets the quantity 0 typed in, then the
    unit price 5. *)
Definition zeroQuantityThenPrice : option DOForm.FormData :=
  andThen (DOForm.handleItemChange 0 (DOForm.SetQuantity 0%float)
             (DOForm.initialForm sampleClock))
          (DOForm.handleItemChange 0 (DOForm.SetUnitPrice 5%float)).

(** The [k] low-order decimal digits of [n], zero-padded. *)
Fixpoint dec (k : nat) (n : N) : string :=
  match k with
  | O => ""
  | S k' => dec k' (n / 10)%N +:+ String (JSString.digit_char (n mod 10)%N) ""
  end.

(** Following the specification's words: [DO-{YYYYMMDD}-{last 6 digits of
    the epoch-milliseconds timestamp}]. *)
Definition datedDONumber (clock : Clock) : string :=
  "DO-" +:+ dec 4 (fullYear clock) +:+ dec 2 (month clock + 1) +:+ dec 2 (day clock)
  +:+ "-" +:+ dec 6 (now_ms clock).

(** A clock of the present era: a four-digit year, a month index and a
    day of the month as [Date] gives them, and a timestamp of six digits
    at least. *)
Definition plausible (clock : Clock) : Prop :=
  (1000 <= fullYear clock <= 9999)%N
  /\ (month clock <= 11)%N
  /\ (1 <= day clock <= 31)%N
  /\ (100000 <= now_ms clock)%N.

(** An [initialData] without items. *)
Definition noInitialData : DeliveryOrderForm.InitialData :=
  {| DeliveryOrderForm.init_supplier := None;
     DeliveryOrderForm.init_items := None;
     DeliveryOrderForm.init_deliveryAddress := None |}.

(** The request that [apiRequest] builds for a call, given the browser
    state it is made in. *)
Definition requestOf (VITE_API_URL : option string) (url : string)
    (options : Api.RequestInit) (w : Api.world) : Api.request :=
  {| Api.req_url := Api.finalUrl VITE_API_URL url;
     Api.req_method := Api.method options;
     Api.req_headers :=
       Api.requestHeaders (Api.localStorage w !! "token") url options;
     Api.req_body := Api.init_body options;
     Api.req_credentials :=
       if Api.isAuthEndpoint url then "same-origin" else "include" |}.

(** The computation writes nothing into [localStorage] and navigates
    nowhere but to the login page: the store is left as it was, or loses
    its token. *)
Definition gentle {A} (m : M Api.world A) : Prop :=
  forall w,
    (Api.localStorage (m w).2 = Api.localStorage w
     \/ Api.localStorage (m w).2 = delete "token" (Api.localStorage w))
    /\ (Api.location_href (m w).2 = Api.location_href w
        \/ Api.location_href (m w).2 = Some "/login").

(** [text ? JSON.parse(text) : {}]: the data of a response, [None] when
    the text is not empty and [JSON.parse] throws on it. *)
Definition bodyData (res : Api.response) : option json :=
  if JSString.truthy (Api.body res) then Api.body_json res else Some (JObj []).

(** A 401 with an empty body. *)
Definition unauthorized : Api.response :=
  {| Api.status := 401; Api.body := ""; Api.body_json := None |}.

(** A browser holding the token of a session. *)
Definition signedIn : Api.world :=
  {| Api.localStorage := {[ "token" := "tok-1" ]};
     Api.location_href := None;
     Api.dispatched := [] |}.

(** A 502 whose body is an HTML page. *)
Definition badGateway : Api.response :=
  {| Api.status := 502; Api.body := "<html>Bad Gateway</html>";
     Api.body_json := None |}.

(** A 200 whose body is [{ status: error, message: Out of stock }]. *)
Definition refusal : Api.response :=
  {| Api.status := 200; Api.body := "{ status: error, message: Out of stock }";
     Api.body_json := Some (JObj [("status", JStr "error");
                                  ("message", JStr "Out of stock")]) |}.

(** The request that [login] sends. *)
Definition loginRequest (VITE_API_URL : option string)
    (JSON_stringify : json -> string) (trim : string -> string)
    (email password : string) : Api.request :=
  {| Api.req_url := Api.BASE_URL VITE_API_URL +:+ "/login";
     Api.req_method := Some "POST";
     Api.req_headers := <["Content-Type" := "application/json"]>
                          (<["Accept" := "application/json"]> ∅);
     Api.req_body := Some (JSON_stringify
                             (JObj [("email", JStr (trim email));
                                    ("password", JStr password)]));
     Api.req_credentials := "include" |}.

(** A 200 whose body is [{ data: { token: tok-9, user: { name: Ann } } }]. *)
Definition goodLogin : Api.response :=
  {| Api.status := 200;
     Api.body := "{ data: { token: tok-9, user: { name: Ann } } }";
     Api.body_json :=
       Some (JObj [("data", JObj [("token", JStr "tok-9");
                                  ("user", JObj [("name", JStr "Ann")])])]) |}.

(** A 200 whose body is [{ data: { token: tok-9 } }]: a token, no user. *)
Definition tokenOnlyLogin : Api.response :=
  {| Api.status := 200;
     Api.body := "{ data: { token: tok-9 } }";
     Api.body_json := Some (JObj [("data", JObj [("token", JStr "tok-9")])]) |}.

(** A 401 whose body is [{ message: Wrong password }]. *)
Definition wrongPassword : Api.response :=
  {| Api.status := 401;
     Api.body := "{ message: Wrong password }";
     Api.body_json := Some (JObj [("message", JStr "Wrong password")]) |}.

(** From the state [w] the computation sends one request, with method
    [meth], to [url]. *)
Definition reaches {A} (m : M Api.world A) (w : Api.world) (url : string)
    (meth : option string) : Prop :=
  exists rq, Api.dispatched (m w).2 = Api.dispatched w ++ [rq]
             /\ Api.req_url rq = url /\ Api.req_method rq = meth.

(** The provider before its mount effect, in a browser [w]. *)
Definition mounting (w : Api.world) : AuthContext.AuthState :=
  {| AuthContext.user := None; AuthContext.loading := true;
     AuthContext.world := w |}.

(** ** The PO management page: loading and mutating orders *)

Module POManagementPageIO.

(** Group tasks by order ID, one step of the [forEach] of [fetchOrders].
    [tasksByOrder[orderId]] is the group stored under the id, or else
    what the object inherits under that name: then no array is made and
    [push] is not a function. *)
Definition groupStep (tasksByOrder : gmap string (list Task)) (task : Task)
    : error + gmap string (list Task) :=
  let orderId_ := orderId task in
  if JSString.truthy orderId_
  then match tasksByOrder !! orderId_ with
       | Some group => inr (<[orderId_ := group ++ [task]]> tasksByOrder)
       | None =>
           if inherited orderId_ then inl TypeError
           else inr (<[orderId_ := [task]]> tasksByOrder)
       end
  else inr tasksByOrder.

(** The grouping that [fetchOrders] hands to [setOrderTasks], or the
    error that takes it to its [catch] with nothing stored. *)
Definition groupTasks (tasksData : list Task) : error + gmap string (list Task) :=
  fold_throwing groupStep tasksData ∅.

(** The page with the browser around it: [refetches] counts the calls
    of [fetchOrders], [opened] lists what [window.open] was given. *)
Record IOState : Type := {
  page : POManagementPage.PageState;
  world : Api.world;
  refetches : nat;
  opened : list json
}.

Definition onPage (f : POManagementPage.PageState -> POManagementPage.PageState)
    (s : IOState) : IOState :=
  {| page := f (page s); world := world s;
     refetches := refetches s; opened := opened s |}.

Definition liftWorld {A} (m : M Api.world A) : M IOState A :=
  fun s => let '(r, w) := m (world s) in
           (r, {| page := page s; world := w;
                  refetches := refetches s; opened := opened s |}).

(** The call [fetchOrders()], whose promise nobody awaits: the call is
    counted, what it fetches is not followed. *)
Definition fetchOrders : M IOState unit :=
  modify (fun s => {| page := page s; world := world s;
                      refetches := S (refetches s); opened := opened s |}).

Definition window_open (u : json) : M IOState unit :=
  modify (fun s => {| page := page s; world := world s;
                      refetches := refetches s; opened := opened s ++ [u] |}).

Definition toast_ (t : toast) : M IOState unit :=
  modify (onPage (POManagementPage.addToast t)).

Definition PATCH (body_ : option string) : Api.RequestInit :=
  {| Api.method := Some "PATCH"; Api.headers := ∅; Api.init_body := body_ |}.

Section WithEnvironment.

Variable VITE_API_URL : option string.
Variable server : Api.request -> option Api.response.
Variable JSON_stringify : json -> string.
(** [String(v)] on a value that is not a string, and the message an
    engine gives to the errors it throws itself. *)
Variable String_of : json -> string.
Variable engineMessage : error -> string.

(** [error.message]: the [Error] constructor has turned what it was
    given into a string. *)
Definition messageOf (e : error) : string :=
  match e with
  | ApiError _ (Some m) _ => Api.String_ String_of m
  | ApiError _ None _ => ""
  | Error m => m
  | other => engineMessage other
  end.

(** [error.response] when it is there, truthy and an object: neither
    the errors that [apiRequest] throws nor those of the engine have
    such a member. *)
Definition response_of (e : error) : jsval := None.

(** Helper function to show API errors. *)
Definition showApiError (e : error) (fallback : string) : M IOState unit :=
  let errorMessage :=
    match response_of e with
    | Some response_ =>
        (* Handle Axios error format *)
        let message_ := JS.opt_get (JS.opt_get (Some response_) "data") "message" in
        match message_ with
        | Some m => if JS.truthy message_ then Api.String_ String_of m else fallback
        | None => fallback
        end
    | None =>
        (* Handle standard Error objects, whose message is a string *)
        messageOf e
    end in
  toast_ (toast_error errorMessage).

Definition handleApprove (id : string) : M IOState unit :=
  try_catch
    (run liftWorld (Api.apiRequest VITE_API_URL server
                      ("/api/purchase-orders/" +:+ id +:+ "/approve") (PATCH None));
     run toast_ (toast_success "PO approved");
     fetchOrders)
    (fun err => showApiError err "Failed to approve PO").

Definition handleAdvance (id next : string) : M IOState unit :=
  try_catch
    (run liftWorld (Api.apiRequest VITE_API_URL server
                      ("/api/purchase-orders/" +:+ id +:+ "/advance")
                      (PATCH (Some (JSON_stringify (JObj [("next", JStr next)])))));
     run toast_ (toast_success "PO status updated");
     fetchOrders)
    (fun err => showApiError err "Failed to advance PO status").

(** [confirmed] is the answer to the [confirm] dialog. *)
Definition handleComplete (confirmed : bool) (id : string) : M IOState unit :=
  if negb confirmed then ret tt
  else
    try_catch
      (run liftWorld (Api.apiRequest VITE_API_URL server
                        ("/api/purchase-orders/" +:+ id +:+ "/complete") (PATCH None));
       run toast_ (toast_success "Order marked as completed");
       fetchOrders)
      (fun err => showApiError err "Failed to complete order").

Definition handleGenerateInvoice (id : string) : M IOState unit :=
  try_catch
    (do res <- liftWorld (Api.apiRequest VITE_API_URL server
                            ("/api/purchase-orders/" +:+ id +:+ "/invoice")
                            (PATCH None));
     run toast_ (toast_success "Invoice generated");
     run fetchOrders;
     do invoiceUrl_ <- of_get (JS.get res "invoiceUrl");
     match invoiceUrl_ with
     | Some u => if JS.truthy invoiceUrl_ then window_open u else ret tt
     | None => ret tt
     end)
    (fun err => showApiError err "Failed to generate invoice").

Definition handleCancel (confirmed : bool) (id : string) : M IOState unit :=
  if negb confirmed then ret tt
  else
    try_catch
      (run liftWorld (Api.apiRequest VITE_API_URL server
                        ("/api/purchase-orders/" +:+ id)
                        {| Api.method := Some "DELETE"; Api.headers := ∅;
                           Api.init_body := None |});
       run toast_ (toast_success "Order deleted successfully");
       fetchOrders)
      (fun err => showApiError err "Failed to delete order").

End WithEnvironment.

End POManagementPageIO.

(** How a handler of the PO page that makes the call [call] leaves the
    page: it never rejects; the browser is where the call left it; a
    call that resolved gave the success toast [okMsg], one more
    [fetchOrders] and the windows [opens]; a call that rejected gave an
    error toast with the message of the error and nothing else. *)
Definition settles (String_of : json -> string) (engineMessage : error -> string)
    (call : M Api.world jsval) (okMsg : string) (opens : jsval -> list json)
    (h : M POManagementPageIO.IOState unit) (s : POManagementPageIO.IOState) : Prop :=
  (h s).1 = inr tt
  /\ POManagementPageIO.world (h s).2 = (call (POManagementPageIO.world s)).2
  /\ match (call (POManagementPageIO.world s)).1 with
     | inr res =>
         POManagementPageIO.page (h s).2
         = POManagementPage.addToast (toast_success okMsg) (POManagementPageIO.page s)
         /\ POManagementPageIO.refetches (h s).2 = S (POManagementPageIO.refetches s)
         /\ POManagementPageIO.opened (h s).2 = POManagementPageIO.opened s ++ opens res
     | inl e =>
         POManagementPageIO.page (h s).2
         = POManagementPage.addToast
             (toast_error (POManagementPageIO.messageOf String_of engineMessage e))
             (POManagementPageIO.page s)
         /\ POManagementPageIO.refetches (h s).2 = POManagementPageIO.refetches s
         /\ POManagementPageIO.opened (h s).2 = POManagementPageIO.opened s
     end.

(** [res.invoiceUrl] when it is truthy. *)
Definition invoiceWindow (res : jsval) : list json :=
  match JS.opt_get res "invoiceUrl" with
  | Some u => if JS.truthy (Some u) then [u] else []
  | None => []
  end.

(** ** Submitting the form prefilled from a purchase order *)

Module DeliveryOrderFormIO.

(** The state around the form: its own [isSubmitting] and [error], the
    toaster, the router, the calls of the [onSubmit] prop and the
    browser. *)
Record FormState : Type := {
  isSubmitting : bool;
  error_ : option string;
  toasts : list toast;
  navigated : list string;
  submitted : list jsval;
  world : Api.world
}.

Definition setIsSubmitting (b : bool) (s : FormState) : FormState :=
  {| isSubmitting := b; error_ := error_ s; toasts := toasts s;
     navigated := navigated s; submitted := submitted s; world := world s |}.

Definition setError (v : option string) (s : FormState) : FormState :=
  {| isSubmitting := isSubmitting s; error_ := v; toasts := toasts s;
     navigated := navigated s; submitted := submitted s; world := world s |}.

Definition addToast (t : toast) (s : FormState) : FormState :=
  {| isSubmitting := isSubmitting s; error_ := error_ s; toasts := toasts s ++ [t];
     navigated := navigated s; submitted := submitted s; world := world s |}.

Definition navigate (u : string) (s : FormState) : FormState :=
  {| isSubmitting := isSubmitting s; error_ := error_ s; toasts := toasts s;
     navigated := navigated s ++ [u]; submitted := submitted s; world := world s |}.

Definition onSubmit (d : jsval) (s : FormState) : FormState :=
  {| isSubmitting := isSubmitting s; error_ := error_ s; toasts := toasts s;
     navigated := navigated s; submitted := submitted s ++ [d]; world := world s |}.

Definition liftWorld {A} (m : M Api.world A) : M FormState A :=
  fun s => let '(r, w) := m (world s) in
           (r, {| isSubmitting := isSubmitting s; error_ := error_ s;
                  toasts := toasts s; navigated := navigated s;
                  submitted := submitted s; world := w |}).

Section WithEnvironment.

Variable VITE_API_URL : option string.
Variable server : Api.request -> option Api.response.
Variable String_of : json -> string.
Variable engineMessage : error -> string.

(** [handleSubmit]. The data to send is handed over as [data], a member
    that [apiRequest] passes on and [fetch] does not read: the request
    has no body. [hasOnSubmit] tells whether the [onSubmit] prop is
    there. *)
Definition handleSubmit (hasOnSubmit : bool)
    (formData : DeliveryOrderForm.DOFormData) : M FormState unit :=
  run modify (setIsSubmitting true);
  run modify (setError None);
  AuthContext.finally
    (try_catch
       (run (if negb (JSString.truthy (DeliveryOrderForm.deliveryAddress formData))
             then throw (Error "Delivery address is required")
             else ret tt);
        do response <- liftWorld
             (Api.apiRequest VITE_API_URL server "/api/delivery-orders"
                {| Api.method := Some "POST"; Api.headers := ∅;
                   Api.init_body := None |});
        run modify (addToast (toast_success "Delivery order created successfully"));
        if hasOnSubmit then
          do d <- of_get (JS.get response "data");
          modify (onSubmit d)
        else modify (navigate "/delivery-orders"))
       (fun err =>
          run modify (setError
                (Some (POManagementPageIO.messageOf String_of engineMessage err)));
          modify (addToast (toast_error "Failed to create delivery order"))))
    (setIsSubmitting false).

End WithEnvironment.

End DeliveryOrderFormIO.






(** ** Mounting the DO form *)

Module DOFormMount.

(** The members of [doData] that [loadDO] reads, each possibly
    missing. *)
Record DOInfo : Type := {
  info_doNumber : option string;
  info_doDate : option string;
  info_createdAt : option string;
  info_supplierName : option string;
  info_supplierNumber : option string;
  info_supplierAddress : option string;
  info_deliveryAddress : option string;
  info_deliveryDate : option string;
  info_expectedDeliveryDate : option string;
  info_notes : option string;
  info_terms : option string;
  info_paymentTerms : option string;
  info_shippingMethod : option string;
  info_items : option (list DOForm.RawItem);
  info_totalAmount : option float
}.

(** [s.split('T')[0]] *)
Fixpoint beforeT (s : string) : string :=
  match s with
  | EmptyString => EmptyString
  | String c rest => if Ascii.eqb c "T" then EmptyString else String c (beforeT rest)
  end.

Section WithEnvironment.

Variable clock : Clock.
(** [new Date(s).toISOString()], [None] when the date is invalid. *)
Variable Date_toISOString : string -> option string.
Variable StringToNumber : string -> float.
Variable ObjectToNumber : json -> float.

(** Format dates if they exist. *)
Definition formatDate (dateString : option string) : string :=
  if negb (truthy_str dateString) then isoDate clock
  else
    match dateString with
    | Some s =>
        (* Handle both ISO strings and YYYY-MM-DD formats *)
        match Date_toISOString s with
        | None => beforeT s
        | Some formatted => beforeT formatted
        end
    | None => isoDate clock
    end.

(** [{ ...prev, ...newFormData }], where [newFormData] has every member
    of the form. *)
Definition loadDO (doInfo : DOInfo) (prev : DOForm.FormData) : DOForm.FormData :=
  {| DOForm.doNumber :=
       default "" (or_str (info_doNumber doInfo)
                     (Some ("DO-" +:+ JSString.slice_last 6
                                        (JSString.toString (now_ms clock)))));
     DOForm.doDate := formatDate (or_str (info_doDate doInfo) (info_createdAt doInfo));
     DOForm.supplierName := default "" (or_str (info_supplierName doInfo) (Some ""));
     DOForm.supplierNumber := default "" (or_str (info_supplierNumber doInfo) (Some ""));
     DOForm.supplierAddress := default "" (or_str (info_supplierAddress doInfo) (Some ""));
     DOForm.deliveryAddress := default "" (or_str (info_deliveryAddress doInfo) (Some ""));
     DOForm.deliveryDate :=
       formatDate (or_str (info_deliveryDate doInfo) (info_expectedDeliveryDate doInfo));
     DOForm.notes := default "" (or_str (info_notes doInfo) (Some ""));
     DOForm.terms :=
       default "" (or_str (or_str (info_terms doInfo) (info_paymentTerms doInfo))
                     (Some "Net 30"));
     DOForm.paymentTerms := default "" (or_str (info_paymentTerms doInfo) (Some "Net 30"));
     DOForm.shippingMethod :=
       default "" (or_str (info_shippingMethod doInfo) (Some "Standard"));
     DOForm.items := DOForm.formatItems StringToNumber ObjectToNumber (info_items doInfo);
     DOForm.totalAmount :=
       default 0%float (DeliveryOrderForm.or_num (info_totalAmount doInfo) (Some 0%float)) |}.

(** The two mount effects, in the order they are declared: load the DO
    or reset the form, then generate the DO number. *)
Definition mount (doData : option DOInfo) : DOForm.FormData :=
  let loaded :=
    match doData with
    | Some doInfo => loadDO doInfo (DOForm.initialForm clock)
    | None => DOForm.initialForm clock
    end in
  DOForm.generateDONumber clock loaded.

End WithEnvironment.

End DOFormMount.

(** The path of a request URL: what comes before [?] or [#]. *)
Fixpoint pathOf (url : string) : string :=
  match url with
  | EmptyString => EmptyString
  | String c rest =>
      if Ascii.eqb c "?" || Ascii.eqb c "#" then EmptyString
      else String c (pathOf rest)
  end.

(** Following the specification's words: a request URL whose path is a
    singular endpoint, or begins with one followed by [/], is dispatched
    with the plural endpoint in its place. *)
Definition dispatched_plural (VITE_API_URL : option string) (url : string) : Prop :=
  forall singular plural,
    (singular, plural) ∈ Api.ENDPOINT_MAP ->
    pathOf url = singular \/ JSString.startsWith (pathOf url) (singular +:+ "/") = true ->
    Api.finalUrl VITE_API_URL url
    = Api.BASE_URL VITE_API_URL +:+ plural
        +:+ JSString.drop (String.length singular) url.

(** A 500 whose body is [{ message: Task is locked }]. *)
Definition serverError : Api.response :=
  {| Api.status := 500; Api.body := "{ message: Task is locked }";
     Api.body_json := Some (JObj [("message", JStr "Task is locked")]) |}.

(** * Properties *)

(** ** Strings *)

Lemma truthy_nonempty (s : string) : JSString.truthy s = true <-> s ≠ "".
Proof. unfold JSString.truthy. rewrite negb_true_iff. apply String.eqb_neq. Qed.

Lemma append_nil (t : string) : "" +:+ t = t.
Proof. reflexivity. Qed.

Lemma append_cons (a : ascii) (s t : string) :
  String a s +:+ t = String a (s +:+ t).
Proof. reflexivity. Qed.

Lemma prefix_nil_l (s : string) : String.prefix "" s = true.
Proof. destruct s; reflexivity. Qed.

Lemma prefix_nil_r (a : ascii) (s : string) :
  String.prefix (String a s) "" = false.
Proof. reflexivity. Qed.

Lemma prefix_cons (a b : ascii) (s1 s2 : string) :
  String.prefix (String a s1) (String b s2)
  = if Ascii.eqb a b then String.prefix s1 s2 else false.
Proof.
  change (String.prefix (String a s1) (String b s2))
    with (if ascii_dec a b then String.prefix s1 s2 else false).
  destruct (ascii_dec a b) as [->|Hne].
  - now rewrite Ascii.eqb_refl.
  - apply Ascii.eqb_neq in Hne. now rewrite Hne.
Qed.

Lemma eqb_cons (a b : ascii) (s1 s2 : string) :
  String.eqb (String a s1) (String b s2)
  = if Ascii.eqb a b then String.eqb s1 s2 else false.
Proof. reflexivity. Qed.

Create Rewrite HintDb jsstr.
#[local] Hint Rewrite append_nil append_cons prefix_nil_l prefix_nil_r
  prefix_cons eqb_cons : jsstr.

Ltac case_ascii :=
  repeat match goal with
         | |- context [Ascii.eqb ?a ?b] =>
             destruct (Ascii.eqb_spec a b); subst
         | H : context [Ascii.eqb ?a ?b] |- _ =>
             destruct (Ascii.eqb_spec a b); subst
         end.

Lemma prefix_app_same (a b c : string) :
  String.prefix (a +:+ b) (a +:+ c) = String.prefix b c.
Proof.
  induction a as [|x a IH]; autorewrite with jsstr; [reflexivity|].
  now rewrite Ascii.eqb_refl.
Qed.

Lemma prefix_app_self (s rest : string) : String.prefix s (s +:+ rest) = true.
Proof.
  induction s as [|x s IH]; autorewrite with jsstr; [reflexivity|].
  now rewrite Ascii.eqb_refl.
Qed.

Lemma eqb_app_same (a b c : string) :
  String.eqb (a +:+ b) (a +:+ c) = String.eqb b c.
Proof.
  induction a as [|x a IH]; autorewrite with jsstr; [reflexivity|].
  now rewrite Ascii.eqb_refl.
Qed.

Lemma eqb_app_nil (s rest : string) :
  String.eqb (s +:+ rest) s = String.eqb rest "".
Proof.
  induction s as [|x s IH]; autorewrite with jsstr.
  - now destruct rest.
  - now rewrite Ascii.eqb_refl.
Qed.

Lemma append_assoc (a b c : string) : (a +:+ b) +:+ c = a +:+ b +:+ c.
Proof.
  induction a as [|x a IH]; autorewrite with jsstr; [reflexivity|].
  now rewrite IH.
Qed.

Lemma length_append (a b : string) :
  String.length (a +:+ b) = String.length a + String.length b.
Proof.
  induction a as [|x a IH]; autorewrite with jsstr; [reflexivity|].
  cbn. now rewrite IH.
Qed.

Lemma drop_app_length (a b : string) :
  JSString.drop (String.length a) (a +:+ b) = b.
Proof.
  induction a as [|x a IH]; autorewrite with jsstr; [now destruct b|exact IH].
Qed.

Lemma replace_unfold (s pat rep : string) :
  JSString.replace s pat rep
  = if String.prefix pat s then rep +:+ JSString.drop (String.length pat) s
    else match s with
         | EmptyString => EmptyString
         | String c s' => String c (JSString.replace s' pat rep)
         end.
Proof. destruct s; reflexivity. Qed.

Lemma replace_prefix (pat rest rep : string) :
  JSString.replace (pat +:+ rest) pat rep = rep +:+ rest.
Proof.
  rewrite replace_unfold, prefix_app_self, drop_app_length. reflexivity.
Qed.

Lemma includes_cons_false (c : ascii) (s p : string) :
  JSString.includes (String c s) p = false ->
  String.prefix p (String c s) = false /\ JSString.includes s p = false.
Proof.
  change (JSString.includes (String c s) p)
    with (if String.prefix p (String c s) then true else JSString.includes s p).
  destruct (String.prefix p (String c s)); [discriminate|tauto].
Qed.

(** The first occurrence of [pat] in [B +:+ u] lies in [u] when [B] holds
    none and none straddles the seam. *)
Lemma replace_after_base (B u pat rep : string) :
  JSString.includes B pat = false ->
  clean pat u ->
  JSString.replace (B +:+ u) pat rep = B +:+ JSString.replace u pat rep.
Proof.
  intros HB Hc. induction B as [|c B IH]; [reflexivity|].
  apply includes_cons_false in HB as [Hp HB].
  rewrite replace_unfold, Hc by (congruence || assumption).
  rewrite append_cons, IH by assumption. reflexivity.
Qed.

(** The endpoints of the map are short, so a pattern that straddles the
    seam is found by walking the first thirteen characters of the text. *)
Ltac clean_tac :=
  let B := fresh "B" in
  intros B ? ?;
  do 13 (destruct B as [|? B];
         [autorewrite with jsstr in *; case_ascii;
          try reflexivity; try discriminate; try congruence|]);
  autorewrite with jsstr in *; case_ascii;
  try reflexivity; try discriminate; try congruence.

Lemma clean_order (rest : string) : clean "/api/order" ("/api/order" +:+ rest).
Proof. clean_tac. Qed.

Lemma clean_user (rest : string) : clean "/api/user" ("/api/user" +:+ rest).
Proof. clean_tac. Qed.

Lemma clean_product (rest : string) :
  clean "/api/product" ("/api/product" +:+ rest).
Proof. clean_tac. Qed.

Lemma clean_customer (rest : string) :
  clean "/api/customer" ("/api/customer" +:+ rest).
Proof. clean_tac. Qed.

Lemma clean_task (rest : string) : clean "/api/task" ("/api/task" +:+ rest).
Proof. clean_tac. Qed.

(** *** What a call leaves in the request log *)

Section RequestLog.

Import Api.

Lemma silent_ret {A} (a : A) : silent (ret a).
Proof. intros w. reflexivity. Qed.

Lemma silent_throw {A} (e : error) : silent (@throw world A e).
Proof. intros w. reflexivity. Qed.

Lemma silent_gets {A} (f : world -> A) : silent (gets f).
Proof. intros w. reflexivity. Qed.

Lemma silent_of_get (r : option jsval) : silent (of_get r).
Proof. destruct r; intros w; reflexivity. Qed.

Lemma silent_modify (f : world -> world) :
  (forall w, dispatched (f w) = dispatched w) -> silent (modify f).
Proof. intros Hf w. apply Hf. Qed.

Lemma silent_bind {A B} (m : M world A) (k : A -> M world B) :
  silent m -> (forall a, silent (k a)) -> silent (bind m k).
Proof.
  intros Hm Hk w. unfold bind. specialize (Hm w).
  destruct (m w) as [[e|a] w1]; cbn in *; [exact Hm|].
  now rewrite Hk.
Qed.

Lemma silent_try_catch {A} (m : M world A) (h : error -> M world A) :
  silent m -> (forall e, silent (h e)) -> silent (try_catch m h).
Proof.
  intros Hm Hh w. unfold try_catch. specialize (Hm w).
  destruct (m w) as [[e|a] w1]; cbn in *; [|exact Hm].
  now rewrite Hh.
Qed.

Lemma sends_fetch_bind {B} (server : request -> option response)
    (rq : request) (k : response -> M world B) :
  (forall res, silent (k res)) -> sends rq (bind (fetch server rq) k).
Proof.
  intros Hk w. unfold bind, fetch.
  destruct (server rq) as [res|]; [|reflexivity].
  now rewrite Hk.
Qed.

Lemma sends_try_catch {A} (rq : request) (m : M world A) (h : error -> M world A) :
  sends rq m -> (forall e, silent (h e)) -> sends rq (try_catch m h).
Proof.
  intros Hm Hh w. unfold try_catch. specialize (Hm w).
  destruct (m w) as [[e|a] w1]; cbn in *; [|exact Hm].
  now rewrite Hh.
Qed.

Lemma bind_gets {S A B} (f : S -> A) (k : A -> M S B) (s : S) :
  bind (gets f) k s = k (f s) s.
Proof. reflexivity. Qed.

End RequestLog.

Ltac silent_tac :=
  repeat first
    [ apply silent_ret | apply silent_throw | apply silent_gets
    | apply silent_of_get
    | apply silent_modify; intros; reflexivity
    | apply silent_bind; [|intros]
    | apply silent_try_catch; [|intros]
    | case_match ].

(** ** The HTTP helper *)

Section ApiFacts.

Import Api.

Variable VITE_API_URL : option string.
Variable server : request -> option response.

Local Abbreviation BASE := (BASE_URL VITE_API_URL).

(** One round leaves alone a URL that is neither the singular endpoint
    nor under it. *)
Lemma rewriteEndpoint_skip (u singular plural : string) :
  String.eqb u singular = false ->
  String.prefix (singular +:+ "/") u = false ->
  rewriteEndpoint VITE_API_URL (BASE +:+ u) (singular, plural) = BASE +:+ u.
Proof.
  intros He Hp. unfold rewriteEndpoint, JSString.startsWith.
  now rewrite eqb_app_same, prefix_app_same, He, Hp.
Qed.

(** One round rewrites the singular endpoint, and what lies under it. *)
Lemma rewriteEndpoint_hit (singular plural rest : string) :
  JSString.includes BASE singular = false ->
  clean singular (singular +:+ rest) ->
  String.eqb rest "" || String.prefix "/" rest = true ->
  rewriteEndpoint VITE_API_URL (BASE +:+ singular +:+ rest) (singular, plural)
  = BASE +:+ plural +:+ rest.
Proof.
  intros HB Hc Hcond. unfold rewriteEndpoint, JSString.startsWith.
  rewrite eqb_app_same, prefix_app_same, eqb_app_nil, prefix_app_same, Hcond.
  rewrite replace_after_base by assumption.
  now rewrite replace_prefix.
Qed.

Lemma finalUrl_unfold (url : string) :
  finalUrl VITE_API_URL (String "/" url) =
  rewriteEndpoint VITE_API_URL
    (rewriteEndpoint VITE_API_URL
      (rewriteEndpoint VITE_API_URL
        (rewriteEndpoint VITE_API_URL
          (rewriteEndpoint VITE_API_URL (BASE +:+ String "/" url)
             ("/api/order", "/api/orders"))
          ("/api/user", "/api/users"))
        ("/api/product", "/api/products"))
      ("/api/customer", "/api/customers"))
    ("/api/task", "/api/tasks").
Proof.
  unfold finalUrl, joinBase, JSString.startsWith.
  rewrite !prefix_cons, prefix_nil_l. reflexivity.
Qed.

Lemma rest_cond (rest : string) :
  rest = "" \/ String.prefix "/" rest = true ->
  String.eqb rest "" || String.prefix "/" rest = true.
Proof. intros [->| ->]; [reflexivity|apply orb_true_r]. Qed.

Ltac skip_round :=
  match goal with
  | |- context [rewriteEndpoint _ (_ +:+ ?u) (?s, ?p)] =>
      rewrite (rewriteEndpoint_skip u s p) by reflexivity
  end.

Ltac hit_round HB Hc Hrest :=
  match goal with
  | |- context [rewriteEndpoint _ (_ +:+ ?s +:+ ?rest) (?s, ?p)] =>
      rewrite (rewriteEndpoint_hit s p rest HB (Hc rest) Hrest)
  end.

Lemma finalUrl_singular (singular plural rest : string) :
  (singular, plural) ∈ ENDPOINT_MAP ->
  JSString.includes BASE singular = false ->
  rest = "" \/ String.prefix "/" rest = true ->
  finalUrl VITE_API_URL (singular +:+ rest) = BASE +:+ plural +:+ rest.
Proof.
  intros Hin HB Hrest. apply rest_cond in Hrest.
  unfold ENDPOINT_MAP in Hin.
  repeat (apply elem_of_cons in Hin as [Hin|Hin]; [injection Hin as -> ->|]);
    [| | | | |now apply elem_of_nil in Hin].
  - change ("/api/order" +:+ rest) with (String "/" ("api/order" +:+ rest)).
    rewrite finalUrl_unfold.
    change (String "/" ("api/order" +:+ rest)) with ("/api/order" +:+ rest).
    hit_round HB clean_order Hrest. now repeat skip_round.
  - change ("/api/user" +:+ rest) with (String "/" ("api/user" +:+ rest)).
    rewrite finalUrl_unfold. skip_round.
    change (String "/" ("api/user" +:+ rest)) with ("/api/user" +:+ rest).
    hit_round HB clean_user Hrest. now repeat skip_round.
  - change ("/api/product" +:+ rest) with (String "/" ("api/product" +:+ rest)).
    rewrite finalUrl_unfold. do 2 skip_round.
    change (String "/" ("api/product" +:+ rest)) with ("/api/product" +:+ rest).
    hit_round HB clean_product Hrest. now repeat skip_round.
  - change ("/api/customer" +:+ rest) with (String "/" ("api/customer" +:+ rest)).
    rewrite finalUrl_unfold. do 3 skip_round.
    change (String "/" ("api/customer" +:+ rest)) with ("/api/customer" +:+ rest).
    hit_round HB clean_customer Hrest. now repeat skip_round.
  - change ("/api/task" +:+ rest) with (String "/" ("api/task" +:+ rest)).
    rewrite finalUrl_unfold. do 4 skip_round.
    change (String "/" ("api/task" +:+ rest)) with ("/api/task" +:+ rest).
    now hit_round HB clean_task Hrest.
Qed.

Lemma finalUrl_plural (singular plural rest : string) :
  (singular, plural) ∈ ENDPOINT_MAP ->
  finalUrl VITE_API_URL (plural +:+ rest) = BASE +:+ plural +:+ rest.
Proof.
  intros Hin. unfold ENDPOINT_MAP in Hin.
  repeat (apply elem_of_cons in Hin as [Hin|Hin]; [injection Hin as -> ->|]);
    [| | | | |now apply elem_of_nil in Hin].
  - change ("/api/orders" +:+ rest) with (String "/" ("api/orders" +:+ rest)).
    rewrite finalUrl_unfold. now repeat skip_round.
  - change ("/api/users" +:+ rest) with (String "/" ("api/users" +:+ rest)).
    rewrite finalUrl_unfold. now repeat skip_round.
  - change ("/api/products" +:+ rest) with (String "/" ("api/products" +:+ rest)).
    rewrite finalUrl_unfold. now repeat skip_round.
  - change ("/api/customers" +:+ rest) with (String "/" ("api/customers" +:+ rest)).
    rewrite finalUrl_unfold. now repeat skip_round.
  - change ("/api/tasks" +:+ rest) with (String "/" ("api/tasks" +:+ rest)).
    rewrite finalUrl_unfold. now repeat skip_round.
Qed.

(** Every call dispatches exactly one request, to the rewritten URL. *)
Lemma parseBody_silent (options : RequestInit) (res : response) :
  silent (parseBody options res).
Proof. unfold parseBody. silent_tac. Qed.

Lemma apiRequest_dispatches (url : string) (options : RequestInit) (w : world) :
  exists r,
    dispatched (apiRequest VITE_API_URL server url options w).2 = dispatched w ++ [r]
    /\ req_url r = finalUrl VITE_API_URL url
    /\ req_method r = method options.
Proof.
  unfold apiRequest. rewrite bind_gets.
  eexists. split.
  - apply sends_try_catch; [|intros; apply silent_throw].
    apply sends_fetch_bind. intros res.
    apply silent_bind; [apply parseBody_silent|intros data].
    silent_tac.
  - split; reflexivity.
Qed.

(** C9, as the code has it. A request whose URL is a singular endpoint
    of the map ([/api/order], [/api/user], [/api/product],
    [/api/customer], [/api/task]), or begins with it followed by [/], is
    dispatched to the plural endpoint, provided the base URL does not
    itself hold the singular path; a request to a plural endpoint, or to
    anything that begins with it, is dispatched as it is. *)
Theorem singular_endpoints_dispatched_plural
    (singular plural rest : string) (options : RequestInit) (w : world) :
  (singular, plural) ∈ ENDPOINT_MAP ->
  JSString.includes BASE singular = false ->
  rest = "" \/ JSString.startsWith rest "/" = true ->
  (exists r,
     dispatched (apiRequest VITE_API_URL server (singular +:+ rest) options w).2
       = dispatched w ++ [r]
     /\ req_url r = BASE +:+ plural +:+ rest)
  /\ (forall tail, exists r,
        dispatched (apiRequest VITE_API_URL server (plural +:+ tail) options w).2
          = dispatched w ++ [r]
        /\ req_url r = BASE +:+ plural +:+ tail).
Proof.
  intros Hin HB Hrest. split.
  - destruct (apiRequest_dispatches (singular +:+ rest) options w)
      as (r & Hd & Hu & _).
    exists r. split; [exact Hd|].
    rewrite Hu. now apply finalUrl_singular.
  - intros tail.
    destruct (apiRequest_dispatches (plural +:+ tail) options w)
      as (r & Hd & Hu & _).
    exists r. split; [exact Hd|].
    rewrite Hu. now apply (finalUrl_plural singular).
Qed.

End ApiFacts.

Lemma singular_endpoints_dispatched_plural_witness :
  exists r,
    Api.dispatched
      (Api.apiRequest None offline ("/api/order" +:+ "/123") Api.no_options
         freshWorld).2 = Api.dispatched freshWorld ++ [r]
    /\ Api.req_url r = Api.BASE_URL None +:+ "/api/orders" +:+ "/123".
Proof.
  refine (proj1 (singular_endpoints_dispatched_plural None offline
           "/api/order" "/api/orders" "/123" Api.no_options freshWorld _ _ _)).
  - apply list_elem_of_here.
  - reflexivity.
  - right. reflexivity.
Defined.

(** C9, as stated, fails. The test is made on the whole URL, so a query
    string right after the singular endpoint leaves the URL as it is,
    although its path is exactly the endpoint; and [replace] rewrites
    the first occurrence in the whole URL, so with a base URL that holds
    the singular path it is the base that is rewritten. *)
Lemma singular_path_is_not_always_rewritten :
  ~ dispatched_plural None "/api/task?x=1"
  /\ Api.finalUrl None "/api/task?x=1" = "http://localhost:8080/api/task?x=1"
  /\ ~ dispatched_plural (Some "http://h.test/api/task") "/api/task/1"
  /\ Api.finalUrl (Some "http://h.test/api/task") "/api/task/1"
     = "http://h.test/api/tasks/api/task/1".
Proof.
  assert (Hin : ("/api/task", "/api/tasks") ∈ Api.ENDPOINT_MAP).
  { unfold Api.ENDPOINT_MAP. do 4 apply list_elem_of_further. apply list_elem_of_here. }
  split_and!.
  - intros H. specialize (H "/api/task" "/api/tasks" Hin (or_introl eq_refl)).
    vm_compute in H. discriminate H.
  - vm_compute. reflexivity.
  - intros H. specialize (H "/api/task" "/api/tasks" Hin (or_intror eq_refl)).
    vm_compute in H. discriminate H.
  - vm_compute. reflexivity.
Qed.

(** ** The Actions cell of the PO table *)

Section ActionsCell.

Import POManagementPage.

(** The guard of the Complete block asks for a delivered order that is
    not inactive, and a delivered order is inactive. *)
Lemma delivered_block_guard (user : bool) (order : PurchaseOrder) :
  user && String.eqb (status order) "delivered" && negb (isInactive order) = false.
Proof.
  unfold isInactive.
  destruct (String.eqb (status order) "delivered");
    [rewrite orb_true_r|]; now rewrite ?andb_false_r.
Qed.

Ltac case_status :=
  repeat match goal with
         | |- context [String.eqb (status ?o) ?l] =>
             destruct (String.eqb_spec (status o) l)
         end; try congruence.

(** A control is in none of the lists a cell is appended from. *)
Ltac not_rendered :=
  let Hin := fresh "Hin" in
  intros Hin;
  repeat (apply elem_of_app in Hin as [Hin|Hin]);
  unfold when in Hin; repeat case_match;
  repeat (apply elem_of_cons in Hin as [Hin|Hin]; [discriminate|]);
  now apply elem_of_nil in Hin.

(** The rows of the table of actions that the page does render. *)
Lemma rowActions_table (orderTasks : gmap string (list Task)) (order : PurchaseOrder)
    (role : option string) :
  (role = Some "manager" \/ role = Some "superadmin") ->
  (status order = "pending" -> rowActions role orderTasks order = [Approve; Cancel])
  /\ (status order = "processing" ->
      rowActions role orderTasks order = [CreateTask; Cancel])
  /\ (status order = "delivered" -> truthy_str (invoiceUrl order) = false ->
      rowActions role orderTasks order = [GenerateInvoice])
  /\ (status order = "processing" -> truthy_flag (doCreated order) = true ->
      rowActions (Some "user") orderTasks order = [ViewDO; SwitchToDO; MarkAsShipping])
  /\ (status order = "processing" -> truthy_flag (doCreated order) = false ->
      areAllTasksCompleted orderTasks (id order) = true ->
      rowActions (Some "user") orderTasks order = [CreateDO])
  /\ (status order = "shipping" ->
      rowActions (Some "user") orderTasks order = [MarkAsDelivered])
  /\ (status order = "cancelled" ->
      forall r, rowActions r orderTasks order = [CancelledLabel]).
Proof.
  intros Hrole.
  assert (Hpriv : role_is role "manager" || role_is role "superadmin" = true)
    by (destruct Hrole as [-> | ->]; reflexivity).
  assert (Huser : role_is role "user" = false)
    by (destruct Hrole as [-> | ->]; reflexivity).
  unfold rowActions, isInactive, when.
  repeat split; intros Hst; intros; rewrite ?Hpriv, ?Huser, Hst; cbn;
    repeat match goal with H : _ = _ |- _ => rewrite H end; cbn;
    try reflexivity.
  destruct (role_is r "manager" || role_is r "superadmin"),
    (role_is r "user"); reflexivity.
Qed.

(** C1. The Complete control, and with it the DO controls of a delivered
    order, is rendered for no row at all: for a delivered order and the
    role [user] the Actions cell is empty, in both versions of the page. *)
Theorem delivered_row_of_user_is_empty :
  (forall role orderTasks order, Complete ∉ rowActions role orderTasks order)
  /\ (forall role orderTasks order,
        Complete ∉ POManagementPagePatch.rowActions role orderTasks order)
  /\ rowActions (Some "user") ∅ (sampleOrder "delivered" (Some true) (Some "do-77")) = []
  /\ POManagementPagePatch.rowActions (Some "user") ∅
       (sampleOrder "delivered" (Some true) (Some "do-77")) = [].
Proof.
  split; [|split; [|split; reflexivity]].
  - intros role orderTasks order.
    unfold rowActions. rewrite delivered_block_guard. not_rendered.
  - intros role orderTasks order.
    unfold POManagementPagePatch.rowActions. rewrite delivered_block_guard.
    not_rendered.
Qed.


End ActionsCell.


(** ** Resolving the DO id *)

Section ResolveDoId.

Import POManagementPage.

Variable JSON_parse : string -> option (option DOResponseData).





Lemma patchOrder_miss (poId x : string) (o : PurchaseOrder) :
  id o <> poId -> patchOrder poId x o = o.
Proof.
  intros Hne. unfold patchOrder.
  now destruct (String.eqb_spec (id o) poId).
Qed.




End ResolveDoId.



(** ** Logging in *)

Section Login.

Import Api.

Variable VITE_API_URL : option string.
Variable server : request -> option response.
Variable JSON_stringify : json -> string.
Variable String_of : json -> string.
Variable trim : string -> string.

(** C5. When the login response is OK and its body has no [data.token],
    [login] does reject and stores nothing, but the rejection the caller
    sees is the generic one of the outer [catch]: the explicit
    [No token received] error thrown inside is replaced on the way out. *)
Theorem login_without_token_rejects_generically
    (email password : string) (w : world) (res : response) (data : json) :
  (forall rq, req_url rq = BASE_URL VITE_API_URL +:+ "/login" -> server rq = Some res) ->
  ok res = true ->
  body_json res = Some data ->
  JS.truthy (JS.opt_get (JS.opt_get (Some data) "data") "token") = false ->
  let out := login VITE_API_URL server JSON_stringify String_of trim email password w in
  out.1 = inl (Error "Failed to login. Please try again.")
  /\ out.1 <> inl (Error "Authentication failed: No token received")
  /\ localStorage out.2 = localStorage w
  /\ localStorage out.2 !! "token" = localStorage w !! "token"
  /\ localStorage out.2 !! "user" = localStorage w !! "user".
Proof.
  intros Hs Hok Hjson Htok out.
  assert (Hout : out = (inl (Error "Failed to login. Please try again."),
                        log_request
                          {| req_url := BASE_URL VITE_API_URL +:+ "/login";
                             req_method := Some "POST";
                             req_headers := <["Content-Type" := "application/json"]>
                                              (<["Accept" := "application/json"]> ∅);
                             req_body := Some (JSON_stringify
                                                 (JObj [("email", JStr (trim email));
                                                        ("password", JStr password)]));
                             req_credentials := "include" |} w)).
  { subst out.
    cbv beta iota zeta delta [login try_catch bind fetch ret throw of_get].
    rewrite Hs by reflexivity. rewrite Hjson, Hok. cbv beta iota delta [negb].
    destruct data; cbn [JS.get JS.opt_get] in *; try reflexivity;
      rewrite ?Htok; reflexivity. }
  rewrite Hout. cbn [fst snd log_request localStorage].
  split_and!; try reflexivity. discriminate.
Qed.

End Login.

Lemma login_without_token_rejects_generically_witness :
  (Api.login None (always tokenlessLogin) plainStringify plainString noTrim
     "ann@example.com" "secret" freshWorld).1
  = inl (Error "Failed to login. Please try again.").
Proof.
  refine (proj1 (login_without_token_rejects_generically None (always tokenlessLogin)
            plainStringify plainString noTrim "ann@example.com" "secret" freshWorld
            tokenlessLogin (JObj [("data", JObj [])]) _ _ _ _)).
  - intros rq _. reflexivity.
  - reflexivity.
  - reflexivity.
  - reflexivity.
Defined.

(** ** Deleting a task *)

Section DeleteTask.

Import Api TaskManagementPage.

Implicit Types (VITE_API_URL : option string)
  (server : request -> option response) (w : Api.world).

(** A successful DELETE resolves to [{}] when the body is empty; the body
    is not handed to [JSON.parse] at all. *)
Lemma apiRequest_delete_empty_body VITE_API_URL server
    (url : string) (options : RequestInit) w (res : response) :
  method options = Some "DELETE" ->
  (forall rq, req_method rq = Some "DELETE" -> server rq = Some res) ->
  ok res = true ->
  body res = "" ->
  (apiRequest VITE_API_URL server url options w).1 = inr (Some (JObj [])).
Proof.
  intros Hm Hs Hok Hbody.
  unfold apiRequest. rewrite bind_gets.
  cbv beta iota zeta delta [try_catch bind fetch parseBody ret throw of_get modify].
  rewrite Hs by exact Hm. rewrite Hbody, Hok.
  change (JSString.truthy "") with false. cbv beta iota delta [negb].
  cbn [JS.get JS.opt_get JS.assoc JS.is_str].
  destruct (String.eqb url "/login"); reflexivity.
Qed.

(** What [handleDeleteTask] does, by the outcome of its DELETE. *)
Lemma handleDeleteTask_outcome VITE_API_URL server
    (taskId : string) (st : PageState) :
  let r := apiRequest VITE_API_URL server ("/api/tasks/" +:+ taskId)
             {| method := Some "DELETE"; headers := ∅; init_body := None |}
             (world st) in
  handleDeleteTask VITE_API_URL server taskId st
  = match r.1 with
    | inr _ =>
        (inr tt,
         {| tasks := filter (otherThan taskId) (tasks st);
            orderTasks := filter (otherThan taskId) <$> orderTasks st;
            toasts := toasts st ++ [toast_success "Task deleted successfully"];
            world := r.2 |})
    | inl e =>
        (inl e,
         {| tasks := tasks st;
            orderTasks := orderTasks st;
            toasts := toasts st ++ [toast_error "Failed to delete task"];
            world := r.2 |})
    end.
Proof.
  unfold handleDeleteTask, try_catch, bind, liftWorld, modify, throw.
  destruct (apiRequest _ _ _ _ _) as [[e|v] w']; reflexivity.
Qed.

(** A DELETE that gets no answer, or an answer that is not OK, rejects. *)
Lemma apiRequest_rejects_failure VITE_API_URL server
    (url : string) (options : RequestInit) w :
  let out := apiRequest VITE_API_URL server url options w in
  (server (requestOf VITE_API_URL url options w) = None ->
   out.1 = inl NetworkError)
  /\ (forall res, server (requestOf VITE_API_URL url options w) = Some res ->
        ok res = false ->
        exists m d, out.1 = inl (ApiError (status res) m d)).
Proof.
  cbv zeta. unfold apiRequest. rewrite bind_gets.
  unfold try_catch at 1. unfold bind at 1. unfold fetch.
  fold (requestOf VITE_API_URL url options w).
  split.
  - intros ->. reflexivity.
  - intros res -> Hok.
    cbv beta iota zeta delta [try_catch bind parseBody ret throw of_get modify].
    rewrite Hok, andb_false_r. cbv beta iota delta [negb].
    repeat case_match; simplify_eq; cbn [fst]; eauto.
Qed.

(** C6. A DELETE that succeeds with an empty body makes [apiRequest]
    resolve to the empty object, and [handleDeleteTask] then drops the task
    from the flat list and from every group of [orderTasks], keeping all
    the others; a DELETE that fails, be it that no answer comes or that
    the answer is not OK, makes [handleDeleteTask] reject with the error
    of the call, the lists untouched. *)
Theorem delete_with_empty_body_removes_task VITE_API_URL server
    (taskId : string) (st : PageState) (res : response) :
  (forall rq, req_method rq = Some "DELETE" -> server rq = Some res) ->
  ok res = true ->
  body res = "" ->
  let out := handleDeleteTask VITE_API_URL server taskId st in
  let rq := requestOf VITE_API_URL ("/api/tasks/" +:+ taskId)
              {| method := Some "DELETE"; headers := ∅; init_body := None |}
              (world st) in
  (forall url w,
     (apiRequest VITE_API_URL server url
        {| method := Some "DELETE"; headers := ∅; init_body := None |} w).1
     = inr (Some (JObj [])))
  /\ out.1 = inr tt
  /\ (forall t, t ∈ tasks out.2 <-> t ∈ tasks st /\ _id t <> taskId)
  /\ (forall k, orderTasks out.2 !! k
                = filter (otherThan taskId) <$> orderTasks st !! k)
  /\ (forall k g t, orderTasks out.2 !! k = Some g -> t ∈ g -> _id t <> taskId)
  /\ (forall server',
        server' rq = None ->
        let out' := handleDeleteTask VITE_API_URL server' taskId st in
        out'.1 = inl NetworkError /\ tasks out'.2 = tasks st
        /\ orderTasks out'.2 = orderTasks st)
  /\ (forall server' res',
        server' rq = Some res' ->
        ok res' = false ->
        let out' := handleDeleteTask VITE_API_URL server' taskId st in
        (exists m d, out'.1 = inl (ApiError (status res') m d))
        /\ tasks out'.2 = tasks st
        /\ orderTasks out'.2 = orderTasks st).
Proof.
  intros Hs Hok Hbody out rq.
  assert (Hreq : forall url w,
            (apiRequest VITE_API_URL server url
               {| method := Some "DELETE"; headers := ∅; init_body := None |} w).1
            = inr (Some (JObj [])))
    by (intros; now apply apiRequest_delete_empty_body with (res := res)).
  pose proof (handleDeleteTask_outcome VITE_API_URL server taskId st) as Hout.
  cbv zeta in Hout. rewrite Hreq in Hout. fold out in Hout.
  split_and!.
  - exact Hreq.
  - now rewrite Hout.
  - intros t. rewrite Hout. cbn [snd tasks]. rewrite list_elem_of_filter.
    unfold otherThan. tauto.
  - intros k. rewrite Hout. cbn [snd orderTasks]. now rewrite lookup_fmap.
  - intros k g t. rewrite Hout. cbn [snd orderTasks]. rewrite lookup_fmap.
    intros Hg Hin. apply fmap_Some in Hg as (g0 & _ & ->).
    apply list_elem_of_filter in Hin as [Hne _]. exact Hne.
  - intros server' Hdown out'. subst out'.
    destruct (apiRequest_rejects_failure VITE_API_URL server'
                ("/api/tasks/" +:+ taskId)
                {| method := Some "DELETE"; headers := ∅; init_body := None |}
                (world st)) as [Hnone _].
    rewrite (handleDeleteTask_outcome VITE_API_URL server' taskId st).
    cbv zeta. rewrite (Hnone Hdown). split_and!; reflexivity.
  - intros server' res' Hans Hbad out'. subst out'.
    destruct (apiRequest_rejects_failure VITE_API_URL server'
                ("/api/tasks/" +:+ taskId)
                {| method := Some "DELETE"; headers := ∅; init_body := None |}
                (world st)) as [_ Hsome].
    destruct (Hsome res' Hans Hbad) as (m & d & He).
    rewrite (handleDeleteTask_outcome VITE_API_URL server' taskId st).
    cbv zeta. rewrite He. split_and!; [eauto|reflexivity|reflexivity].
Qed.

End DeleteTask.

Lemma delete_with_empty_body_removes_task_witness :
  (TaskManagementPage.handleDeleteTask None (always noContent) "t-1"
     sampleTaskPage).1 = inr tt
  /\ ((TaskManagementPage.handleDeleteTask None offline "t-1" sampleTaskPage).1
      = inl NetworkError
      /\ TaskManagementPage.tasks
           (TaskManagementPage.handleDeleteTask None offline "t-1" sampleTaskPage).2
         = TaskManagementPage.tasks sampleTaskPage)
  /\ ((exists m d,
         (TaskManagementPage.handleDeleteTask None (always serverError) "t-1"
            sampleTaskPage).1 = inl (ApiError 500 m d))
      /\ TaskManagementPage.tasks
           (TaskManagementPage.handleDeleteTask None (always serverError) "t-1"
              sampleTaskPage).2
         = TaskManagementPage.tasks sampleTaskPage).
Proof.
  pose proof (delete_with_empty_body_removes_task None (always noContent)
                "t-1" sampleTaskPage noContent
                (fun _ _ => eq_refl) eq_refl eq_refl) as H.
  cbv zeta in H. destruct H as (_ & Hok & _ & _ & _ & Hdown & Hbad).
  split; [exact Hok|]. split.
  - destruct (Hdown offline eq_refl) as (He & Ht & _). split; [exact He|exact Ht].
  - destruct (Hbad (always serverError) serverError eq_refl eq_refl)
      as (He & Ht & _). split; [exact He|exact Ht].
Defined.

(** ** The Switch to DO control of the task table *)

Section SwitchToDO.

Import TaskTable.

(** The set of recently completed tasks grows by the task whose status
    was set to [Completed], and only then. *)
Lemma tracking_adds_completed {S} (onStatusChange : string -> string -> M S unit)
    (taskId newStatus : string) (s : S) (recentlyCompleted : gset string) :
  (onStatusChange taskId newStatus s).1 = inr tt ->
  (handleStatusChangeWithTracking onStatusChange taskId newStatus
     (s, recentlyCompleted)).2.2
  = if String.eqb newStatus "Completed"
    then {[taskId]} ∪ recentlyCompleted else recentlyCompleted.
Proof.
  intros Hok. unfold handleStatusChangeWithTracking.
  destruct (onStatusChange taskId newStatus s) as [[e|[]] s']; [discriminate|].
  now destruct (String.eqb newStatus "Completed").
Qed.

(** C7. The table computes [showSwitchButton] as the claim says, but the
    row does not look at it: with [buttonShouldShow] forced to [true] the
    Switch to DO control is in every row, also for a pending task that was
    never completed in the session. *)
Theorem switch_to_DO_shown_for_every_task :
  (forall tasks hasOnDelete currentUserId currentUserRole recentlyCompleted row,
     row ∈ rows tasks hasOnDelete currentUserId currentUserRole recentlyCompleted ->
     SwitchToDOButton ∈ row.2)
  /\ showSwitchButton ∅ (sampleTask "t-1" "po-0001" "Pending") = false
  /\ rows [sampleTask "t-1" "po-0001" "Pending"] true (Some "u-1") (Some "manager") ∅
     = [(sampleTask "t-1" "po-0001" "Pending",
         [StatusSelect; DetailsButton; SwitchToDOButton; DeleteButton])].
Proof.
  split_and!; [|reflexivity..].
  intros tasks hasOnDelete uid role rc row Hin. unfold rows in Hin.
  apply list_elem_of_fmap in Hin as (task & -> & _). cbn [snd].
  unfold TaskRow. cbn [buttonShouldShow andb].
  rewrite !elem_of_app. right. left. apply list_elem_of_here.
Qed.

End SwitchToDO.

(** ** Removing a line item *)

Lemma filter_index_all {A} (keep : nat -> bool) (k : nat) (l : list A) :
  (forall i, k <= i -> keep i = true) -> filter_index keep k l = l.
Proof.
  revert k. induction l as [|x l IH]; intros k Hk; cbn; [reflexivity|].
  rewrite Hk by lia. f_equal. apply IH. intros i Hi. apply Hk. lia.
Qed.

(** Filtering out one index is cutting the list around it. *)
Lemma filter_index_cut {A} (keep : nat -> bool) (k index : nat) (l : list A) :
  (forall i, keep i = negb (i =? k + index)) ->
  filter_index keep k l = take index l ++ drop (S index) l.
Proof.
  revert k index. induction l as [|x l IH]; intros k index Hk; cbn.
  - now destruct index.
  - rewrite Hk. destruct index as [|index].
    + rewrite Nat.add_0_r, Nat.eqb_refl. cbn.
      apply filter_index_all. intros i Hi. rewrite Hk.
      apply negb_true_iff, Nat.eqb_neq. lia.
    + replace (k =? k + S index) with false
        by (symmetry; apply Nat.eqb_neq; lia).
      cbn. f_equal. apply IH. intros i. rewrite Hk. f_equal. f_equal. lia.
Qed.

Lemma cut_lookup {A} (index j : nat) (l : list A) :
  index < length l ->
  (take index l ++ drop (S index) l) !! j
  = if decide (j < index) then l !! j else l !! S j.
Proof.
  intros Hlen. case_decide as Hj.
  - rewrite lookup_app_l by (rewrite length_take; lia).
    now apply lookup_take_lt.
  - rewrite lookup_app_r by (rewrite length_take; lia).
    rewrite length_take, lookup_drop. f_equal. lia.
Qed.

Lemma cut_length {A} (index : nat) (l : list A) :
  length (take index l ++ drop (S index) l)
  = if decide (index < length l) then length l - 1 else length l.
Proof.
  rewrite length_app, length_take, length_drop. case_decide; lia.
Qed.

(** C10. [removeItem] leaves a form of at most one item as it is; on a
    longer list it cuts out the item at the index, every other item
    keeping its order and every other field its value; so a list that is
    not empty never becomes empty. The same holds in both forms. *)
Theorem removeItem_keeps_one_item :
  (forall index (formData : DOForm.FormData),
     let items := DOForm.items formData in
     let after := DOForm.removeItem index formData in
     (length items <= 1 -> after = formData)
     /\ (1 < length items ->
         DOForm.items after = take index items ++ drop (S index) items
         /\ DOForm.setItems items after = formData
         /\ (index < length items ->
             length (DOForm.items after) = length items - 1
             /\ forall j, DOForm.items after !! j
                          = if decide (j < index) then items !! j else items !! S j))
     /\ (items <> [] -> DOForm.items after <> []))
  /\ (forall index (formData : DeliveryOrderForm.DOFormData),
        let items := DeliveryOrderForm.items formData in
        let after := DeliveryOrderForm.removeItem index formData in
        (length items <= 1 -> after = formData)
        /\ (1 < length items ->
            DeliveryOrderForm.items after = take index items ++ drop (S index) items
            /\ DeliveryOrderForm.setItems items after = formData
            /\ (index < length items ->
                length (DeliveryOrderForm.items after) = length items - 1
                /\ forall j, DeliveryOrderForm.items after !! j
                             = if decide (j < index) then items !! j
                               else items !! S j))
        /\ (items <> [] -> DeliveryOrderForm.items after <> [])).
Proof.
  split; intros index formData items after; subst items after.
  - unfold DOForm.removeItem.
    destruct (Nat.leb_spec (length (DOForm.items formData)) 1) as [Hle|Hgt].
    + split_and!; [reflexivity|lia|tauto].
    + cbn [DOForm.items DOForm.setItems].
      rewrite (filter_index_cut _ 0 index) by reflexivity.
      split_and!; [lia| |].
      * intros _. split_and!; [reflexivity|now destruct formData|].
        intros Hi. split; [rewrite cut_length; case_decide; lia|].
        intros j. now apply cut_lookup.
      * intros _ Hnil. apply (f_equal length) in Hnil.
        rewrite cut_length in Hnil. cbn in Hnil. case_decide; lia.
  - unfold DeliveryOrderForm.removeItem.
    destruct (Nat.leb_spec (length (DeliveryOrderForm.items formData)) 1) as [Hle|Hgt].
    + split_and!; [reflexivity|lia|tauto].
    + cbn [DeliveryOrderForm.items DeliveryOrderForm.setItems].
      rewrite (filter_index_cut _ 0 index) by reflexivity.
      split_and!; [lia| |].
      * intros _. split_and!; [reflexivity|now destruct formData|].
        intros Hi. split; [rewrite cut_length; case_decide; lia|].
        intros j. now apply cut_lookup.
      * intros _ Hnil. apply (f_equal length) in Hnil.
        rewrite cut_length in Hnil. cbn in Hnil. case_decide; lia.
Qed.

(** ** Line totals of the DO form *)

Section LineTotals.

Import DOForm.

(** C4. The Subtotal and Total lines always show the sum of
    [quantity * unitPrice], but the [total] stored on an item does not
    always equal [quantity * unitPrice]: with the quantity at 0, editing
    the unit price computes the total from the fallback quantity 1. *)
Theorem stored_total_ignores_zero_quantity :
  (forall formData, renderedSubtotal formData = renderedGrandTotal formData)
  /\ zeroQuantityThenPrice
     = Some (setItems
               [{| productName := ""; quantity := 0%float; unit_ := "pcs";
                   unitPrice := 5%float; total := 5%float |}]
               (initialForm sampleClock))
  /\ (forall formData item,
        zeroQuantityThenPrice = Some formData ->
        items formData !! 0 = Some item ->
        PrimFloat.eqb (total item) (quantity item * unitPrice item)%float = false
        /\ renderedItemTotal item = 0%float).
Proof.
  split_and!; [reflexivity|reflexivity|].
  intros formData item Hf Hi. vm_compute in Hf. injection Hf as <-.
  vm_compute in Hi. injection Hi as <-. split; reflexivity.
Qed.

End LineTotals.

(** ** Delivery-order numbers *)

Lemma append_nil_r (s : string) : s +:+ "" = s.
Proof. induction s as [|x s IH]; autorewrite with jsstr; [reflexivity|now rewrite IH]. Qed.

Lemma length_dec (k : nat) (n : N) : String.length (dec k n) = k.
Proof.
  revert n. induction k as [|k IH]; intros n; cbn [dec]; [reflexivity|].
  rewrite length_append, IH. cbn. lia.
Qed.

(** With fuel for [k] digits, a number of exactly [k] digits prints as
    its [k] low-order digits. *)
Lemma digits_dec (k : nat) :
  forall fuel n, k <= fuel -> (n < 10 ^ N.of_nat (S k))%N ->
                 ((10 ^ N.of_nat k <= n)%N \/ k = 0) ->
                 JSString.digits (S fuel) n = dec (S k) n.
Proof.
  induction k as [|k IH]; intros fuel n Hf Hhi Hlo.
  - cbn [JSString.digits dec].
    assert (n < 10)%N as Hn by (cbn in Hhi; lia).
    rewrite (N.mod_small n 10) by exact Hn.
    apply N.ltb_lt in Hn. rewrite Hn. reflexivity.
  - destruct fuel as [|fuel]; [lia|].
    assert (10 <= n)%N as Hn.
    { destruct Hlo as [Hlo|]; [|lia].
      assert (10 ^ 1 <= 10 ^ N.of_nat (S k))%N by (apply N.pow_le_mono_r; lia).
      cbn in *. lia. }
    change (JSString.digits (S (S fuel)) n)
      with (if (n <? 10)%N then String (JSString.digit_char n) ""
            else JSString.digits (S fuel) (n / 10)
                 +:+ String (JSString.digit_char (n mod 10)) "").
    replace (n <? 10)%N with false by (symmetry; apply N.ltb_ge; exact Hn).
    change (dec (S (S k)) n)
      with (dec (S k) (n / 10) +:+ String (JSString.digit_char (n mod 10)) "").
    f_equal. apply IH; [lia| |].
    + apply N.Div0.div_lt_upper_bound.
      replace (N.of_nat (S (S k))) with (N.succ (N.of_nat (S k))) in Hhi by lia.
      rewrite N.pow_succ_r' in Hhi. exact Hhi.
    + left. destruct Hlo as [Hlo|]; [|lia].
      apply N.div_le_lower_bound; [lia|].
      replace (N.of_nat (S k)) with (N.succ (N.of_nat k)) in Hlo by lia.
      rewrite N.pow_succ_r' in Hlo. exact Hlo.
Qed.

(** With fuel for [k] digits, the print of a number of more than [k]
    digits ends with its [k] low-order digits. *)
Lemma digits_split (k : nat) :
  forall fuel n, (10 ^ N.of_nat k <= n)%N ->
                 JSString.digits (k + fuel) n
                 = JSString.digits fuel (n / 10 ^ N.of_nat k) +:+ dec k n.
Proof.
  induction k as [|k IH]; intros fuel n Hlo.
  - cbn [dec Nat.add]. change (10 ^ N.of_nat 0)%N with 1%N.
    now rewrite N.div_1_r, append_nil_r.
  - replace (N.of_nat (S k)) with (N.succ (N.of_nat k)) in * by lia.
    rewrite N.pow_succ_r' in *.
    assert (1 <= 10 ^ N.of_nat k)%N by (apply N.neq_0_le_1, N.pow_nonzero; lia).
    assert (10 <= n)%N as Hn by lia.
    change (JSString.digits (S k + fuel) n)
      with (if (n <? 10)%N then String (JSString.digit_char n) ""
            else JSString.digits (k + fuel) (n / 10)
                 +:+ String (JSString.digit_char (n mod 10)) "").
    replace (n <? 10)%N with false by (symmetry; apply N.ltb_ge; exact Hn).
    rewrite IH by (apply N.div_le_lower_bound; lia).
    rewrite N.Div0.div_div. cbn [dec]. now rewrite append_assoc.
Qed.

Lemma slice_last_app (k : nat) (a b : string) :
  String.length b = k -> JSString.slice_last k (a +:+ b) = b.
Proof.
  intros Hb. unfold JSString.slice_last. rewrite length_append, Hb.
  replace (String.length a + k - k) with (String.length a) by lia.
  apply drop_app_length.
Qed.

Lemma log2_fuel (k : nat) (n : N) :
  (2 ^ N.of_nat k <= n)%N -> k <= N.to_nat (N.log2 n).
Proof.
  intros H. apply N.log2_le_mono in H. rewrite N.log2_pow2 in H by lia. lia.
Qed.

(** [Date.now().toString().slice(-6)] is the six low-order digits. *)
Lemma timestamp_last6 (n : N) :
  (100000 <= n)%N -> JSString.slice_last 6 (JSString.toString n) = dec 6 n.
Proof.
  intros Hn. unfold JSString.toString.
  assert (16 <= N.to_nat (N.log2 n)) as Hfuel by (apply log2_fuel; cbn; lia).
  destruct (N.lt_ge_cases n 1000000) as [Hlt|Hge].
  - rewrite (digits_dec 5) by (cbn; lia).
    rewrite <- (append_nil (dec 6 n)) at 1.
    apply slice_last_app, length_dec.
  - replace (S (N.to_nat (N.log2 n))) with (6 + (N.to_nat (N.log2 n) - 5)) by lia.
    rewrite digits_split by (cbn; lia).
    apply slice_last_app, length_dec.
Qed.

Lemma year_digits (y : N) :
  (1000 <= y <= 9999)%N -> JSString.toString y = dec 4 y.
Proof.
  intros Hy. unfold JSString.toString.
  assert (9 <= N.to_nat (N.log2 y)) by (apply log2_fuel; cbn; lia).
  apply (digits_dec 3); [lia|cbn; lia|cbn; lia].
Qed.

Lemma padded_digits (m : N) :
  (m <= 99)%N -> JSString.padStart2 (JSString.toString m) = dec 2 m.
Proof.
  intros Hm. unfold JSString.toString.
  destruct (N.lt_ge_cases m 10) as [Hlt|Hge].
  - rewrite (digits_dec 0) by (cbn; lia).
    cbn [dec]. rewrite N.div_small by exact Hlt. reflexivity.
  - assert (3 <= N.to_nat (N.log2 m)) by (apply log2_fuel; cbn; lia).
    rewrite (digits_dec 1) by (cbn; lia).
    unfold JSString.padStart2. now rewrite length_dec.
Qed.

(** C8, as the code has it. The standalone DOForm numbers a delivery
    order on mount as [DO-{YYYYMMDD}-{last six digits of the timestamp}],
    whatever its state was; the PO-prefilled DeliveryOrderForm starts with
    [DO-{last six digits of the timestamp}], without the date. *)
Theorem do_number_formats (clock : Clock) :
  plausible clock ->
  (forall prev, DOForm.doNumber (DOForm.generateDONumber clock prev)
                = datedDONumber clock)
  /\ (forall poId initialData,
        DeliveryOrderForm.doNumber
          (DeliveryOrderForm.initialForm clock poId initialData)
        = "DO-" +:+ dec 6 (now_ms clock)).
Proof.
  intros ([Hy1 Hy2] & Hm & [Hd1 Hd2] & Hms). split.
  - intros prev. unfold DOForm.generateDONumber, datedDONumber.
    cbn [DOForm.doNumber DOForm.setDoNumber].
    rewrite timestamp_last6, year_digits by lia.
    now rewrite !padded_digits by lia.
  - intros poId initialData. unfold DeliveryOrderForm.initialForm.
    destruct (DeliveryOrderForm.init_items initialData) as [[|i rest]|];
      cbn [DeliveryOrderForm.doNumber]; unfold DeliveryOrderForm.newDONumber;
      now rewrite timestamp_last6.
Qed.

Lemma do_number_formats_witness :
  DOForm.doNumber (DOForm.generateDONumber sampleClock (DOForm.initialForm sampleClock))
  = datedDONumber sampleClock.
Proof.
  refine (proj1 (do_number_formats sampleClock _) (DOForm.initialForm sampleClock)).
  unfold plausible. cbn. lia.
Defined.

(** C8, as stated, fails for the PO-prefilled form: its number has no
    date part. *)
Lemma prefilled_form_number_is_undated :
  DeliveryOrderForm.doNumber
    (DeliveryOrderForm.initialForm sampleClock "po-0001" noInitialData)
  = "DO-123456"
  /\ datedDONumber sampleClock = "DO-20231114-123456"
  /\ DeliveryOrderForm.doNumber
       (DeliveryOrderForm.initialForm sampleClock "po-0001" noInitialData)
     <> datedDONumber sampleClock.
Proof. split_and!; [reflexivity|reflexivity|discriminate]. Qed.

(** ** More on the HTTP helper *)

Section ApiContract.

Import Api.

Implicit Types (VITE_API_URL : option string)
  (server : request -> option response) (w : world).

(** The request sent is the one built from the call and the store. *)
Lemma apiRequest_log VITE_API_URL server (url : string) (options : RequestInit) w :
  dispatched (apiRequest VITE_API_URL server url options w).2
  = dispatched w ++ [requestOf VITE_API_URL url options w].
Proof.
  unfold apiRequest. rewrite bind_gets.
  apply sends_try_catch; [|intros; apply silent_throw].
  apply sends_fetch_bind. intros res.
  apply silent_bind; [apply parseBody_silent|intros data].
  silent_tac.
Qed.

(** The [Authorization] header of the request built from a call. *)
Lemma requestOf_headers VITE_API_URL (url : string) (options : RequestInit) w :
  let r := requestOf VITE_API_URL url options w in
  (forall t, localStorage w !! "token" = Some t -> t <> "" ->
        isAuthEndpoint url = false ->
        req_headers r !! "Authorization" = Some ("Bearer " +:+ t))
  /\ (isAuthEndpoint url = true ->
      req_headers r !! "Authorization" = headers options !! "Authorization"
      /\ req_credentials r = "same-origin")
  /\ (truthy_str (localStorage w !! "token") = false ->
      req_headers r !! "Authorization" = headers options !! "Authorization").
Proof.
  intros r.
  assert (Hauth : (headers options ∪
               <["Content-Type" := "application/json"]>
                 (<["Accept" := "application/json"]> ∅)) !! "Authorization"
            = headers options !! "Authorization").
  { rewrite lookup_union.
    rewrite lookup_insert_ne, lookup_insert_ne, lookup_empty by done.
    now destruct (headers options !! "Authorization"). }
  subst r. unfold requestOf. cbn [req_headers req_credentials]. unfold requestHeaders.
  split_and!.
  - intros t Ht Hne Hep. rewrite Ht, Hep.
    assert (JSString.truthy t = true) as ->
      by (unfold JSString.truthy; destruct (String.eqb_spec t ""); [congruence|reflexivity]).
    cbn [andb negb]. apply lookup_insert_eq.
  - intros Hep. rewrite Hep. split; [|reflexivity].
    destruct (localStorage w !! "token") as [t|]; [|exact Hauth].
    rewrite andb_false_r. exact Hauth.
  - intros Ht. destruct (localStorage w !! "token") as [t|]; [|exact Hauth].
    cbn in Ht. rewrite Ht. exact Hauth.
Qed.

(** X1. The bearer token goes out on every call but those to the auth
    endpoints, where only what the caller put in the headers goes out. *)
Theorem bearer_token_attached_off_auth_endpoints
    VITE_API_URL server (url : string) (options : RequestInit) w :
  let r := requestOf VITE_API_URL url options w in
  dispatched (apiRequest VITE_API_URL server url options w).2 = dispatched w ++ [r]
  /\ (forall t, localStorage w !! "token" = Some t -> t <> "" ->
        isAuthEndpoint url = false ->
        req_headers r !! "Authorization" = Some ("Bearer " +:+ t))
  /\ (isAuthEndpoint url = true ->
      req_headers r !! "Authorization" = headers options !! "Authorization"
      /\ req_credentials r = "same-origin")
  /\ (truthy_str (localStorage w !! "token") = false ->
      req_headers r !! "Authorization" = headers options !! "Authorization")
  /\ req_headers r !! "Accept"
     = Some (default "application/json" (headers options !! "Accept"))
  /\ req_headers r !! "Content-Type"
     = Some (default "application/json" (headers options !! "Content-Type")).
Proof.
  intros r. split; [apply apiRequest_log|].
  destruct (requestOf_headers VITE_API_URL url options w) as (Hb & Ha & Hn).
  split; [exact Hb|]. split; [exact Ha|]. split; [exact Hn|].
  assert (Hbase : forall k,
            (headers options ∪
               <["Content-Type" := "application/json"]>
                 (<["Accept" := "application/json"]> ∅)) !! k
            = match headers options !! k with
              | Some v => Some v
              | None => (<["Content-Type" := "application/json"]>
                           (<["Accept" := "application/json"]> (∅ : gmap string string))) !! k
              end).
  { intros k. rewrite lookup_union. destruct (headers options !! k); cbn.
    - now destruct (_ !! k).
    - now destruct (_ !! k). }
  subst r. unfold requestOf. cbn [req_headers req_credentials]. unfold requestHeaders.
  split.
  - assert (Hk : (headers options ∪
               <["Content-Type" := "application/json"]>
                 (<["Accept" := "application/json"]> ∅)) !! "Accept"
             = Some (default "application/json" (headers options !! "Accept"))).
    { rewrite Hbase. destruct (headers options !! "Accept"); [reflexivity|].
      rewrite lookup_insert_ne by done. now rewrite lookup_insert_eq. }
    destruct (localStorage w !! "token") as [t|]; [|exact Hk].
    destruct (_ && _); [|exact Hk]. now rewrite lookup_insert_ne.
  - assert (Hk : (headers options ∪
               <["Content-Type" := "application/json"]>
                 (<["Accept" := "application/json"]> ∅)) !! "Content-Type"
             = Some (default "application/json" (headers options !! "Content-Type"))).
    { rewrite Hbase. destruct (headers options !! "Content-Type"); [reflexivity|].
      now rewrite lookup_insert_eq. }
    destruct (localStorage w !! "token") as [t|]; [|exact Hk].
    destruct (_ && _); [|exact Hk]. now rewrite lookup_insert_ne.
Qed.

End ApiContract.

Section ApiOutcomes.

Import Api.

Implicit Types (VITE_API_URL : option string)
  (server : request -> option response) (w : world).

Lemma parseBody_data (options : RequestInit) (res : response) (data : json) w :
  bodyData res = Some data -> parseBody options res w = (inr data, w).
Proof.
  unfold bodyData, parseBody, try_catch, ret, throw.
  destruct (JSString.truthy (body res)); [intros ->|intros [= <-]]; reflexivity.
Qed.

Lemma parseBody_garbage (options : RequestInit) (res : response) w :
  bodyData res = None ->
  parseBody options res w
  = if match method options with
       | Some m => String.eqb m "DELETE"
       | None => false
       end && ok res
    then (inr (JObj []), w)
    else (inl (ApiError (status res)
                 (Some (JStr "Invalid JSON response from server")) None), w).
Proof.
  unfold bodyData, parseBody, try_catch, ret, throw.
  destruct (JSString.truthy (body res)); [intros ->|discriminate].
  now destruct (_ && _).
Qed.

(** The call, once the server has answered: the tail of [apiRequest]
    run on the parsed body. *)
Lemma apiRequest_answered VITE_API_URL server (url : string)
    (options : RequestInit) w (res : response) :
  server (requestOf VITE_API_URL url options w) = Some res ->
  apiRequest VITE_API_URL server url options w
  = try_catch
      (bind (parseBody options res)
         (fun data =>
            let d := Some data in
            if negb (ok res) then
              if (status res =? 401) || (status res =? 403) then
                run modify (removeItem "token");
                if JSString.includes url "/auth/login" then
                  throw (ApiError (status res)
                           (JS.or JS.truthy (JS.opt_get d "message")
                              (Some (JStr (if status res =? 401
                                           then "Invalid email or password"
                                           else "You do not have permission to access this resource"))))
                           d)
                else
                  run modify (set_href "/login");
                  throw (ApiError (status res)
                           (Some (JStr "Session expired. Please login again.")) d)
              else
                throw (ApiError (status res)
                         (JS.or JS.truthy (JS.opt_get d "message")
                            (JS.or JS.truthy (JS.opt_get d "error")
                               (Some (JStr "API request failed")))) d)
            else
              do st <- of_get (JS.get d "status");
              if JS.is_str st "error" then
                do msg <- of_get (JS.get d "message");
                throw (ApiError (status res)
                         (JS.or JS.truthy msg (Some (JStr "API request failed"))) d)
              else if String.eqb url "/login" then ret d
              else
                do dd <- of_get (JS.get d "data");
                ret (JS.or JS.truthy dd d)))
      (fun e => throw e)
      (log_request (requestOf VITE_API_URL url options w) w).
Proof.
  intros Hs. unfold apiRequest. rewrite bind_gets.
  unfold try_catch, bind, fetch.
  fold (requestOf VITE_API_URL url options w). rewrite Hs. reflexivity.
Qed.

(** X2. A 401 or 403 on any call but the login removes the stored token,
    sends the browser to the login page and rejects with the session
    error. *)
Theorem session_expiry_clears_token VITE_API_URL server (url : string)
    (options : RequestInit) w (res : response) (data : json) :
  server (requestOf VITE_API_URL url options w) = Some res ->
  status res = 401 \/ status res = 403 ->
  bodyData res = Some data ->
  JSString.includes url "/auth/login" = false ->
  let out := apiRequest VITE_API_URL server url options w in
  out.1 = inl (ApiError (status res)
                 (Some (JStr "Session expired. Please login again.")) (Some data))
  /\ localStorage out.2 = delete "token" (localStorage w)
  /\ location_href out.2 = Some "/login".
Proof.
  intros Hs Hst Hd Hurl out. subst out.
  rewrite (apiRequest_answered _ _ _ _ _ _ Hs).
  unfold try_catch, bind. rewrite (parseBody_data _ _ _ _ Hd).
  assert (ok res = false) as -> by (unfold ok; destruct Hst as [-> | ->]; reflexivity).
  assert ((status res =? 401) || (status res =? 403) = true) as ->
    by (destruct Hst as [-> | ->]; reflexivity).
  cbn [negb]. rewrite Hurl. cbv beta iota zeta delta [modify throw].
  split_and!; reflexivity.
Qed.

(** X3. A body that is not JSON: a successful DELETE is forgiven and resolves
    to the empty object; anything else rejects with the invalid-JSON
    error before the status is looked at, so that even a 401 leaves the
    token and the location alone. *)
Theorem unparsable_body VITE_API_URL server (url : string)
    (options : RequestInit) w (res : response) :
  server (requestOf VITE_API_URL url options w) = Some res ->
  bodyData res = None ->
  let out := apiRequest VITE_API_URL server url options w in
  (method options = Some "DELETE" -> ok res = true ->
   out.1 = inr (Some (JObj [])))
  /\ (method options <> Some "DELETE" \/ ok res = false ->
      out.1 = inl (ApiError (status res)
                     (Some (JStr "Invalid JSON response from server")) None)
      /\ localStorage out.2 = localStorage w
      /\ location_href out.2 = location_href w).
Proof.
  intros Hs Hd out. subst out.
  rewrite (apiRequest_answered _ _ _ _ _ _ Hs).
  unfold try_catch, bind. rewrite (parseBody_garbage _ _ _ Hd). split.
  - intros -> Hok. rewrite Hok. cbn [String.eqb andb negb].
    change (String.eqb "DELETE" "DELETE") with true. cbn [andb negb].
    cbn [JS.get JS.opt_get JS.assoc JS.is_str of_get ret].
    destruct (String.eqb url "/login"); reflexivity.
  - intros Hno.
    assert (match method options with
            | Some m => String.eqb m "DELETE"
            | None => false
            end && ok res = false) as ->.
    { destruct Hno as [Hm| ->]; [|apply andb_false_r].
      destruct (method options) as [m|]; [|reflexivity].
      destruct (String.eqb_spec m "DELETE"); [congruence|reflexivity]. }
    unfold throw. split_and!; reflexivity.
Qed.

(** X4. A 2xx whose JSON says [status: 'error'] is a rejection carrying the
    message of the body; any other 2xx object resolves to its [data]
    member when that is truthy and to the whole object otherwise. *)
Theorem success_envelope VITE_API_URL server (url : string)
    (options : RequestInit) w (res : response) (fields : list (string * json)) :
  server (requestOf VITE_API_URL url options w) = Some res ->
  ok res = true ->
  bodyData res = Some (JObj fields) ->
  let out := apiRequest VITE_API_URL server url options w in
  let whole := Some (JObj fields) in
  (JS.is_str (JS.assoc "status" fields) "error" = true ->
   out.1 = inl (ApiError (status res)
                  (JS.or JS.truthy (JS.assoc "message" fields)
                     (Some (JStr "API request failed")))
                  whole))
  /\ (JS.is_str (JS.assoc "status" fields) "error" = false ->
      out.1 = inr (if String.eqb url "/login" then whole
                   else JS.or JS.truthy (JS.assoc "data" fields) whole))
  /\ out.2 = log_request (requestOf VITE_API_URL url options w) w.
Proof.
  intros Hs Hok Hd out whole. subst out whole.
  rewrite (apiRequest_answered _ _ _ _ _ _ Hs).
  unfold try_catch, bind. rewrite (parseBody_data _ _ _ _ Hd), Hok.
  cbn [negb JS.get JS.opt_get of_get ret].
  destruct (JS.is_str (JS.assoc "status" fields) "error").
  - split_and!; [reflexivity|discriminate|reflexivity].
  - destruct (String.eqb url "/login");
      (split_and!; [discriminate|reflexivity|reflexivity]).
Qed.

End ApiOutcomes.

Lemma session_expiry_clears_token_witness :
  Api.localStorage
    (Api.apiRequest None (always unauthorized) "/api/tasks" Api.no_options signedIn).2
  = delete "token" (Api.localStorage signedIn).
Proof.
  refine (proj1 (proj2 (session_expiry_clears_token None (always unauthorized)
            "/api/tasks" Api.no_options signedIn unauthorized (JObj [])
            eq_refl (or_introl eq_refl) eq_refl eq_refl))).
Defined.

Lemma unparsable_body_witness :
  (Api.apiRequest None (always badGateway) "/api/tasks" Api.no_options signedIn).1
  = inl (ApiError 502 (Some (JStr "Invalid JSON response from server")) None).
Proof.
  refine (proj1 (proj2 (unparsable_body None (always badGateway)
            "/api/tasks" Api.no_options signedIn badGateway eq_refl eq_refl)
            (or_introl _))).
  discriminate.
Defined.

Lemma success_envelope_witness :
  (Api.apiRequest None (always refusal) "/api/tasks" Api.no_options signedIn).1
  = inl (ApiError 200 (Some (JStr "Out of stock"))
           (Some (JObj [("status", JStr "error"); ("message", JStr "Out of stock")]))).
Proof.
  refine (proj1 (success_envelope None (always refusal)
            "/api/tasks" Api.no_options signedIn refusal
            [("status", JStr "error"); ("message", JStr "Out of stock")]
            eq_refl eq_refl eq_refl) eq_refl).
Defined.

(** *** What a call may do to the browser state *)

Section Gentle.

Import Api.

Lemma gentle_ret {A} (a : A) : gentle (ret a).
Proof. intros w. split; left; reflexivity. Qed.

Lemma gentle_throw {A} (e : error) : gentle (@throw world A e).
Proof. intros w. split; left; reflexivity. Qed.

Lemma gentle_gets {A} (f : world -> A) : gentle (gets f).
Proof. intros w. split; left; reflexivity. Qed.

Lemma gentle_of_get (r : option jsval) : gentle (of_get r).
Proof. destruct r; intros w; split; left; reflexivity. Qed.

Lemma gentle_removeItem : gentle (modify (removeItem "token")).
Proof. intros w. split; [right|left]; reflexivity. Qed.

Lemma gentle_set_href : gentle (modify (set_href "/login")).
Proof. intros w. split; [left|right]; reflexivity. Qed.

Lemma gentle_fetch (server : request -> option response) (rq : request) :
  gentle (fetch server rq).
Proof. intros w. unfold fetch. destruct (server rq); split; left; reflexivity. Qed.

Lemma gentle_step (w w1 w2 : world) :
  (localStorage w1 = localStorage w
   \/ localStorage w1 = delete "token" (localStorage w))
  /\ (location_href w1 = location_href w \/ location_href w1 = Some "/login") ->
  (localStorage w2 = localStorage w1
   \/ localStorage w2 = delete "token" (localStorage w1))
  /\ (location_href w2 = location_href w1 \/ location_href w2 = Some "/login") ->
  (localStorage w2 = localStorage w
   \/ localStorage w2 = delete "token" (localStorage w))
  /\ (location_href w2 = location_href w \/ location_href w2 = Some "/login").
Proof.
  intros [[H1|H1] [G1|G1]] [[H2|H2] [G2|G2]]; rewrite H2, H1, ?delete_delete_eq;
    rewrite G2, ?G1; tauto.
Qed.

Lemma gentle_bind {A B} (m : M world A) (k : A -> M world B) :
  gentle m -> (forall a, gentle (k a)) -> gentle (bind m k).
Proof.
  intros Hm Hk w. unfold bind. specialize (Hm w).
  destruct (m w) as [[e|a] w1]; cbn [snd] in *; [exact Hm|].
  exact (gentle_step _ _ _ Hm (Hk a w1)).
Qed.

Lemma gentle_try_catch {A} (m : M world A) (h : error -> M world A) :
  gentle m -> (forall e, gentle (h e)) -> gentle (try_catch m h).
Proof.
  intros Hm Hh w. unfold try_catch. specialize (Hm w).
  destruct (m w) as [[e|a] w1]; cbn [snd] in *; [|exact Hm].
  exact (gentle_step _ _ _ Hm (Hh e w1)).
Qed.

End Gentle.

Ltac gentle_tac :=
  repeat first
    [ apply gentle_ret | apply gentle_throw | apply gentle_gets
    | apply gentle_of_get | apply gentle_removeItem | apply gentle_set_href
    | apply gentle_fetch
    | apply gentle_bind; [|intros]
    | apply gentle_try_catch; [|intros]
    | case_match ].

Section ApiInvariant.

Import Api.

Implicit Types (VITE_API_URL : option string)
  (server : request -> option response) (w : world).

Lemma parseBody_world (options : RequestInit) (res : response) w :
  (parseBody options res w).2 = w.
Proof.
  unfold parseBody, try_catch, ret, throw. repeat case_match; simplify_eq/=; reflexivity.
Qed.

Lemma apiRequest_gentle VITE_API_URL server (url : string) (options : RequestInit) :
  gentle (apiRequest VITE_API_URL server url options).
Proof. unfold apiRequest, parseBody. gentle_tac. Qed.

Lemma apiRequest_other_keys VITE_API_URL server (url : string)
    (options : RequestInit) w (k : string) :
  k <> "token" ->
  localStorage (apiRequest VITE_API_URL server url options w).2 !! k
  = localStorage w !! k.
Proof.
  intros Hk.
  destruct (apiRequest_gentle VITE_API_URL server url options w) as [[-> | ->] _];
    [reflexivity|now rewrite lookup_delete_ne].
Qed.

(** X5. The helper never writes to [localStorage]: every key but [token]
    keeps its value, the token is kept or removed, and the only place it
    may send the browser to is the login page; both are left alone unless
    the server answered 401 or 403. *)
Theorem apiRequest_spares_the_store VITE_API_URL server (url : string)
    (options : RequestInit) w :
  let w' := (apiRequest VITE_API_URL server url options w).2 in
  (forall k, k <> "token" -> localStorage w' !! k = localStorage w !! k)
  /\ (localStorage w' !! "token" = localStorage w !! "token"
      \/ localStorage w' !! "token" = None)
  /\ (location_href w' = location_href w \/ location_href w' = Some "/login")
  /\ (match server (requestOf VITE_API_URL url options w) with
      | Some res => status res <> 401 /\ status res <> 403
      | None => True
      end ->
      localStorage w' = localStorage w /\ location_href w' = location_href w).
Proof.
  intros w'. subst w'.
  destruct (apiRequest_gentle VITE_API_URL server url options w) as [Hs Hl].
  split_and!.
  - intros k Hk. destruct Hs as [-> | ->]; [reflexivity|].
    now rewrite lookup_delete_ne.
  - destruct Hs as [-> | ->]; [now left|right; apply lookup_delete_eq].
  - exact Hl.
  - clear Hs Hl.
    destruct (server (requestOf VITE_API_URL url options w)) as [res|] eqn:Hs.
    + intros [H1 H3]. rewrite (apiRequest_answered _ _ _ _ _ _ Hs).
      cbv beta iota zeta delta [try_catch bind ret throw of_get modify].
      pose proof (parseBody_world options res
                    (log_request (requestOf VITE_API_URL url options w) w)) as Hp.
      destruct (parseBody options res _) as [[e|data] w1]; cbn [snd] in Hp;
        subst w1; [split; reflexivity|].
      apply Nat.eqb_neq in H1, H3. rewrite H1, H3. cbn [orb].
      repeat case_match; simplify_eq/=; split; reflexivity.
    + intros _. unfold apiRequest. rewrite bind_gets.
      unfold try_catch, bind, fetch.
      fold (requestOf VITE_API_URL url options w). rewrite Hs.
      split; reflexivity.
Qed.

End ApiInvariant.

(** ** More on logging in *)

Section LoginOutcomes.

Import Api.

Variable VITE_API_URL : option string.
Variable server : request -> option response.
Variable JSON_stringify : json -> string.
Variable String_of : json -> string.
Variable trim : string -> string.

Local Abbreviation login' :=
  (login VITE_API_URL server JSON_stringify String_of trim).
Local Abbreviation loginRq :=
  (loginRequest VITE_API_URL JSON_stringify trim).

(** X6. A login that fails persists nothing. A response that is not OK
    rejects with an [ApiError] of its status and the message of its body,
    which passes the outer [catch]; a network failure or a body that is
    not JSON rejects with the generic error. *)
Theorem failed_login_stores_nothing (email password : string) (w : world) :
  let out := login' email password w in
  (forall res data,
     server (loginRq email password) = Some res ->
     ok res = false -> body_json res = Some data ->
     out.1 = inl (ApiError (status res)
                    (JS.or JS.truthy (JS.opt_get (Some data) "message")
                       (Some (JStr ("Login failed with status "
                                    +:+ JSString.toString (N.of_nat (status res))))))
                    (Some data))
     /\ localStorage out.2 = localStorage w
     /\ location_href out.2 = location_href w)
  /\ ((server (loginRq email password) = None
       \/ exists res, server (loginRq email password) = Some res
                      /\ body_json res = None) ->
      out.1 = inl (Error "Failed to login. Please try again.")
      /\ localStorage out.2 = localStorage w
      /\ location_href out.2 = location_href w).
Proof.
  intros out. subst out. split.
  - intros res data Hs Hok Hj.
    cbv beta iota zeta delta [login try_catch bind fetch ret throw of_get].
    fold (loginRq email password). rewrite Hs, Hj, Hok.
    cbv beta iota delta [negb is_ApiError]. split_and!; reflexivity.
  - intros [Hs|(res & Hs & Hj)];
      cbv beta iota zeta delta [login try_catch bind fetch ret throw of_get];
      fold (loginRq email password); rewrite Hs, ?Hj;
      split_and!; reflexivity.
Qed.

(** X7. A login answered with a token and a user stores both, under the keys
    [token] and [user], sends nothing else and resolves to the pair. *)
Theorem login_stores_token_and_user (email password : string) (w : world)
    (res : response) (fields dfields : list (string * json)) (t u : json) :
  server (loginRq email password) = Some res ->
  ok res = true ->
  body_json res = Some (JObj fields) ->
  JS.assoc "data" fields = Some (JObj dfields) ->
  JS.assoc "token" dfields = Some t -> JS.truthy (Some t) = true ->
  JS.assoc "user" dfields = Some u -> JS.truthy (Some u) = true ->
  let out := login' email password w in
  out.1 = inr {| token := t; user := Some u |}
  /\ localStorage out.2
     = <["user" := JSON_stringify u]>
         (<["token" := String_ String_of t]> (localStorage w))
  /\ dispatched out.2 = dispatched w ++ [loginRq email password]
  /\ location_href out.2 = location_href w.
Proof.
  intros Hs Hok Hj Hd Ht Htt Hu Hut out. subst out.
  cbv beta iota zeta delta [login try_catch bind fetch ret throw of_get].
  fold (loginRq email password). rewrite Hs, Hj, Hok.
  cbn [negb JS.get JS.opt_get]. rewrite Hd. cbn [JS.opt_get JS.get].
  rewrite Ht, Hu, Htt. cbn [negb]. rewrite ?Htt, Hut. cbn [negb].
  cbv beta iota zeta delta [modify setUserForLogging].
  split_and!; reflexivity.
Qed.

End LoginOutcomes.

Lemma failed_login_stores_nothing_witness :
  (Api.login None (always wrongPassword) plainStringify plainString noTrim
     "ann@example.com" "guess" signedIn).1
  = inl (ApiError 401 (Some (JStr "Wrong password"))
           (Some (JObj [("message", JStr "Wrong password")]))).
Proof.
  refine (proj1 (proj1 (failed_login_stores_nothing None (always wrongPassword)
            plainStringify plainString noTrim "ann@example.com" "guess" signedIn)
            wrongPassword (JObj [("message", JStr "Wrong password")])
            eq_refl eq_refl eq_refl)).
Defined.

Lemma login_stores_token_and_user_witness :
  (Api.login None (always goodLogin) plainStringify plainString noTrim
     "ann@example.com" "secret" freshWorld).1
  = inr {| Api.token := JStr "tok-9";
           Api.user := Some (JObj [("name", JStr "Ann")]) |}.
Proof.
  refine (proj1 (login_stores_token_and_user None (always goodLogin)
            plainStringify plainString noTrim "ann@example.com" "secret" freshWorld
            goodLogin
            [("data", JObj [("token", JStr "tok-9");
                            ("user", JObj [("name", JStr "Ann")])])]
            [("token", JStr "tok-9"); ("user", JObj [("name", JStr "Ann")])]
            (JStr "tok-9") (JObj [("name", JStr "Ann")])
            eq_refl eq_refl eq_refl eq_refl eq_refl eq_refl eq_refl eq_refl)).
Defined.

Section LoginProfile.

Import Api.

Variable VITE_API_URL : option string.
Variable server : request -> option response.
Variable JSON_stringify : json -> string.
Variable String_of : json -> string.
Variable trim : string -> string.

Local Abbreviation login' :=
  (login VITE_API_URL server JSON_stringify String_of trim).
Local Abbreviation loginRq :=
  (loginRequest VITE_API_URL JSON_stringify trim).

Lemma finalUrl_users_me :
  finalUrl VITE_API_URL "/api/users/me" = BASE_URL VITE_API_URL +:+ "/api/users/me".
Proof.
  apply (finalUrl_plural VITE_API_URL "/api/user" "/api/users" "/me").
  unfold ENDPOINT_MAP. apply list_elem_of_further, list_elem_of_here.
Qed.

(** X8. A login answered with a token but no user stores the token and then
    asks [/api/users/me] for the profile, with the new token as bearer;
    the login resolves whatever becomes of that second call, falling back
    on a user made of the e-mail alone. *)
Theorem login_fetches_profile_with_new_token (email password : string) (w : world)
    (res : response) (fields dfields : list (string * json)) (s : string) :
  server (loginRq email password) = Some res ->
  ok res = true ->
  body_json res = Some (JObj fields) ->
  JS.assoc "data" fields = Some (JObj dfields) ->
  JS.assoc "token" dfields = Some (JStr s) -> s <> "" ->
  JS.truthy (JS.assoc "user" dfields) = false ->
  let out := login' email password w in
  let w1 := setItem "token" s (log_request (loginRq email password) w) in
  let meRq := requestOf VITE_API_URL "/api/users/me" no_options w1 in
  let me := apiRequest VITE_API_URL server "/api/users/me" no_options w1 in
  dispatched out.2 = dispatched w ++ [loginRq email password; meRq]
  /\ req_url meRq = BASE_URL VITE_API_URL +:+ "/api/users/me"
  /\ req_headers meRq !! "Authorization" = Some ("Bearer " +:+ s)
  /\ (forall e, me.1 = inl e ->
        out.1 = inr {| token := JStr s;
                       user := Some (JObj [("email", JStr email)]) |}
        /\ localStorage out.2 !! "user" = localStorage w !! "user")
  /\ (forall v, me.1 = inr (Some v) ->
        out.1 = inr {| token := JStr s; user := Some v |}
        /\ localStorage out.2 !! "user" = Some (JSON_stringify v)).
Proof.
  intros Hs Hok Hj Hd Ht Hne Hu out w1 meRq me.
  assert (Htt : JSString.truthy s = true)
    by (unfold JSString.truthy; destruct (String.eqb_spec s ""); [congruence|reflexivity]).
  assert (Hout : out = match me with
                       | (inr userResponse, w2) =>
                           (inr {| token := JStr s; user := userResponse |},
                            setItem "user"
                              (match userResponse with
                               | Some j => JSON_stringify j
                               | None => "undefined"
                               end) w2)
                       | (inl _, w2) =>
                           (inr {| token := JStr s;
                                   user := Some (JObj [("email", JStr email)]) |}, w2)
                       end).
  { subst out me w1.
    cbv beta iota zeta delta [login try_catch bind fetch ret throw of_get].
    fold (loginRq email password). rewrite Hs, Hj, Hok.
    cbn [negb JS.get JS.opt_get]. rewrite Hd. cbn [JS.opt_get JS.get].
    rewrite Ht. cbn [JS.truthy]. rewrite Htt. cbn [negb]. rewrite ?Htt, Hu.
    cbn [negb String_]. cbv beta iota zeta delta [modify setUserForLogging].
    destruct (apiRequest VITE_API_URL server "/api/users/me" no_options _)
      as [[e|v] w2]; reflexivity. }
  pose proof (apiRequest_log VITE_API_URL server "/api/users/me" no_options w1) as Hlog.
  pose proof (apiRequest_other_keys VITE_API_URL server "/api/users/me"
                no_options w1) as Hkeys.
  fold me in Hlog, Hkeys. fold meRq in Hlog.
  split_and!.
  - rewrite Hout. destruct me as [[e|v] w2]; cbn [snd] in *;
      cbn [setItem dispatched]; rewrite Hlog; subst w1;
      cbn [setItem log_request dispatched]; now rewrite <- app_assoc.
  - subst meRq. cbn [requestOf req_url]. apply finalUrl_users_me.
  - destruct (requestOf_headers VITE_API_URL "/api/users/me" no_options w1)
      as (Hb & _).
    apply Hb; [|exact Hne|reflexivity].
    subst w1. cbn [setItem localStorage]. apply lookup_insert_eq.
  - intros e He. rewrite Hout. destruct me as [[e'|v] w2]; [|discriminate].
    split; [reflexivity|]. cbn [snd] in *. rewrite Hkeys by done.
    subst w1. cbn [setItem log_request localStorage]. now rewrite lookup_insert_ne.
  - intros v Hv. rewrite Hout. destruct me as [[e'|v'] w2]; [discriminate|].
    cbn [fst] in Hv. injection Hv as ->. split; [reflexivity|].
    cbn [snd setItem localStorage]. apply lookup_insert_eq.
Qed.

End LoginProfile.

Lemma login_fetches_profile_with_new_token_witness :
  Api.req_headers
    (requestOf None "/api/users/me" Api.no_options
       (Api.setItem "token" "tok-9"
          (Api.log_request
             (loginRequest None plainStringify noTrim "ann@example.com" "secret")
             freshWorld))) !! "Authorization"
  = Some ("Bearer " +:+ "tok-9").
Proof.
  refine (proj1 (proj2 (proj2 (login_fetches_profile_with_new_token None
            (always tokenOnlyLogin) plainStringify plainString noTrim
            "ann@example.com" "secret" freshWorld tokenOnlyLogin
            [("data", JObj [("token", JStr "tok-9")])]
            [("token", JStr "tok-9")] "tok-9"
            eq_refl eq_refl eq_refl eq_refl eq_refl _ eq_refl)))).
  discriminate.
Defined.

(** ** Logging out, and the CRUD helpers *)

Section LogoutAndCrud.

Import Api.

Variable VITE_API_URL : option string.
Variable server : request -> option response.
Variable JSON_stringify : json -> string.

Lemma finalUrl_logout :
  finalUrl VITE_API_URL "/logout" = BASE_URL VITE_API_URL +:+ "/logout".
Proof. rewrite finalUrl_unfold. now rewrite !rewriteEndpoint_skip by reflexivity. Qed.

(** X9. [logout] never rejects and always ends without a token in the store,
    whatever the server says; its one request is a POST to [/logout],
    which is not among the auth endpoints of [apiRequest] and so carries
    the bearer token being given up. *)
Theorem logout_always_drops_token (w : world) :
  let out := logout VITE_API_URL server w in
  let rq := requestOf VITE_API_URL "/logout"
              {| method := Some "POST"; headers := ∅; init_body := None |} w in
  out.1 = inr tt
  /\ localStorage out.2 = delete "token" (localStorage w)
  /\ dispatched out.2 = dispatched w ++ [rq]
  /\ req_url rq = BASE_URL VITE_API_URL +:+ "/logout"
  /\ req_method rq = Some "POST"
  /\ (forall t, localStorage w !! "token" = Some t -> t <> "" ->
        req_headers rq !! "Authorization" = Some ("Bearer " +:+ t)).
Proof.
  intros out rq. subst out.
  set (opts := {| method := Some "POST"; headers := ∅; init_body := None |}) in *.
  pose proof (apiRequest_log VITE_API_URL server "/logout" opts w) as Hlog.
  pose proof (apiRequest_gentle VITE_API_URL server "/logout" opts w) as [Hls _].
  fold rq in Hlog.
  unfold logout. fold opts. unfold try_catch, bind, ret, modify.
  destruct (apiRequest VITE_API_URL server "/logout" opts w) as [[e|v] w1];
    cbn [fst snd removeItem localStorage dispatched] in *;
    (split_and!;
     [ reflexivity
     | destruct Hls as [-> | ->]; now rewrite ?delete_delete_eq
     | exact Hlog
     | apply finalUrl_logout
     | reflexivity
     | intros t Ht Hne;
       destruct (requestOf_headers VITE_API_URL "/logout" opts w) as (Hb & _);
       now apply Hb ]).
Qed.

(** X10. The CRUD helpers called on a singular endpoint reach the plural
    resource: one request each, with the method of the operation, to the
    collection or to the item under it. *)
Theorem crud_helpers_reach_plural_resource
    (singular plural id : string) (data : json) (w : world) :
  (singular, plural) ∈ ENDPOINT_MAP ->
  JSString.includes (BASE_URL VITE_API_URL) singular = false ->
  let base := BASE_URL VITE_API_URL in
  reaches (getItems VITE_API_URL server singular) w (base +:+ plural) None
  /\ reaches (getItem VITE_API_URL server singular id) w
       (base +:+ plural +:+ "/" +:+ id) None
  /\ reaches (createItem VITE_API_URL server JSON_stringify singular data) w
       (base +:+ plural) (Some "POST")
  /\ reaches (updateItem VITE_API_URL server JSON_stringify singular id data) w
       (base +:+ plural +:+ "/" +:+ id) (Some "PUT")
  /\ reaches (deleteItem VITE_API_URL server singular id) w
       (base +:+ plural +:+ "/" +:+ id) (Some "DELETE").
Proof.
  intros Hin HB base. subst base. unfold reaches.
  assert (Hcoll : finalUrl VITE_API_URL singular = BASE_URL VITE_API_URL +:+ plural).
  { rewrite <- (append_nil_r singular), <- (append_nil_r plural).
    apply finalUrl_singular; auto. }
  assert (Hitem : finalUrl VITE_API_URL (singular +:+ "/" +:+ id)
                  = BASE_URL VITE_API_URL +:+ plural +:+ "/" +:+ id).
  { apply finalUrl_singular; auto. right. apply prefix_app_self. }
  split_and!; eexists; unfold getItems, getItem, createItem, updateItem, deleteItem.
  - rewrite apiRequest_log. split_and!; [reflexivity|exact Hcoll|reflexivity].
  - rewrite apiRequest_log. split_and!; [reflexivity|exact Hitem|reflexivity].
  - rewrite apiRequest_log. split_and!; [reflexivity|exact Hcoll|reflexivity].
  - rewrite apiRequest_log. split_and!; [reflexivity|exact Hitem|reflexivity].
  - unfold bind, ret.
    pose proof (apiRequest_log VITE_API_URL server (singular +:+ "/" +:+ id)
                  {| method := Some "DELETE"; headers := ∅; init_body := None |} w)
      as Hlog.
    destruct (apiRequest _ _ _ _ w) as [[e|v] w1]; cbn [snd] in *;
      (split_and!; [exact Hlog|exact Hitem|reflexivity]).
Qed.

End LogoutAndCrud.

Lemma crud_helpers_reach_plural_resource_witness :
  reaches (Api.deleteItem None offline "/api/task" "t-1") freshWorld
    (Api.BASE_URL None +:+ "/api/tasks" +:+ "/" +:+ "t-1") (Some "DELETE").
Proof.
  refine (proj2 (proj2 (proj2 (proj2 (crud_helpers_reach_plural_resource None offline
            plainStringify "/api/task" "/api/tasks" "t-1" JNull freshWorld _ eq_refl))))).
  unfold Api.ENDPOINT_MAP. do 4 apply list_elem_of_further. apply list_elem_of_here.
Defined.

(** ** The authentication context *)

Section AuthContextFacts.

Import AuthContext.

Variable VITE_API_URL : option string.
Variable server : Api.request -> option Api.response.
Variable JSON_stringify : json -> string.
Variable String_of : json -> string.
Variable trim : string -> string.

Lemma finalUrl_auth_logout :
  Api.finalUrl VITE_API_URL "/api/auth/logout"
  = Api.BASE_URL VITE_API_URL +:+ "/api/auth/logout".
Proof. rewrite finalUrl_unfold. now rewrite !rewriteEndpoint_skip by reflexivity. Qed.

(** X11. Logging out of the context never rejects and always ends signed out:
    no user, no token, whatever the server says. Its request goes to
    [/api/auth/logout], an auth endpoint, so the token is not sent along. *)
Theorem context_logout_signs_out (s : AuthState) :
  let out := logout VITE_API_URL server s in
  let rq := requestOf VITE_API_URL "/api/auth/logout"
              {| Api.method := Some "POST"; Api.headers := ∅;
                 Api.init_body := None |} (world s) in
  out.1 = inr tt
  /\ user out.2 = None
  /\ Api.localStorage (world out.2) = delete "token" (Api.localStorage (world s))
  /\ loading out.2 = loading s
  /\ Api.dispatched (world out.2) = Api.dispatched (world s) ++ [rq]
  /\ Api.req_url rq = Api.BASE_URL VITE_API_URL +:+ "/api/auth/logout"
  /\ Api.req_headers rq !! "Authorization" = None.
Proof.
  intros out rq. subst out.
  set (opts := {| Api.method := Some "POST"; Api.headers := ∅;
                  Api.init_body := None |}) in *.
  pose proof (apiRequest_log VITE_API_URL server "/api/auth/logout" opts (world s))
    as Hlog.
  pose proof (apiRequest_gentle VITE_API_URL server "/api/auth/logout" opts (world s))
    as [Hls _].
  fold rq in Hlog.
  unfold logout. fold opts. unfold finally, try_catch, bind, ret, liftWorld.
  destruct (Api.apiRequest VITE_API_URL server "/api/auth/logout" opts (world s))
    as [[e|v] w1];
    cbn [fst snd setUser onWorld user world loading Api.removeItem
         Api.localStorage Api.dispatched] in *;
    (split_and!;
     [ reflexivity | reflexivity
     | destruct Hls as [-> | ->]; now rewrite ?delete_delete_eq
     | reflexivity
     | exact Hlog
     | apply finalUrl_auth_logout
     | destruct (requestOf_headers VITE_API_URL "/api/auth/logout" opts (world s))
         as (_ & Ha & _);
       destruct (Ha eq_refl) as [Hh _]; subst rq; rewrite Hh; apply lookup_empty ]).
Qed.

(** X12. The mount effect. Without a stored token it sends nothing; with one
    it asks for the profile, keeps the answer as the user, and on any
    failure removes the token; in every case loading ends. *)
Theorem checkAuth_outcomes (s : AuthState) :
  let out := checkAuth VITE_API_URL server s in
  let me := Api.apiRequest VITE_API_URL server "/api/users/me" Api.no_options
              (world s) in
  out.1 = inr tt
  /\ loading out.2 = false
  /\ (truthy_str (Api.localStorage (world s) !! "token") = false ->
      world out.2 = world s /\ user out.2 = user s)
  /\ (truthy_str (Api.localStorage (world s) !! "token") = true ->
      (forall v, me.1 = inr v -> user out.2 = v /\ world out.2 = me.2)
      /\ (forall e, me.1 = inl e ->
            user out.2 = user s
            /\ Api.localStorage (world out.2) !! "token" = None)).
Proof.
  intros out me. subst out. unfold checkAuth. rewrite bind_gets.
  destruct (truthy_str (Api.localStorage (world s) !! "token")) eqn:Ht; cbn [negb].
  - unfold finally, try_catch, bind, liftWorld, modify. fold me.
    destruct me as [[e|v] w1];
      cbn [fst snd setUser setLoading onWorld user world loading];
      (split_and!; [reflexivity|reflexivity|discriminate|]).
    + intros _. split; [discriminate|]. intros e' _. split; [reflexivity|].
      apply lookup_delete_eq.
    + intros _. split; [|discriminate]. intros v' [= <-]. split; reflexivity.
  - unfold modify. cbn. split_and!; [reflexivity|reflexivity| |discriminate].
    intros _. split; reflexivity.
Qed.

(** X13. Logging in through the context. When the API login rejects, or
    resolves without a user, the context rejects, holds no user and the
    store holds no token; when it resolves with a token and a user, the
    context holds that user and the store that token; loading ends in
    every case. *)
Theorem context_login_outcomes (email password : string) (s : AuthState) :
  let out := login VITE_API_URL server JSON_stringify String_of trim
               email password s in
  let api := Api.login VITE_API_URL server JSON_stringify String_of trim
               email password (world s) in
  loading out.2 = false
  /\ (forall e, api.1 = inl e ->
        out.1 = inl e /\ user out.2 = None
        /\ Api.localStorage (world out.2) !! "token" = None)
  /\ (forall r, api.1 = inr r ->
        JS.truthy (Some (Api.token r)) = true -> JS.truthy (Api.user r) = false ->
        out.1 = inl (Error "No user data received") /\ user out.2 = None
        /\ Api.localStorage (world out.2) !! "token" = None)
  /\ (forall r, api.1 = inr r ->
        JS.truthy (Some (Api.token r)) = true -> JS.truthy (Api.user r) = true ->
        out.1 = inr r /\ user out.2 = Api.user r
        /\ Api.localStorage (world out.2) !! "token"
           = Some (Api.String_ String_of (Api.token r))).
Proof.
  intros out api. subst out.
  unfold login, finally, try_catch, bind, liftWorld, modify, throw, ret.
  cbn [world setLoading]. fold api.
  destruct api as [[e|r] w1]; cbn [fst snd].
  - split_and!; [reflexivity| |discriminate|discriminate].
    intros e' [= <-]. split_and!; [reflexivity|reflexivity|].
    cbn. apply lookup_delete_eq.
  - destruct (JS.truthy (Some (Api.token r))) eqn:Ht; cbn [negb].
    + destruct (JS.truthy (Api.user r)) eqn:Hu; cbn [negb].
      * unfold Api.setUserForLogging, modify.
        split_and!; [reflexivity|discriminate|intros r' [= <-] ? ?; congruence|].
        intros r' [= <-] _ _. split_and!; [reflexivity|reflexivity|].
        cbn. rewrite lookup_insert_ne by done. apply lookup_insert_eq.
      * split_and!; [reflexivity|discriminate| |intros r' [= <-] ? ?; congruence].
        intros r' [= <-] _ _. split_and!; [reflexivity|reflexivity|].
        cbn. apply lookup_delete_eq.
    + split_and!; [reflexivity|discriminate|intros r' [= <-] ? ?; congruence
                  |intros r' [= <-] ? ?; congruence].
Qed.

End AuthContextFacts.

(** ** Grouping tasks by order *)

Section Grouping.

Import POManagementPageIO.

Lemma inherited_nonempty (k : string) : inherited k = true -> JSString.truthy k = true.
Proof.
  intros Hk. apply truthy_nonempty. intros ->. discriminate Hk.
Qed.

Lemma filter_nil_iff (k : string) (l : list Task) :
  filter (TaskManagementPage.ofOrder k) l = [] <->
  forall t, t ∈ l -> orderId t ≠ k.
Proof.
  split.
  - intros He t Ht Hk.
    assert (t ∈ filter (TaskManagementPage.ofOrder k) l) as Hin
      by (apply list_elem_of_filter; split; [exact Hk|exact Ht]).
    rewrite He in Hin. now apply elem_of_nil in Hin.
  - intros H. destruct (filter _ l) as [|t r] eqn:He; [reflexivity|].
    assert (t ∈ filter (TaskManagementPage.ofOrder k) l) as Hin
      by (rewrite He; apply list_elem_of_here).
    apply list_elem_of_filter in Hin as [Hk Ht]. destruct (H t Ht Hk).
Qed.

Ltac group_case :=
  repeat case_decide; try reflexivity;
  try (exfalso; unfold TaskManagementPage.ofOrder in *; intuition congruence);
  first
    [ match goal with
      | H : _ \/ filter _ _ = [] |- _ =>
          destruct H as [?| ->];
          [exfalso; unfold TaskManagementPage.ofOrder in *; intuition congruence
          |reflexivity]
      | H : filter _ _ = [] |- _ => rewrite H; reflexivity
      end
    | cbn [default from_option id]; rewrite <- app_assoc; reflexivity ].

(** One step of the loop of [fetchOrders] on a task whose order id
    names nothing inherited. *)
Lemma groupStep_plain (acc : gmap string (list Task)) (t : Task) :
  inherited (orderId t) = false ->
  exists acc',
    groupStep acc t = inr acc'
    /\ forall k, acc' !! k
                 = if decide (k ≠ "" /\ orderId t = k)
                   then Some (default [] (acc !! k) ++ [t]) else acc !! k.
Proof.
  intros Hn. unfold groupStep.
  destruct (JSString.truthy (orderId t)) eqn:Ht.
  - apply truthy_nonempty in Ht.
    assert (Hins : forall g k,
              <[orderId t := g]> acc !! k
              = if decide (k ≠ "" /\ orderId t = k) then Some g else acc !! k).
    { intros g k. destruct (decide (orderId t = k)) as [<-|Hk].
      - rewrite lookup_insert_eq, decide_True by tauto. reflexivity.
      - rewrite lookup_insert_ne, decide_False by tauto. reflexivity. }
    destruct (acc !! orderId t) as [g|] eqn:Hg; rewrite ?Hn; eexists;
      (split; [reflexivity|]); intros k; rewrite Hins;
      destruct (decide _) as [[_ <-]|]; rewrite ?Hg; reflexivity.
  - exists acc. split; [reflexivity|]. intros k.
    rewrite decide_False; [reflexivity|]. intros [Hk <-].
    apply truthy_nonempty in Hk. congruence.
Qed.

Lemma groupTasks_acc (tasksData : list Task) (acc : gmap string (list Task)) :
  (forall t, t ∈ tasksData -> inherited (orderId t) = false) ->
  exists m,
    fold_throwing groupStep tasksData acc = inr m
    /\ forall k, m !! k
                 = if decide (k = "" \/ filter (TaskManagementPage.ofOrder k) tasksData = [])
                   then acc !! k
                   else Some (default [] (acc !! k)
                              ++ filter (TaskManagementPage.ofOrder k) tasksData).
Proof.
  revert acc. induction tasksData as [|t ts IH]; intros acc Hall.
  { exists acc. split; [reflexivity|]. intros k.
    rewrite decide_True by (right; reflexivity). reflexivity. }
  destruct (groupStep_plain acc t) as (acc1 & Hstep & Hacc1);
    [apply Hall, list_elem_of_here|].
  destruct (IH acc1) as (m & Hm & Hlook);
    [intros t' Ht'; apply Hall, list_elem_of_further, Ht'|].
  exists m. split; [cbn [fold_throwing]; now rewrite Hstep|].
  intros k. rewrite Hlook, Hacc1, filter_cons. group_case.
Qed.

(** The loop throws at the first task whose order id names something
    inherited, as long as the object has no such key of its own. *)
Lemma fold_throwing_inherited
    (step : gmap string (list Task) -> Task -> error + gmap string (list Task))
    (tasksData : list Task) (acc : gmap string (list Task)) :
  (forall a t, inherited (orderId t) = true -> a !! orderId t = None ->
               step a t = inl TypeError) ->
  (forall a t a', inherited (orderId t) = false -> step a t = inr a' ->
                  forall k, inherited k = true -> a !! k = None -> a' !! k = None) ->
  (forall a t, inherited (orderId t) = false -> exists a', step a t = inr a') ->
  (forall k, inherited k = true -> acc !! k = None) ->
  (exists t, t ∈ tasksData /\ inherited (orderId t) = true) ->
  fold_throwing step tasksData acc = inl TypeError.
Proof.
  intros Hthrow Hkeep Hgo. revert acc.
  induction tasksData as [|t ts IH]; intros acc Hacc (t' & Hin & Ht').
  { now apply elem_of_nil in Hin. }
  cbn [fold_throwing]. destruct (inherited (orderId t)) eqn:Ht.
  - rewrite Hthrow; [reflexivity|exact Ht|now apply Hacc].
  - destruct (Hgo acc t Ht) as (a' & Ha'). rewrite Ha'. apply IH.
    + intros k Hk. apply (Hkeep acc t a' Ht Ha' k Hk), Hacc, Hk.
    + exists t'. split; [|exact Ht'].
      apply elem_of_cons in Hin as [->|Hin]; [congruence|exact Hin].
Qed.

Lemma groupTasks_throws (tasksData : list Task) :
  (exists t, t ∈ tasksData /\ inherited (orderId t) = true) ->
  groupTasks tasksData = inl TypeError.
Proof.
  apply fold_throwing_inherited.
  - intros a t Ht Ha. unfold groupStep.
    now rewrite (inherited_nonempty _ Ht), Ha, Ht.
  - intros a t a' Ht Hs k Hk Ha.
    destruct (groupStep_plain a t Ht) as (a1 & Hs1 & Hl). rewrite Hs in Hs1.
    injection Hs1 as <-. rewrite Hl. destruct (decide _) as [[_ <-]|]; [congruence|exact Ha].
  - intros a t Ht. destruct (groupStep_plain a t Ht) as (a' & Hs & _). eauto.
  - intros k _. apply lookup_empty.
Qed.

(** One step of the [reduce] of the task page on a task whose order id
    names nothing inherited. *)
Lemma reduceStep_plain (acc : gmap string (list Task)) (t : Task) :
  inherited (orderId t) = false ->
  exists acc',
    TaskManagementPage.reduceStep acc t = inr acc'
    /\ forall k, acc' !! k
                 = if decide (orderId t = k)
                   then Some (default [] (acc !! k) ++ [t]) else acc !! k.
Proof.
  intros Hn. unfold TaskManagementPage.reduceStep.
  destruct (acc !! orderId t) as [g|] eqn:Hg; rewrite ?Hn; eexists;
    (split; [reflexivity|]); intros k;
    (destruct (decide (orderId t = k)) as [<-|Hk];
     [rewrite lookup_insert_eq, Hg; reflexivity
     |rewrite lookup_insert_ne by exact Hk; reflexivity]).
Qed.

Lemma tasksByOrder_acc (allTasks : list Task) (acc : gmap string (list Task)) :
  (forall t, t ∈ allTasks -> inherited (orderId t) = false) ->
  exists m,
    fold_throwing TaskManagementPage.reduceStep allTasks acc = inr m
    /\ forall k, m !! k
                 = if decide (filter (TaskManagementPage.ofOrder k) allTasks = [])
                   then acc !! k
                   else Some (default [] (acc !! k)
                              ++ filter (TaskManagementPage.ofOrder k) allTasks).
Proof.
  revert acc. induction allTasks as [|t ts IH]; intros acc Hall.
  { exists acc. split; [reflexivity|]. intros k. reflexivity. }
  destruct (reduceStep_plain acc t) as (acc1 & Hstep & Hacc1);
    [apply Hall, list_elem_of_here|].
  destruct (IH acc1) as (m & Hm & Hlook);
    [intros t' Ht'; apply Hall, list_elem_of_further, Ht'|].
  exists m. split; [cbn [fold_throwing]; now rewrite Hstep|].
  intros k. rewrite Hlook, Hacc1, filter_cons. group_case.
Qed.

Lemma tasksByOrder_throws (allTasks : list Task) :
  (exists t, t ∈ allTasks /\ inherited (orderId t) = true) ->
  TaskManagementPage.tasksByOrder allTasks = inl TypeError.
Proof.
  apply fold_throwing_inherited.
  - intros a t Ht Ha. unfold TaskManagementPage.reduceStep. now rewrite Ha, Ht.
  - intros a t a' Ht Hs k Hk Ha.
    destruct (reduceStep_plain a t Ht) as (a1 & Hs1 & Hl). rewrite Hs in Hs1.
    injection Hs1 as <-. rewrite Hl. destruct (decide _) as [<-|]; [congruence|exact Ha].
  - intros a t Ht. destruct (reduceStep_plain a t Ht) as (a' & Hs & _). eauto.
  - intros k _. apply lookup_empty.
Qed.

(** X14. What [fetchOrders] makes of the fetched tasks. When a task
    carries an order id that names a member of [Object.prototype], the
    loop throws and no grouping is stored. Otherwise a grouping is
    stored, and what it holds under an id is exactly this: nothing for
    the empty id and for an id that no fetched task carries, and else
    the list of the fetched tasks that carry it, in the order they were
    fetched. *)
Theorem fetched_groups_are_the_tasks_of_the_order (tasksData : list Task) :
  ((exists t, t ∈ tasksData /\ inherited (orderId t) = true) ->
   groupTasks tasksData = inl TypeError)
  /\ ((forall t, t ∈ tasksData -> inherited (orderId t) = false) ->
      exists stored,
        groupTasks tasksData = inr stored
        /\ forall k,
             stored !! k
             = (if decide (k = "" \/ filter (TaskManagementPage.ofOrder k) tasksData = [])
                then None
                else Some (filter (TaskManagementPage.ofOrder k) tasksData))
             /\ (stored !! k = None <->
                 k = "" \/ forall t, t ∈ tasksData -> orderId t ≠ k)).
Proof.
  split; [apply groupTasks_throws|].
  intros Hall. destruct (groupTasks_acc tasksData ∅ Hall) as (m & Hm & Hlook).
  exists m. split; [exact Hm|]. intros k. rewrite Hlook, lookup_empty.
  split; [reflexivity|].
  rewrite <- filter_nil_iff. destruct (decide _) as [H|H]; [tauto|].
  split; [discriminate|tauto].
Qed.

Lemma fetched_groups_are_the_tasks_of_the_order_witness :
  groupTasks [sampleTask "t1" "po1" "Pending"; sampleTask "t2" "constructor" "Pending"]
  = inl TypeError
  /\ exists stored,
       groupTasks [sampleTask "t1" "po1" "Pending"; sampleTask "t2" "" "Completed"]
       = inr stored
       /\ stored !! "po1" = Some [sampleTask "t1" "po1" "Pending"]
       /\ stored !! "" = None.
Proof.
  split.
  - apply (proj1 (fetched_groups_are_the_tasks_of_the_order
                    [sampleTask "t1" "po1" "Pending";
                     sampleTask "t2" "constructor" "Pending"])).
    exists (sampleTask "t2" "constructor" "Pending").
    split; [apply list_elem_of_further, list_elem_of_here|reflexivity].
  - destruct (proj2 (fetched_groups_are_the_tasks_of_the_order
                       [sampleTask "t1" "po1" "Pending";
                        sampleTask "t2" "" "Completed"]))
      as (stored & Hs & Hl).
    + intros t Ht. repeat (apply elem_of_cons in Ht as [->|Ht]; [reflexivity|]).
      now apply elem_of_nil in Ht.
    + exists stored. split; [exact Hs|]. split.
      * rewrite (proj1 (Hl "po1")). reflexivity.
      * rewrite (proj1 (Hl "")). reflexivity.
Defined.

(** X15. After a [fetchOrders] whose tasks carry no order id that names
    a member of [Object.prototype], a grouping is stored, and for an
    order id that names no such member either [areAllTasksCompleted]
    holds exactly when the id is not empty, at least one fetched task
    carries it, and every fetched task that carries it is Completed. *)
Theorem all_completed_after_fetch (tasksData : list Task) (k : string) :
  (forall t, t ∈ tasksData -> inherited (orderId t) = false) ->
  inherited k = false ->
  exists stored,
    groupTasks tasksData = inr stored
    /\ (POManagementPage.areAllTasksCompleted stored k = true <->
        k ≠ "" /\ (exists t, t ∈ tasksData /\ orderId t = k)
        /\ (forall t, t ∈ tasksData -> orderId t = k -> task_status t = "Completed")).
Proof.
  intros Hall _. destruct (groupTasks_acc tasksData ∅ Hall) as (m & Hm & Hlook).
  exists m. split; [exact Hm|].
  unfold POManagementPage.areAllTasksCompleted.
  rewrite Hlook, lookup_empty. cbn [default from_option id app].
  destruct (decide _) as [H|H]; cbn [default from_option id length Nat.eqb].
  - split; [discriminate|]. intros (Hk & (t & Ht & Hkt) & _).
    destruct H as [H|H]; [congruence|].
    exfalso. eapply filter_nil_iff; eauto.
  - assert (k ≠ "") as Hk by tauto.
    destruct (filter _ tasksData) as [|t0 r] eqn:He; [tauto|].
    cbn [length Nat.eqb]. rewrite <- He.
    rewrite forallb_forall. split.
    + intros Hc. split_and!; [exact Hk| |].
      * assert (t0 ∈ filter (TaskManagementPage.ofOrder k) tasksData) as Hin
          by (rewrite He; apply list_elem_of_here).
        apply list_elem_of_filter in Hin as [? ?]. exists t0. split; assumption.
      * intros t Ht Hkt. apply String.eqb_eq, Hc, list_elem_of_In.
        apply list_elem_of_filter. split; assumption.
    + intros (_ & _ & Hc) t Ht. apply list_elem_of_In, list_elem_of_filter in Ht as [? ?].
      apply String.eqb_eq. auto.
Qed.

Lemma all_completed_after_fetch_witness :
  exists stored,
    groupTasks [sampleTask "t1" "po1" "Completed"; sampleTask "t2" "po2" "Pending"]
    = inr stored
    /\ POManagementPage.areAllTasksCompleted stored "po1" = true.
Proof.
  destruct (all_completed_after_fetch
              [sampleTask "t1" "po1" "Completed"; sampleTask "t2" "po2" "Pending"]
              "po1") as (stored & Hs & Hiff).
  - intros t Ht. repeat (apply elem_of_cons in Ht as [->|Ht]; [reflexivity|]).
    now apply elem_of_nil in Ht.
  - reflexivity.
  - exists stored. split; [exact Hs|]. apply Hiff. split_and!.
    + discriminate.
    + exists (sampleTask "t1" "po1" "Completed").
      split; [apply list_elem_of_here|reflexivity].
    + intros t Ht Hk.
      repeat (apply elem_of_cons in Ht as [->|Ht]; [first [reflexivity|discriminate Hk]|]).
      now apply elem_of_nil in Ht.
Defined.

(** X16. The [reduce] of the task page throws when a task carries an
    order id that names a member of [Object.prototype]. Otherwise it
    keeps every task in the group of its order id, also under the empty
    id; deleting a task afterwards filters each group and leaves the key
    of an emptied group in place, which grouping the remaining tasks
    would not have. *)
Theorem delete_after_grouping (allTasks : list Task) (taskId k : string) :
  ((exists t, t ∈ allTasks /\ inherited (orderId t) = true) ->
   TaskManagementPage.tasksByOrder allTasks = inl TypeError)
  /\ ((forall t, t ∈ allTasks -> inherited (orderId t) = false) ->
      (exists t, t ∈ allTasks /\ orderId t = k) ->
      let remaining := filter (TaskManagementPage.otherThan taskId) allTasks in
      exists grouped regrouped,
        TaskManagementPage.tasksByOrder allTasks = inr grouped
        /\ grouped !! k = Some (filter (TaskManagementPage.ofOrder k) allTasks)
        /\ (filter (TaskManagementPage.otherThan taskId) <$> grouped) !! k
           = Some (filter (TaskManagementPage.ofOrder k) remaining)
        /\ TaskManagementPage.tasksByOrder remaining = inr regrouped
        /\ regrouped !! k
           = if decide (filter (TaskManagementPage.ofOrder k) remaining = [])
             then None
             else Some (filter (TaskManagementPage.ofOrder k) remaining)).
Proof.
  split; [apply tasksByOrder_throws|].
  intros Hall (t & Ht & Hk) remaining.
  destruct (tasksByOrder_acc allTasks ∅ Hall) as (m & Hm & Hlook).
  destruct (tasksByOrder_acc remaining ∅) as (m' & Hm' & Hlook').
  { intros t' Ht'. apply list_elem_of_filter in Ht' as [_ Ht']. now apply Hall. }
  assert (Hg : m !! k = Some (filter (TaskManagementPage.ofOrder k) allTasks)).
  { rewrite Hlook, lookup_empty. rewrite decide_False; [reflexivity|].
    intros He. eapply filter_nil_iff; eauto. }
  exists m, m'. split_and!; [exact Hm|exact Hg| |exact Hm'|].
  - rewrite lookup_fmap, Hg. cbn [fmap option_fmap option_map]. f_equal.
    subst remaining. clear. induction allTasks as [|a l IH]; [reflexivity|].
    rewrite !filter_cons.
    destruct (decide (TaskManagementPage.ofOrder k a)),
             (decide (TaskManagementPage.otherThan taskId a));
      rewrite ?filter_cons; repeat case_decide; try tauto; rewrite ?IH; reflexivity.
  - rewrite Hlook', lookup_empty. reflexivity.
Qed.

Lemma delete_after_grouping_witness :
  exists grouped regrouped,
    TaskManagementPage.tasksByOrder [sampleTask "t1" "po1" "Pending"] = inr grouped
    /\ (filter (TaskManagementPage.otherThan "t1") <$> grouped) !! "po1" = Some []
    /\ TaskManagementPage.tasksByOrder
         (filter (TaskManagementPage.otherThan "t1") [sampleTask "t1" "po1" "Pending"])
       = inr regrouped
    /\ regrouped !! "po1" = None.
Proof.
  destruct (proj2 (delete_after_grouping [sampleTask "t1" "po1" "Pending"] "t1" "po1"))
    as (grouped & regrouped & Hg & _ & Hd & Hr & Hl).
  - intros t Ht. apply list_elem_of_singleton in Ht as ->. reflexivity.
  - exists (sampleTask "t1" "po1" "Pending"). split; [apply list_elem_of_here|reflexivity].
  - exists grouped, regrouped. split_and!; [exact Hg|exact Hd|exact Hr|exact Hl].
Defined.

End Grouping.

(** ** The handlers of the PO page *)

Section POHandlers.

Import POManagementPageIO.

Variable VITE_API_URL : option string.
Variable server : Api.request -> option Api.response.
Variable JSON_stringify : json -> string.
Variable String_of : json -> string.
Variable engineMessage : error -> string.

(** What [apiRequest] resolves to is never [null] or [undefined]. *)
Lemma apiRequest_resolves_to_a_value (url : string) (options : Api.RequestInit)
    (w : Api.world) (v : jsval) :
  (Api.apiRequest VITE_API_URL server url options w).1 = inr v ->
  forall k, JS.get v k = Some (JS.opt_get v k).
Proof.
  unfold Api.apiRequest. rewrite bind_gets.
  cbv beta iota zeta delta [try_catch bind Api.fetch ret throw of_get modify].
  destruct (server _) as [res|]; [|discriminate].
  destruct (Api.parseBody options res _) as [[e|data] w1]; [discriminate|].
  destruct (negb (Api.ok res)).
  { repeat case_match; discriminate. }
  intros H k. unfold JS.or in H.
  destruct data; cbn [JS.get JS.opt_get fst] in H; try discriminate;
    repeat case_match; simplify_eq/=; try reflexivity;
    match goal with
    | Ht : JS.truthy ?v = true |- _ =>
        destruct v as [[]|]; try discriminate Ht; reflexivity
    end.
Qed.

Lemma finalUrl_purchase_orders (rest : string) :
  Api.finalUrl VITE_API_URL ("/api/purchase-orders/" +:+ rest)
  = Api.BASE_URL VITE_API_URL +:+ "/api/purchase-orders/" +:+ rest.
Proof.
  rewrite !append_cons, append_nil, finalUrl_unfold.
  now rewrite !rewriteEndpoint_skip by reflexivity.
Qed.

Local Abbreviation call := (Api.apiRequest VITE_API_URL server).
Local Abbreviation settles' := (settles String_of engineMessage).

Ltac settle :=
  unfold settles, try_catch, bind, liftWorld, toast_, fetchOrders, showApiError,
    response_of, modify, onPage, ret;
  match goal with
  | |- context [Api.apiRequest ?a ?b ?u ?o (world ?s)] =>
      destruct (Api.apiRequest a b u o (world s)) as [[e|v] w1]
  end;
  cbn [fst snd page world refetches opened];
  rewrite ?app_nil_r; split_and!; reflexivity.

(** Where these handlers leave the browser: where their call left it. *)
Lemma po_handlers_world (id next : string) (s : IOState) :
  let after (h : M IOState unit) (url : string) (options : Api.RequestInit) :=
    world (h s).2 = (call url options (world s)).2 in
  after (handleApprove VITE_API_URL server String_of engineMessage id)
    ("/api/purchase-orders/" +:+ id +:+ "/approve") (PATCH None)
  /\ after (handleAdvance VITE_API_URL server JSON_stringify String_of engineMessage id next)
       ("/api/purchase-orders/" +:+ id +:+ "/advance")
       (PATCH (Some (JSON_stringify (JObj [("next", JStr next)]))))
  /\ after (handleComplete VITE_API_URL server String_of engineMessage true id)
       ("/api/purchase-orders/" +:+ id +:+ "/complete") (PATCH None)
  /\ after (handleGenerateInvoice VITE_API_URL server String_of engineMessage id)
       ("/api/purchase-orders/" +:+ id +:+ "/invoice") (PATCH None)
  /\ after (handleCancel VITE_API_URL server String_of engineMessage true id)
       ("/api/purchase-orders/" +:+ id)
       {| Api.method := Some "DELETE"; Api.headers := ∅; Api.init_body := None |}.
Proof.
  cbv zeta beta.
  unfold handleApprove, handleAdvance, handleComplete, handleGenerateInvoice,
    handleCancel, try_catch, bind, liftWorld, of_get, toast_, fetchOrders,
    showApiError, response_of, window_open, modify, onPage, ret, throw.
  cbn [negb].
  split_and!;
    match goal with
    | |- context [Api.apiRequest ?a ?b ?u ?o (world ?s0)] =>
        destruct (Api.apiRequest a b u o (world s0)) as [[e|v] w1]
    end;
    cbn [fst snd world]; try reflexivity.
  destruct (JS.get v "invoiceUrl") as [[u|]|]; [destruct (JS.truthy (Some u))| |];
    reflexivity.
Qed.

(** X17. The handlers that change an order never reject and never edit the
    list of orders themselves. When the call resolves they show their
    success toast and fetch the orders again, once; when it rejects they
    show the message of the error, never their own fallback text, and
    fetch nothing. Generating an invoice also opens the invoice URL of
    the answer when it has one. *)
Theorem po_handlers_settle (id next : string) (s : IOState) :
  settles' (call ("/api/purchase-orders/" +:+ id +:+ "/approve") (PATCH None))
    "PO approved" (fun _ => [])
    (handleApprove VITE_API_URL server String_of engineMessage id) s
  /\ settles' (call ("/api/purchase-orders/" +:+ id +:+ "/advance")
                 (PATCH (Some (JSON_stringify (JObj [("next", JStr next)])))))
       "PO status updated" (fun _ => [])
       (handleAdvance VITE_API_URL server JSON_stringify String_of engineMessage id next) s
  /\ settles' (call ("/api/purchase-orders/" +:+ id +:+ "/complete") (PATCH None))
       "Order marked as completed" (fun _ => [])
       (handleComplete VITE_API_URL server String_of engineMessage true id) s
  /\ settles' (call ("/api/purchase-orders/" +:+ id +:+ "/invoice") (PATCH None))
       "Invoice generated" invoiceWindow
       (handleGenerateInvoice VITE_API_URL server String_of engineMessage id) s
  /\ settles' (call ("/api/purchase-orders/" +:+ id)
                 {| Api.method := Some "DELETE"; Api.headers := ∅;
                    Api.init_body := None |})
       "Order deleted successfully" (fun _ => [])
       (handleCancel VITE_API_URL server String_of engineMessage true id) s.
Proof.
  split_and!.
  - unfold handleApprove. settle.
  - unfold handleAdvance. settle.
  - unfold handleComplete. cbn [negb]. settle.
  - unfold handleGenerateInvoice, settles, try_catch, bind, liftWorld, toast_,
      fetchOrders, showApiError, response_of, modify, onPage, ret, window_open.
    pose proof (apiRequest_resolves_to_a_value
                  ("/api/purchase-orders/" +:+ id +:+ "/invoice") (PATCH None) (world s))
      as Hv.
    destruct (Api.apiRequest _ _ _ _ (world s)) as [[e|v] w1];
      cbn [fst snd page world refetches opened] in *.
    + rewrite ?app_nil_r; split_and!; reflexivity.
    + rewrite (Hv v eq_refl "invoiceUrl"). unfold of_get, ret, invoiceWindow.
      destruct (JS.opt_get v "invoiceUrl") as [u|];
        [destruct (JS.truthy (Some u))|];
        cbn [fst snd page world refetches opened];
        rewrite ?app_nil_r; split_and!; reflexivity.
  - unfold handleCancel. cbn [negb]. settle.
Qed.

(** X18. Each of these handlers sends one request of its own (the
    requests of the [fetchOrders] that follows a success are not
    counted here), under [/api/purchase-orders/] and left alone by the
    endpoint map: a PATCH to the action of the order, or a DELETE of the
    order itself for Cancel; Complete and Cancel send nothing when the
    confirmation is declined. *)
Theorem po_handlers_requests (id next : string) (s : IOState) :
  let base := Api.BASE_URL VITE_API_URL +:+ "/api/purchase-orders/" in
  let sent (h : M IOState unit) (url : string) (meth : string) (body_ : option string) :=
    exists rq, Api.dispatched (world (h s).2) = Api.dispatched (world s) ++ [rq]
               /\ Api.req_url rq = url /\ Api.req_method rq = Some meth
               /\ Api.req_body rq = body_ in
  sent (handleApprove VITE_API_URL server String_of engineMessage id)
    (base +:+ id +:+ "/approve") "PATCH" None
  /\ sent (handleAdvance VITE_API_URL server JSON_stringify String_of engineMessage id next)
       (base +:+ id +:+ "/advance") "PATCH"
       (Some (JSON_stringify (JObj [("next", JStr next)])))
  /\ sent (handleComplete VITE_API_URL server String_of engineMessage true id)
       (base +:+ id +:+ "/complete") "PATCH" None
  /\ sent (handleGenerateInvoice VITE_API_URL server String_of engineMessage id)
       (base +:+ id +:+ "/invoice") "PATCH" None
  /\ sent (handleCancel VITE_API_URL server String_of engineMessage true id)
       (base +:+ id) "DELETE" None
  /\ handleComplete VITE_API_URL server String_of engineMessage false id s = (inr tt, s)
  /\ handleCancel VITE_API_URL server String_of engineMessage false id s = (inr tt, s).
Proof.
  intros base sent. subst base sent. cbv beta.
  pose proof (po_handlers_world id next s) as (Ha & Hb & Hc & Hd & He).
  cbv zeta beta in Ha, Hb, Hc, Hd, He.
  split_and!; [| | | | |reflexivity|reflexivity].
  all: eexists.
  1: rewrite Ha. 2: rewrite Hb. 3: rewrite Hc. 4: rewrite Hd. 5: rewrite He.
  all: rewrite apiRequest_log; split_and!;
    [reflexivity|cbn [requestOf Api.req_url]|reflexivity|reflexivity].
  all: rewrite ?finalUrl_purchase_orders, ?append_assoc; reflexivity.
Qed.

End POHandlers.

(** ** The task table on the task page *)

Section TaskTableOnPage.

Import TaskManagementPage.

Variable VITE_API_URL : option string.
Variable server : Api.request -> option Api.response.
Variable JSON_stringify : json -> string.


(** X20. The Delete button of a row on the task page. Both the page's
    handler and the row toast the outcome, so a confirmed delete shows
    its message twice; the row swallows the error that the page
    re-throws, and ends with [isDeleting] false. A declined
    confirmation changes nothing. *)
Theorem row_delete_toasts_twice (task : Task) (st : PageState) (isDeleting : bool) :
  let del := Api.apiRequest VITE_API_URL server ("/api/tasks/" +:+ _id task)
               {| Api.method := Some "DELETE"; Api.headers := ∅;
                  Api.init_body := None |} (world st) in
  let click confirmDelete :=
    TaskTable.handleDelete addToast (Some (handleDeleteTask VITE_API_URL server))
      confirmDelete task (st, isDeleting) in
  click false = (inr tt, (st, isDeleting))
  /\ (click true).1 = inr tt
  /\ (click true).2.2 = false
  /\ world (click true).2.1 = del.2
  /\ match del.1 with
     | inr _ =>
         toasts (click true).2.1
         = toasts st ++ [toast_success "Task deleted successfully";
                         toast_success "Task deleted successfully"]
         /\ tasks (click true).2.1 = filter (otherThan (_id task)) (tasks st)
     | inl _ =>
         toasts (click true).2.1
         = toasts st ++ [toast_error "Failed to delete task";
                         toast_error "Failed to delete task"]
         /\ tasks (click true).2.1 = tasks st
     end.
Proof.
  intros del click. subst del click. cbv beta.
  split; [reflexivity|].
  unfold TaskTable.handleDelete. cbn [negb].
  unfold AuthContext.finally, try_catch, bind, modify. cbn [fst snd].
  rewrite handleDeleteTask_outcome. cbv zeta.
  destruct (Api.apiRequest _ _ _ _ (world st)) as [[e|v] w1];
    cbn [fst snd tasks orderTasks toasts world addToast];
    rewrite <- app_assoc; split_and!; reflexivity.
Qed.

End TaskTableOnPage.

Section TableRows.

Import TaskTable.

(** The id a task is assigned to. *)
Lemma visible_spec (uid role : option string) (task : Task) :
  visible uid role task = true <->
  role = Some "superadmin" \/ role = Some "manager"
  \/ exists u, uid = Some u /\ u ≠ ""
               /\ (assignedTo task = AssigneeId u
                   \/ exists n e, assignedTo task = AssigneeObj n e (Some u)).
Proof.
  unfold visible, role_is. split.
  - destruct role as [r|].
    + destruct (String.eqb_spec r "superadmin") as [->|Hs]; [auto|].
      destruct (String.eqb_spec r "manager") as [->|Hm]; [auto|].
      cbn [orb]. destruct uid as [u|]; [|discriminate].
      destruct (JSString.truthy u) eqn:Hu; [|discriminate]. cbn [negb].
      apply truthy_nonempty in Hu.
      destruct (assignedTo task) as [a|n e [a|]]; try discriminate;
        intros ->%String.eqb_eq; right; right; exists u; eauto 6.
    + cbn [orb]. destruct uid as [u|]; [|discriminate].
      destruct (JSString.truthy u) eqn:Hu; [|discriminate]. cbn [negb].
      apply truthy_nonempty in Hu.
      destruct (assignedTo task) as [a|n e [a|]]; try discriminate;
        intros ->%String.eqb_eq; right; right; exists u; eauto 6.
  - intros [->|[->|(u & -> & Hu & Ha)]]; [reflexivity|reflexivity|].
    apply truthy_nonempty in Hu. rewrite Hu. cbn [negb].
    destruct (match role with Some s => _ | None => false end || _); [reflexivity|].
    destruct Ha as [->|(n & e & ->)]; apply String.eqb_refl.
Qed.

(** X21. What the table shows by role. A superadmin or manager gets a row
    for every task, in order, with the Delete button when the page
    passed [onDelete]; anybody else gets rows only for the tasks
    assigned to the current user id, none at all without an id, and
    never a Delete button. *)
Theorem table_rows_by_role (tasks : list Task) (hasOnDelete : bool)
    (currentUserId currentUserRole : option string) (recentlyCompleted : gset string) :
  let shown := rows tasks hasOnDelete currentUserId currentUserRole recentlyCompleted in
  let privileged := currentUserRole = Some "superadmin" \/ currentUserRole = Some "manager" in
  (privileged -> shown.*1 = tasks)
  /\ (forall row, row ∈ shown ->
        (DeleteButton ∈ row.2 <-> hasOnDelete = true /\ privileged))
  /\ (~ privileged ->
      forall row, row ∈ shown ->
        exists u, currentUserId = Some u /\ u ≠ ""
                  /\ (assignedTo row.1 = AssigneeId u
                      \/ exists n e, assignedTo row.1 = AssigneeObj n e (Some u)))
  /\ (~ privileged -> truthy_str currentUserId = false -> shown = []).
Proof.
  intros shown privileged. subst shown privileged. unfold rows.
  assert (Hrole : role_is currentUserRole "superadmin" || role_is currentUserRole "manager" = true
                  <-> currentUserRole = Some "superadmin" \/ currentUserRole = Some "manager").
  { unfold role_is. destruct currentUserRole as [r|]; cbn [orb].
    - rewrite orb_true_iff, !String.eqb_eq. split; intros [?|?]; simplify_eq; auto.
    - split; [discriminate|]. intros [?|?]; discriminate. }
  split_and!.
  - intros Hp. rewrite <- list_fmap_compose.
    replace (List.filter _ tasks) with tasks.
    + apply list_eq. intros i. rewrite list_lookup_fmap.
      now destruct (tasks !! i).
    + symmetry. apply forallb_filter_id, forallb_forall. intros t _.
      apply visible_spec. tauto.
  - intros row Hin. apply list_elem_of_fmap in Hin as (task & -> & _). cbn [snd].
    unfold TaskRow. cbn [buttonShouldShow andb].
    rewrite <- Hrole, <- andb_true_iff.
    destruct (hasOnDelete && _); cbn [app]; split; try reflexivity; try discriminate.
    + intros _. do 3 apply list_elem_of_further. apply list_elem_of_here.
    + intros Hin. repeat (apply elem_of_cons in Hin as [Hin|Hin]; [discriminate|]).
      now apply elem_of_nil in Hin.
  - intros Hnp row Hin. apply list_elem_of_fmap in Hin as (task & -> & Hin). cbn [fst].
    apply list_elem_of_In, filter_In in Hin as [_ Hv].
    apply visible_spec in Hv as [?|[?|Hv]]; [tauto|tauto|exact Hv].
  - intros Hnp Hu.
    replace (List.filter _ tasks) with (@nil Task); [reflexivity|].
    symmetry. clear -Hnp Hu Hrole. induction tasks as [|t l IH]; [reflexivity|].
    cbn [List.filter]. destruct (visible currentUserId currentUserRole t) eqn:Hv; [|exact IH].
    apply visible_spec in Hv as [?|[?|(u & -> & Hne & _)]]; [tauto|tauto|].
    apply truthy_nonempty in Hne. cbn in Hu. congruence.
Qed.

(** X22. The click on Switch to DO opens the form for the first truthy of
    [purchaseOrderId], [poId] and [purchaseOrder._id]; the [orderId] of
    the task is never used, so a task that carries only that gets the
    error toast. *)
Theorem switch_click_needs_purchase_order_id {S} (addToast : toast -> S -> S)
    (onSwitchToDO : string -> M S unit) (task : Task) (s : S) :
  handleSwitchClick addToast onSwitchToDO task s
  = match first_truthy [purchaseOrderId task; poId task; purchaseOrder_id task] with
    | Some p => onSwitchToDO p s
    | None =>
        (inr tt, addToast (toast_error "Cannot create DO: No purchase order ID found") s)
    end.
Proof.
  unfold handleSwitchClick, switchTarget, or_str, JS.or. cbn [first_truthy].
  destruct (purchaseOrderId task) as [a|]; cbn [truthy_str];
    [destruct (JSString.truthy a) eqn:Ha; cbn [truthy_str]; rewrite ?Ha; cbn [negb];
     [reflexivity|]|];
    (destruct (poId task) as [b|]; cbn [truthy_str];
     [destruct (JSString.truthy b) eqn:Hb; cbn [truthy_str]; rewrite ?Hb; cbn [negb];
      [reflexivity|]|]);
    (destruct (purchaseOrder_id task) as [c|]; cbn [truthy_str];
     [destruct (JSString.truthy c) eqn:Hc; cbn [negb]; reflexivity|reflexivity]).
Qed.

End TableRows.

(** ** The DO form on the PO page *)

Section CreatedDO.

Import POManagementPage.

Variable JSON_parse : string -> option (option DOResponseData).



End CreatedDO.


(** ** The items of the delivery-order forms *)

Section FormItems.

Variable StringToNumber : string -> float.
Variable ObjectToNumber : json -> float.

Lemma or_truthy_num_is_number (x d : float) :
  PrimFloat.eqb d d = true ->
  PrimFloat.eqb (JS.or JS.truthy_num x d) (JS.or JS.truthy_num x d) = true.
Proof.
  intros Hd. unfold JS.or. destruct (JS.truthy_num x) eqn:Hx; [|exact Hd].
  unfold JS.truthy_num in Hx. now apply andb_true_iff in Hx as [_ Hx].
Qed.

Lemma or_truthy_num_truthy (x d : float) :
  JS.truthy_num d = true -> JS.truthy_num (JS.or JS.truthy_num x d) = true.
Proof. intros Hd. unfold JS.or. now destruct (JS.truthy_num x) eqn:Hx. Qed.

(** X24. What [loadDO] makes of the items it is given. A missing value gives
    the one default item, an array gives one item for each of its own,
    an empty array none at all. Whatever the fields held, a formatted
    item has a quantity that is neither zero nor NaN, a unit price that
    is a number, a unit that is not empty, and as total the product of
    the two. *)
Theorem formatted_items_are_well_formed (items_ : option (list DOForm.RawItem)) :
  let out := DOForm.formatItems StringToNumber ObjectToNumber items_ in
  (items_ = None -> out = [DOForm.defaultItem])
  /\ (forall l, items_ = Some l -> length out = length l)
  /\ (forall item, item ∈ out ->
        JS.truthy_num (DOForm.quantity item) = true
        /\ PrimFloat.eqb (DOForm.unitPrice item) (DOForm.unitPrice item) = true
        /\ DOForm.unit_ item ≠ ""
        /\ DOForm.total item = (DOForm.quantity item * DOForm.unitPrice item)%float).
Proof.
  intros out. subst out. split_and!.
  - intros ->. reflexivity.
  - intros l ->. apply length_map.
  - intros item Hin. destruct items_ as [l|]; cbn [DOForm.formatItems] in Hin.
    + apply list_elem_of_fmap in Hin as (raw & -> & _).
      unfold DOForm.formatItem.
      cbn [DOForm.quantity DOForm.unitPrice DOForm.unit_ DOForm.total].
      split_and!.
      * now apply or_truthy_num_truthy.
      * now apply or_truthy_num_is_number.
      * unfold or_str, JS.or. destruct (DOForm.raw_unit raw) as [u|]; cbn [truthy_str].
        -- destruct (JSString.truthy u) eqn:Hu; cbn [default]; [|discriminate].
           now apply truthy_nonempty.
        -- cbn [default]. discriminate.
      * reflexivity.
    + apply list_elem_of_singleton in Hin as ->.
      split_and!; [reflexivity|reflexivity|discriminate|].
      now vm_compute.
Qed.

(** X25. Editing a field of a row touches that row alone: the list keeps its
    length, the other rows and the other fields of the form stay as
    they were, among them the stored [totalAmount], which no edit
    brings up to date; an edit of the name or the unit leaves the
    numbers of the row alone. The edit is refused exactly when the
    index is past the end of the list. *)
Theorem item_change_is_local (index : nat) (edit : DOForm.itemEdit)
    (formData : DOForm.FormData) :
  (DOForm.handleItemChange index edit formData = None
   <-> length (DOForm.items formData) <= index)
  /\ (forall formData', DOForm.handleItemChange index edit formData = Some formData' ->
        length (DOForm.items formData') = length (DOForm.items formData)
        /\ (forall j, j ≠ index ->
              DOForm.items formData' !! j = DOForm.items formData !! j)
        /\ DOForm.totalAmount formData' = DOForm.totalAmount formData
        /\ DOForm.doNumber formData' = DOForm.doNumber formData
        /\ DOForm.deliveryAddress formData' = DOForm.deliveryAddress formData
        /\ (forall old new,
              DOForm.items formData !! index = Some old ->
              DOForm.items formData' !! index = Some new ->
              match edit with
              | DOForm.SetProductName v =>
                  DOForm.productName new = v
                  /\ DOForm.quantity new = DOForm.quantity old
                  /\ DOForm.unitPrice new = DOForm.unitPrice old
                  /\ DOForm.total new = DOForm.total old
              | DOForm.SetUnit v =>
                  DOForm.unit_ new = v
                  /\ DOForm.quantity new = DOForm.quantity old
                  /\ DOForm.unitPrice new = DOForm.unitPrice old
                  /\ DOForm.total new = DOForm.total old
              | DOForm.SetQuantity v =>
                  DOForm.quantity new = v
                  /\ DOForm.unitPrice new = DOForm.unitPrice old
                  /\ DOForm.total new
                     = (v * JS.or JS.truthy_num (DOForm.unitPrice old) 0)%float
              | DOForm.SetUnitPrice v =>
                  DOForm.unitPrice new = v
                  /\ DOForm.quantity new = DOForm.quantity old
                  /\ DOForm.total new
                     = (JS.or JS.truthy_num (DOForm.quantity old) 1 * v)%float
              end)).
Proof.
  unfold DOForm.handleItemChange. split.
  - destruct (DOForm.items formData !! index) as [old|] eqn:Hl.
    + split; [discriminate|]. intros Hlen.
      apply lookup_lt_Some in Hl. lia.
    + split; [|reflexivity]. intros _. now apply lookup_ge_None.
  - intros formData'. destruct (DOForm.items formData !! index) as [old|] eqn:Hl;
      [|discriminate].
    intros [= <-]. cbn [DOForm.setItems DOForm.items DOForm.totalAmount
                        DOForm.doNumber DOForm.deliveryAddress].
    split_and!; try reflexivity.
    + apply length_insert.
    + intros j Hj. now apply list_lookup_insert_ne.
    + intros old' new [= <-].
      rewrite list_lookup_insert_eq by (now apply lookup_lt_Some in Hl).
      intros [= <-]. destruct edit; cbn; split_and!; reflexivity.
Qed.

(** X26. Adding an item and removing it again gives the form back, in both
    forms, as long as the list was not empty; on the empty list that
    the PO-prefilled form can start from, the item just added is the
    only one and cannot be removed. *)
Theorem add_then_remove_restores (clock : Clock) (formData : DOForm.FormData)
    (prefilled : DeliveryOrderForm.DOFormData) :
  (DOForm.items formData ≠ [] ->
   DOForm.removeItem (length (DOForm.items formData)) (DOForm.addItem formData)
   = formData)
  /\ (DeliveryOrderForm.items prefilled ≠ [] ->
      DeliveryOrderForm.removeItem (length (DeliveryOrderForm.items prefilled))
        (DeliveryOrderForm.addItem clock prefilled)
      = prefilled)
  /\ (DeliveryOrderForm.items prefilled = [] ->
      DeliveryOrderForm.removeItem 0 (DeliveryOrderForm.addItem clock prefilled)
      = DeliveryOrderForm.addItem clock prefilled).
Proof.
  assert (Hcut : forall A (l : list A) (x : A),
            filter_index (fun i => negb (i =? length l)) 0 (l ++ [x]) = l).
  { intros A l x. rewrite (filter_index_cut _ 0 (length l)) by reflexivity.
    rewrite take_app_length, drop_ge by (rewrite length_app; cbn; lia).
    apply app_nil_r. }
  split_and!.
  - intros Hne. unfold DOForm.removeItem, DOForm.addItem.
    cbn [DOForm.setItems DOForm.items]. rewrite length_app. cbn [length].
    destruct (DOForm.items formData) as [|i l] eqn:Hi; [congruence|].
    replace (length (i :: l) + 1 <=? 1) with false
      by (symmetry; apply Nat.leb_gt; cbn; lia).
    rewrite Hcut. destruct formData. cbn in *. now subst.
  - intros Hne. unfold DeliveryOrderForm.removeItem, DeliveryOrderForm.addItem.
    cbn [DeliveryOrderForm.setItems DeliveryOrderForm.items]. rewrite length_app.
    cbn [length].
    destruct (DeliveryOrderForm.items prefilled) as [|i l] eqn:Hi; [congruence|].
    replace (length (i :: l) + 1 <=? 1) with false
      by (symmetry; apply Nat.leb_gt; cbn; lia).
    rewrite Hcut. destruct prefilled. cbn in *. now subst.
  - intros He. unfold DeliveryOrderForm.removeItem, DeliveryOrderForm.addItem.
    cbn [DeliveryOrderForm.setItems DeliveryOrderForm.items]. now rewrite He.
Qed.

End FormItems.

(** ** The form prefilled from a purchase order *)

Section PrefilledForm.

Import DeliveryOrderForm.

Lemma or_num_some (a : option float) (d : float) :
  or_num a (Some d) = Some (default d (or_num a (Some d))).
Proof.
  unfold or_num, JS.or. destruct (truthy_opt_num a) eqn:Ha; [|reflexivity].
  destruct a; [reflexivity|discriminate].
Qed.

(** X27. The initial state of the form. With items from the PO there is one
    row for each, in order, each with a quantity that is neither zero
    nor NaN, a unit that is not empty and a [price] equal to its unit
    price; with none, or with an empty array, the form starts in its
    error state: no rows, the note that says so, and an empty delivery
    address even when the PO brought one. *)
Theorem prefill_keeps_the_items_of_the_po (clock : Clock) (poId : string)
    (initialData : InitialData) :
  let formData := initialForm clock poId initialData in
  length (items formData) = length (default [] (init_items initialData))
  /\ (forall item, item ∈ items formData ->
        JS.truthy_num (quantity item) = true
        /\ unit_ item ≠ ""
        /\ price item = Some (unitPrice item))
  /\ (forall k item, items formData !! k = Some item ->
        exists given, default [] (init_items initialData) !! k = Some given
                      /\ (truthy_str (init_id given) = true ->
                          Some (item_id item) = init_id given)
                      /\ (truthy_opt_num (init_quantity given) = true ->
                          Some (quantity item) = init_quantity given))
  /\ (default [] (init_items initialData) = [] ->
      items formData = []
      /\ notes formData = "No items found in the purchase order"
      /\ deliveryAddress formData = "")
  /\ doNumber formData = newDONumber clock.
Proof.
  intros formData. subst formData. unfold initialForm.
  destruct (init_items initialData) as [[|i rest]|];
    cbv beta iota delta [default from_option id];
    cbn [items notes deliveryAddress doNumber length].
  1,3: split_and!; try reflexivity;
    [intros item Hin; now apply elem_of_nil in Hin
    |intros k item Hk; now rewrite lookup_nil in Hk
    |intros _; split_and!; reflexivity].
  split_and!; [|  | |discriminate|reflexivity].
  - now rewrite length_imap.
  - intros item Hin. apply list_elem_of_lookup in Hin as [k Hk].
    rewrite list_lookup_imap in Hk.
    destruct ((i :: rest) !! k) as [given|]; [|discriminate].
    injection Hk as <-. unfold prefillItem. cbn [quantity unit_ price unitPrice].
    split_and!.
    + unfold or_num, JS.or. destruct (truthy_opt_num (init_quantity given)) eqn:Hq;
        [|reflexivity].
      destruct (init_quantity given); [exact Hq|discriminate].
    + unfold or_str, JS.or. destruct (init_unit given) as [u|]; cbn [truthy_str].
      * destruct (JSString.truthy u) eqn:Hu; cbn [default]; [|discriminate].
        now apply truthy_nonempty.
      * cbn [default]. discriminate.
    + apply or_num_some.
  - intros k item Hk. rewrite list_lookup_imap in Hk.
    destruct ((i :: rest) !! k) as [given|]; [|discriminate].
    injection Hk as <-. exists given. split; [reflexivity|].
    unfold prefillItem. cbn [item_id quantity]. split.
    + intros Ht. unfold or_str, JS.or. rewrite Ht.
      destruct (init_id given); [reflexivity|discriminate].
    + intros Ht. unfold or_num, JS.or. rewrite Ht.
      destruct (init_quantity given); [reflexivity|discriminate].
Qed.

End PrefilledForm.

Section SubmitPrefilled.

Import DeliveryOrderFormIO.

Variable VITE_API_URL : option string.
Variable server : Api.request -> option Api.response.
Variable String_of : json -> string.
Variable engineMessage : error -> string.

Local Abbreviation submit :=
  (handleSubmit VITE_API_URL server String_of engineMessage).

Lemma finalUrl_delivery_orders :
  Api.finalUrl VITE_API_URL "/api/delivery-orders"
  = Api.BASE_URL VITE_API_URL +:+ "/api/delivery-orders".
Proof. rewrite finalUrl_unfold. now rewrite !rewriteEndpoint_skip by reflexivity. Qed.

(** Without a delivery address nothing is sent. *)
Lemma handleSubmit_without_address (hasOnSubmit : bool)
    (formData : DeliveryOrderForm.DOFormData) (s : FormState) :
  DeliveryOrderForm.deliveryAddress formData = "" ->
  submit hasOnSubmit formData s
  = (inr tt,
     {| isSubmitting := false;
        error_ := Some "Delivery address is required";
        toasts := toasts s ++ [toast_error "Failed to create delivery order"];
        navigated := navigated s; submitted := submitted s; world := world s |}).
Proof.
  intros Ha. unfold handleSubmit. rewrite Ha. reflexivity.
Qed.

(** X28. Submitting the form never rejects and ends with [isSubmitting]
    false. Without a delivery address it sends nothing and reports that
    the address is required. With one it sends a single POST to
    [/api/delivery-orders] that has no body, whatever the form holds:
    the data is passed as [data], which is not sent. After a success
    the [onSubmit] prop is called with the [data] member of what the
    helper resolved to, or the router goes to the list when there is no
    such prop. *)
Theorem delivery_order_is_posted_without_body (hasOnSubmit : bool)
    (formData : DeliveryOrderForm.DOFormData) (s : FormState) :
  let out := submit hasOnSubmit formData s in
  let post := Api.apiRequest VITE_API_URL server "/api/delivery-orders"
                {| Api.method := Some "POST"; Api.headers := ∅;
                   Api.init_body := None |} (world s) in
  out.1 = inr tt
  /\ isSubmitting out.2 = false
  /\ (DeliveryOrderForm.deliveryAddress formData = "" ->
      Api.dispatched (world out.2) = Api.dispatched (world s)
      /\ error_ out.2 = Some "Delivery address is required"
      /\ toasts out.2 = toasts s ++ [toast_error "Failed to create delivery order"])
  /\ (DeliveryOrderForm.deliveryAddress formData ≠ "" ->
      (exists rq, Api.dispatched (world out.2) = Api.dispatched (world s) ++ [rq]
                  /\ Api.req_url rq = Api.BASE_URL VITE_API_URL +:+ "/api/delivery-orders"
                  /\ Api.req_method rq = Some "POST"
                  /\ Api.req_body rq = None)
      /\ match post.1 with
         | inr response =>
             toasts out.2
             = toasts s ++ [toast_success "Delivery order created successfully"]
             /\ error_ out.2 = None
             /\ (if hasOnSubmit
                 then submitted out.2 = submitted s ++ [JS.opt_get response "data"]
                      /\ navigated out.2 = navigated s
                 else submitted out.2 = submitted s
                      /\ navigated out.2 = navigated s ++ ["/delivery-orders"])
         | inl e =>
             toasts out.2 = toasts s ++ [toast_error "Failed to create delivery order"]
             /\ error_ out.2
                = Some (POManagementPageIO.messageOf String_of engineMessage e)
             /\ submitted out.2 = submitted s
             /\ navigated out.2 = navigated s
         end).
Proof.
  intros out post. subst out post.
  destruct (decide (DeliveryOrderForm.deliveryAddress formData = "")) as [Ha|Ha].
  { rewrite (handleSubmit_without_address _ _ _ Ha). cbn [fst snd isSubmitting world
      error_ toasts]. split_and!; try reflexivity; [intros _; split_and!; reflexivity|].
    intros Hne. now destruct Hne. }
  pose proof (apiRequest_log VITE_API_URL server "/api/delivery-orders"
                {| Api.method := Some "POST"; Api.headers := ∅;
                   Api.init_body := None |} (world s)) as Hlog.
  pose proof (apiRequest_resolves_to_a_value VITE_API_URL server "/api/delivery-orders"
                {| Api.method := Some "POST"; Api.headers := ∅;
                   Api.init_body := None |} (world s)) as Hv.
  unfold handleSubmit. apply truthy_nonempty in Ha as Ht. rewrite Ht. cbn [negb].
  unfold AuthContext.finally, try_catch, bind, liftWorld, of_get, modify, ret, throw.
  cbn [world setError setIsSubmitting].
  destruct (Api.apiRequest _ _ _ _ (world s)) as [[e|v] w1]; cbn [fst snd] in *.
  - cbn [isSubmitting world error_ toasts submitted navigated setIsSubmitting
         addToast setError].
    split_and!; try reflexivity; [intros He; now destruct Ha|].
    intros _. split; [|split_and!; reflexivity].
    eexists. split; [exact Hlog|].
    split_and!; [apply finalUrl_delivery_orders|reflexivity|reflexivity].
  - rewrite (Hv v eq_refl "data").
    destruct hasOnSubmit;
      cbn [fst snd isSubmitting world error_ toasts submitted navigated
           setIsSubmitting addToast setError onSubmit navigate];
      (split_and!; try reflexivity; [intros He; now destruct Ha|];
       intros _; split; [|split_and!; reflexivity];
       eexists; split; [exact Hlog|];
       split_and!; [apply finalUrl_delivery_orders|reflexivity|reflexivity]).
Qed.


End SubmitPrefilled.


(** ** Mounting the DO form on a stored delivery order *)

Section MountedForm.

Import DOFormMount.

Variable clock : Clock.
Variable Date_toISOString : string -> option string.
Variable StringToNumber : string -> float.
Variable ObjectToNumber : json -> float.

Local Abbreviation mount' :=
  (mount clock Date_toISOString StringToNumber ObjectToNumber).
Local Abbreviation loadDO' :=
  (loadDO clock Date_toISOString StringToNumber ObjectToNumber).

Lemma beforeT_idem (s : string) : beforeT (beforeT s) = beforeT s.
Proof.
  induction s as [|c s IH]; [reflexivity|].
  cbn [beforeT]. destruct (Ascii.eqb c "T") eqn:Hc; [reflexivity|].
  cbn [beforeT]. now rewrite Hc, IH.
Qed.

(** X30. The form mounted on a stored delivery order. [loadDO] takes the
    number of the order when it has one, but the effect that generates
    a DO number runs after it, so the mounted form shows the number a
    new order would get, never the stored one; everything else stays as
    loaded: the items as formatted, the supplier and the addresses, and
    the dates cut at their [T]. *)
Theorem mounted_form_shows_a_generated_number (doInfo : DOInfo)
    (prev : DOForm.FormData) :
  let loaded := loadDO' doInfo prev in
  let mounted := mount' (Some doInfo) in
  (forall n, info_doNumber doInfo = Some n -> n ≠ "" -> DOForm.doNumber loaded = n)
  /\ DOForm.doNumber mounted = DOForm.doNumber (mount' None)
  /\ DOForm.items mounted
     = DOForm.formatItems StringToNumber ObjectToNumber (info_items doInfo)
  /\ DOForm.items mounted = DOForm.items loaded
  /\ DOForm.supplierName mounted = DOForm.supplierName loaded
  /\ DOForm.deliveryAddress mounted = DOForm.deliveryAddress loaded
  /\ DOForm.doDate mounted = DOForm.doDate loaded
  /\ (truthy_str (or_str (info_doDate doInfo) (info_createdAt doInfo)) = false ->
      DOForm.doDate mounted = isoDate clock)
  /\ (forall s, or_str (info_doDate doInfo) (info_createdAt doInfo) = Some s ->
        s ≠ "" ->
        beforeT (DOForm.doDate mounted) = DOForm.doDate mounted).
Proof.
  intros loaded mounted. subst loaded mounted.
  unfold mount, DOForm.generateDONumber, loadDO.
  cbn [DOForm.setDoNumber DOForm.doNumber DOForm.items DOForm.supplierName
       DOForm.deliveryAddress DOForm.doDate].
  split_and!; try reflexivity.
  - intros n Hn Hne. rewrite Hn. unfold or_str, JS.or. cbn [truthy_str].
    apply truthy_nonempty in Hne. now rewrite Hne.
  - intros Hd. unfold formatDate. now rewrite Hd.
  - intros s Hs Hne. unfold formatDate. rewrite Hs. cbn [truthy_str].
    apply truthy_nonempty in Hne. rewrite Hne. cbn [negb].
    destruct (Date_toISOString s); apply beforeT_idem.
Qed.

End MountedForm.
